(** * Idempotent event ingestion: a shallow embedding of the pipeline

    The development follows the JavaScript sources module by module:
    - [JS]                 the fragment of the JavaScript run time the code relies on
                           (strings, numbers, JSON values, [parseFloat], [JSON.stringify], [Date]);
    - [Crypto]             SHA-256, as used through [crypto.createHash('sha256')];
    - [Normalizer]         src/normalizer.js;
    - [Database]           src/database.js together with the four SQL tables it creates;
    - [IdempotencyHandler] the hashing, duplicate lookup and insert helpers;
    - [EventService]       [ingestEvent] of src/services/eventService.js;
    - [Registry]           the alias table as [addFieldMapping] extends it;
    - [Audit]              the processing log, the database file and the states
                           the service reaches;
    - [Stats]              [getStats] of src/services/eventService.js;
    - [Calendar], [Hashing] what the proofs about dates and fingerprints refer to.

    Strings are sequences of the code units U+0000 to U+00FF (Latin-1), on
    which [trim], [toLowerCase], [JSON.stringify] and the UTF-8 bytes that
    SHA-256 reads are modelled exactly; text outside is not represented.
    Numbers are exact decimals [m * 10^e]: binary64 rounding is not modelled.
    What the sources leave to the platform (the clocks, how [Date] reads a
    string outside the standard format, what sql.js's [export()] does to the
    connection) is gathered in a [host] that every operation takes. *)

From Stdlib Require Import ZArith List Bool Ascii String Lia.
From Stdlib Require Import Permutation Sorted Relations DecimalString.
Import ListNotations.

Local Open Scope string_scope.
Local Open Scope Z_scope.

Module JS.

(** ** Characters and strings *)

(** The double quote character, as a one-character string. *)
Definition dq : string := String (ascii_of_nat 34) EmptyString.

Definition code (c : ascii) : Z := Z.of_nat (nat_of_ascii c).

(** White space and line terminators stripped by [String.prototype.trim]:
    TAB, LF, VT, FF, CR, SP and the no-break space U+00A0. *)
Definition is_whitespace (c : ascii) : bool :=
  ((9 <=? code c) && (code c <=? 13)) || (code c =? 32) || (code c =? 160).

Definition is_digit (c : ascii) : bool := (48 <=? code c) && (code c <=? 57).

(** The code units [toLowerCase] changes: A to Z, and U+00C0 to U+00DE but
    for the multiplication sign U+00D7. *)
Definition is_upper (c : ascii) : bool :=
  ((65 <=? code c) && (code c <=? 90))
  || ((192 <=? code c) && (code c <=? 222) && negb (code c =? 215)).

(** The lower-case letter is 32 code units further in both ranges. *)
Definition lower_char (c : ascii) : ascii :=
  if is_upper c then ascii_of_nat (nat_of_ascii c + 32) else c.

Fixpoint toLowerCase (s : string) : string :=
  match s with
  | EmptyString => EmptyString
  | String c r => String (lower_char c) (toLowerCase r)
  end.

Fixpoint trimStart (s : string) : string :=
  match s with
  | EmptyString => EmptyString
  | String c r => if is_whitespace c then trimStart r else s
  end.

Fixpoint trimEnd (s : string) : string :=
  match s with
  | EmptyString => EmptyString
  | String c r =>
      match trimEnd r with
      | EmptyString => if is_whitespace c then EmptyString else String c EmptyString
      | t => String c t
      end
  end.

Definition trim (s : string) : string := trimEnd (trimStart s).

(** [s.replace(/[,$]/g, '')] *)
Fixpoint remove_separators (s : string) : string :=
  match s with
  | EmptyString => EmptyString
  | String c r =>
      if (code c =? 44) || (code c =? 36) then remove_separators r
      else String c (remove_separators r)
  end.

(** [parts.join(sep)] on strings. *)
Definition join (sep : string) (parts : list string) : string := String.concat sep parts.

(** [s.split('/')] *)
Fixpoint split_slash (s : string) : list string :=
  match s with
  | EmptyString => [EmptyString]
  | String c r =>
      if code c =? 47 then EmptyString :: split_slash r
      else match split_slash r with
           | p :: ps => String c p :: ps
           | [] => [String c EmptyString]
           end
  end.

Fixpoint repeat_string (n : nat) (s : string) : string :=
  match n with
  | O => EmptyString
  | S k => s ++ repeat_string k s
  end.

(** Decimal digits of a natural number, without leading zeros (["0"] for zero). *)
Definition digits_of (n : Z) : string := NilZero.string_of_uint (N.to_uint (Z.to_N n)).

(** [String(n).padStart(w, '0')] for a non-negative [n]. *)
Definition pad (w : nat) (n : Z) : string :=
  let d := digits_of n in
  repeat_string (w - String.length d) "0" ++ d.

(** ** Numbers *)

(** A JavaScript number: [Dec m e] stands for [m * 10^e]. *)
Inductive number : Type :=
| NaN
| Infinity (negative : bool)
| Dec (m e : Z).

Fixpoint strip_zeros (fuel : nat) (m e : Z) : Z * Z :=
  match fuel with
  | O => (m, e)
  | S f =>
      if m =? 0 then (0, 0)
      else if m mod 10 =? 0 then strip_zeros f (m / 10) (e + 1)
      else (m, e)
  end.

(** The canonical form of [m * 10^e]: no trailing zero in the mantissa. *)
Definition mkDec (m e : Z) : number :=
  let (m', e') := strip_zeros (S (Z.to_nat (Z.log2 (Z.abs m)))) m e in Dec m' e'.

Definition isNaN (n : number) : bool :=
  match n with NaN => true | _ => false end.

(** [n >= 0] *)
Definition nonneg (n : number) : bool :=
  match n with
  | NaN => false
  | Infinity neg => negb neg
  | Dec m _ => 0 <=? m
  end.

(** [Number.prototype.toString()], radix 10. *)
Definition number_to_string (n : number) : string :=
  match n with
  | NaN => "NaN"
  | Infinity false => "Infinity"
  | Infinity true => "-Infinity"
  | Dec m0 e0 =>
      match mkDec m0 e0 with
      | Dec m e =>
          if m =? 0 then "0"
          else
            let sign := if m <? 0 then "-" else "" in
            let s := digits_of (Z.abs m) in
            let k := Z.of_nat (String.length s) in
            let n := k + e in
            sign ++
            (if (k <=? n) && (n <=? 21) then
               s ++ repeat_string (Z.to_nat (n - k)) "0"
             else if (0 <? n) && (n <=? 21) then
               substring 0 (Z.to_nat n) s ++ "." ++
               substring (Z.to_nat n) (Z.to_nat (k - n)) s
             else if (-6 <? n) && (n <=? 0) then
               "0." ++ repeat_string (Z.to_nat (- n)) "0" ++ s
             else
               let ex := n - 1 in
               let exs := (if 0 <=? ex then "+" else "-") ++ digits_of (Z.abs ex) in
               if k =? 1 then s ++ "e" ++ exs
               else substring 0 1 s ++ "." ++
                    substring 1 (Z.to_nat (k - 1)) s ++ "e" ++ exs)
      | _ => "NaN"
      end
  end.

(** *** parseFloat *)

Fixpoint span_digits (s : string) : list ascii * string :=
  match s with
  | EmptyString => ([], EmptyString)
  | String c r =>
      if is_digit c then let (ds, rest) := span_digits r in (c :: ds, rest)
      else ([], s)
  end.

Definition digits_value (ds : list ascii) : Z :=
  fold_left (fun acc c => 10 * acc + (code c - 48)) ds 0.

(** The optional [ExponentPart] of a [StrDecimalLiteral]: it is consumed only
    when at least one digit follows the sign. *)
Definition exponent_part (s : string) : Z :=
  match s with
  | String c r =>
      if (code c =? 101) || (code c =? 69) then
        let (neg, r') :=
          match r with
          | String c' r'' =>
              if code c' =? 45 then (true, r'')
              else if code c' =? 43 then (false, r'')
              else (false, r)
          | EmptyString => (false, r)
          end in
        match span_digits r' with
        | ([], _) => 0
        | (ds, _) => if neg then - digits_value ds else digits_value ds
        end
      else 0
  | EmptyString => 0
  end.

(** [parseFloat(s)]: the longest prefix of the trimmed input that is a
    [StrDecimalLiteral], or [NaN] when there is none. *)
Definition parseFloat (s : string) : number :=
  let s0 := trimStart s in
  let (neg, s1) :=
    match s0 with
    | String c r =>
        if code c =? 45 then (true, r)
        else if code c =? 43 then (false, r)
        else (false, s0)
    | EmptyString => (false, s0)
    end in
  if prefix "Infinity" s1 then Infinity neg
  else
    let (ip, s2) := span_digits s1 in
    let (fp, s3) :=
      match s2 with
      | String c r => if code c =? 46 then span_digits r else ([], s2)
      | EmptyString => ([], s2)
      end in
    match (ip ++ fp)%list with
    | [] => NaN
    | ds =>
        let m := digits_value ds in
        mkDec (if neg then - m else m)
              (exponent_part s3 - Z.of_nat (List.length fp))
    end.

(** ** JSON values

    What [JSON.parse] may hand to the service.  The property list of an object
    is in own-property order; a well-formed object has no repeated key. *)
#[local] Unset Elimination Schemes.
Inductive value : Type :=
| VNull
| VBool (b : bool)
| VNum (n : number)
| VStr (s : string)
| VArr (items : list value)
| VObj (props : list (string * value)).
#[local] Set Elimination Schemes.

Fixpoint assoc {A : Type} (k : string) (l : list (string * A)) : option A :=
  match l with
  | [] => None
  | (k', a) :: r => if (k' =? k)%string then Some a else assoc k r
  end.

(** [obj[name]], with [None] for [undefined].  The program reads only the
    alias names of the normalizer and [payload]: none of them is an array
    index, [length] or a property inherited from a built-in prototype, so a
    read from anything but an object is [undefined]. *)
Definition get (obj : value) (name : string) : option value :=
  match obj with
  | VObj props => assoc name props
  | _ => None
  end.

(** [ToBoolean] *)
Definition truthy (v : value) : bool :=
  match v with
  | VNull => false
  | VBool b => b
  | VNum NaN => false
  | VNum (Infinity _) => true
  | VNum (Dec m _) => negb (m =? 0)
  | VStr s => negb (s =? "")%string
  | VArr _ => true
  | VObj _ => true
  end.

(** All the conversions of a list succeed, or one of them throws. *)
Fixpoint all_converted (texts : list (option string)) : option (list string) :=
  match texts with
  | [] => Some []
  | Some text :: rest => option_map (cons text) (all_converted rest)
  | None :: _ => None
  end.

(** [String(v)], which is also the conversion of a template literal; [None]
    when it throws a [TypeError].  A plain object is converted by the
    [toString] it inherits, unless it has an own [toString] key: a JSON value
    is never a function, the inherited [valueOf] returns the object itself,
    and nothing is left to convert it.  An array joins the conversions of its
    elements, the empty text standing for [null]. *)
Fixpoint ToString (v : value) : option string :=
  match v with
  | VNull => Some "null"
  | VBool b => Some (if b then "true" else "false")
  | VNum n => Some (number_to_string n)
  | VStr s => Some s
  | VArr items =>
      option_map (join ",")
        (all_converted
           (map (fun x => match x with VNull => Some "" | _ => ToString x end) items))
  | VObj props =>
      match assoc "toString" props with
      | Some _ => None
      | None => Some "[object Object]"
      end
  end.

(** The message of the [TypeError] of a failed conversion. *)
Definition TypeError_message : string := "Cannot convert object to primitive value".

Fixpoint index_keys (from : Z) (n : nat) : list string :=
  match n with
  | O => []
  | S k => digits_of from :: index_keys (from + 1) k
  end.

(** [Object.keys(v)] for a value other than [null]. *)
Definition keys (v : value) : list string :=
  match v with
  | VObj props => map fst props
  | VArr items => index_keys 0 (List.length items)
  | VStr s => index_keys 0 (String.length s)
  | _ => []
  end.

(** An array index is the canonical decimal form of an integer below [2^32 - 1]. *)
Definition array_index (k : string) : option Z :=
  match span_digits k with
  | (ds, EmptyString) =>
      let n := digits_value ds in
      if negb (k =? "")%string && (digits_of n =? k)%string && (n <? 4294967295)
      then Some n else None
  | _ => None
  end.

Fixpoint insert_index (n : Z) (k : string) (v : value) (o : list (string * value))
  : list (string * value) :=
  match o with
  | [] => [(k, v)]
  | (k', v') :: r =>
      match array_index k' with
      | Some n' => if n' <? n then (k', v') :: insert_index n k v r
                   else (k, v) :: o
      | None => (k, v) :: o
      end
  end.

Fixpoint replace_prop (k : string) (v : value) (o : list (string * value))
  : list (string * value) :=
  match o with
  | [] => []
  | (k', v') :: r =>
      if (k' =? k)%string then (k, v) :: r else (k', v') :: replace_prop k v r
  end.

(** [o[k] = v] on a plain object whose prototype holds no setter for [k]:
    an existing property keeps its place, a new array index goes among the
    indices in ascending order, any other new key goes last. *)
Definition set_prop (o : list (string * value)) (k : string) (v : value)
  : list (string * value) :=
  match assoc k o with
  | Some _ => replace_prop k v o
  | None =>
      match array_index k with
      | Some n => insert_index n k v o
      | None => (o ++ [(k, v)])%list
      end
  end.

(** [o[k] = v] on an object literal.  The key [__proto__] reaches the accessor
    inherited from [Object.prototype]: it changes the prototype at most and
    creates no own property. *)
Definition assign (o : list (string * value)) (k : string) (v : value)
  : list (string * value) :=
  if (k =? "__proto__")%string then o else set_prop o k v.

Fixpoint insert_sorted (k : string) (l : list string) : list string :=
  match l with
  | [] => [k]
  | x :: r => if String.leb k x then k :: l else x :: insert_sorted k r
  end.

(** [keys.sort()]: the default order compares strings code unit by code unit. *)
Definition sort (l : list string) : list string := fold_right insert_sorted [] l.

(** [hay.includes(needle)] *)
Fixpoint includes (needle hay : string) : bool :=
  prefix needle hay ||
  match hay with
  | EmptyString => false
  | String _ r => includes needle r
  end.

(** *** JSON.stringify *)

Definition hex_digit (n : Z) : string := substring (Z.to_nat n) 1 "0123456789abcdef".

Definition escape_char (c : ascii) : string :=
  let n := code c in
  if n =? 34 then "\" ++ dq
  else if n =? 92 then "\\"
  else if n =? 8 then "\b"
  else if n =? 9 then "\t"
  else if n =? 10 then "\n"
  else if n =? 12 then "\f"
  else if n =? 13 then "\r"
  else if n <? 32 then "\u00" ++ hex_digit (n / 16) ++ hex_digit (n mod 16)
  else String c EmptyString.

Fixpoint escape (s : string) : string :=
  match s with
  | EmptyString => EmptyString
  | String c r => escape_char c ++ escape r
  end.

Definition quote (s : string) : string := dq ++ escape s ++ dq.

Fixpoint JSON_stringify (v : value) : string :=
  match v with
  | VNull => "null"
  | VBool b => if b then "true" else "false"
  | VNum (Dec m e) => number_to_string (Dec m e)
  | VNum _ => "null"
  | VStr s => quote s
  | VArr items => "[" ++ join "," (map JSON_stringify items) ++ "]"
  | VObj props =>
      "{" ++ join "," (map (fun kv : string * value =>
                         let (k, x) := kv in quote k ++ ":" ++ JSON_stringify x) props) ++ "}"
  end.

(** ** Date

    A time value is a number of milliseconds since the epoch; [None] stands
    for the [NaN] of an invalid date. *)

Definition is_leap (y : Z) : bool :=
  ((y mod 4 =? 0) && negb (y mod 100 =? 0)) || (y mod 400 =? 0).

Definition days_in_month (y m : Z) : Z :=
  if m =? 2 then (if is_leap y then 29 else 28)
  else if (m =? 4) || (m =? 6) || (m =? 9) || (m =? 11) then 30
  else 31.

(** Days from 1970-01-01 to the given civil date (proleptic Gregorian). *)
Definition days_from_civil (y m d : Z) : Z :=
  let y' := if m <=? 2 then y - 1 else y in
  let era := y' / 400 in
  let yoe := y' - era * 400 in
  let doy := (153 * (if 2 <? m then m - 3 else m + 9) + 2) / 5 + d - 1 in
  let doe := yoe * 365 + yoe / 4 - yoe / 100 + doy in
  era * 146097 + doe - 719468.

Definition civil_from_days (z : Z) : Z * Z * Z :=
  let z' := z + 719468 in
  let era := z' / 146097 in
  let doe := z' - era * 146097 in
  let yoe := (doe - doe / 1460 + doe / 36524 - doe / 146096) / 365 in
  let doy := doe - (365 * yoe + yoe / 4 - yoe / 100) in
  let mp := (5 * doy + 2) / 153 in
  let d := doy - (153 * mp + 2) / 5 + 1 in
  let m := if mp <? 10 then mp + 3 else mp - 9 in
  let y := yoe + era * 400 in
  (if m <=? 2 then y + 1 else y, m, d).

Definition ms_per_day : Z := 86400000.

(** [TimeClip] *)
Definition TimeClip (t : Z) : option Z :=
  if Z.abs t <=? 8640000000000000 then Some t else None.

Local Notation "'do' x <- e ; k" :=
  (match e with Some x => k | None => None end)
  (at level 10, x pattern, e at level 100, k at level 200).

Fixpoint take_digits (n : nat) (s : string) : option (list ascii * string) :=
  match n with
  | O => Some ([], s)
  | S k =>
      match s with
      | String c r =>
          if is_digit c then do (ds, rest) <- take_digits k r; Some (c :: ds, rest)
          else None
      | EmptyString => None
      end
  end.

Definition number_of (n : nat) (s : string) : option (Z * string) :=
  do (ds, rest) <- take_digits n s; Some (digits_value ds, rest).

Definition expect (c : Z) (s : string) : option string :=
  match s with
  | String c' r => if code c' =? c then Some r else None
  | EmptyString => None
  end.

(** [YYYY], [YYYY-MM] or [YYYY-MM-DD]: the day number and what follows. *)
Definition iso_date (s : string) : option (Z * string) :=
  do (y, s1) <- number_of 4 s;
  match expect 45 s1 with
  | None => Some (days_from_civil y 1 1, s1)
  | Some s2 =>
      do (m, s3) <- number_of 2 s2;
      if (1 <=? m) && (m <=? 12) then
        match expect 45 s3 with
        | None => Some (days_from_civil y m 1, s3)
        | Some s4 =>
            do (d, s5) <- number_of 2 s4;
            if (1 <=? d) && (d <=? days_in_month y m)
            then Some (days_from_civil y m d, s5) else None
        end
      else None
  end.

(** [HH:mm], [HH:mm:ss] or [HH:mm:ss.sss]: milliseconds in the day and what follows. *)
Definition iso_time (s : string) : option (Z * string) :=
  do (h, s1) <- number_of 2 s;
  do s2 <- expect 58 s1;
  do (mi, s3) <- number_of 2 s2;
  if (h <=? 23) && (mi <=? 59) then
    match expect 58 s3 with
    | None => Some (h * 3600000 + mi * 60000, s3)
    | Some s4 =>
        do (sec, s5) <- number_of 2 s4;
        if sec <=? 59 then
          match expect 46 s5 with
          | None => Some (h * 3600000 + mi * 60000 + sec * 1000, s5)
          | Some s6 =>
              do (ms, s7) <- number_of 3 s6;
              Some (h * 3600000 + mi * 60000 + sec * 1000 + ms, s7)
          end
        else None
    end
  else None.

(** [Z] or [+HH:mm] or [-HH:mm], up to the end of the string: the offset from UTC. *)
Definition iso_offset (s : string) : option Z :=
  match s with
  | String c r =>
      if (code c =? 90) && (r =? "")%string then Some 0
      else if (code c =? 43) || (code c =? 45) then
        do (h, s1) <- number_of 2 r;
        do s2 <- expect 58 s1;
        do (mi, s3) <- number_of 2 s2;
        if (h <=? 23) && (mi <=? 59) && (s3 =? "")%string then
          Some ((if code c =? 45 then -1 else 1) * (h * 3600000 + mi * 60000))
        else None
      else None
  | EmptyString => None
  end.

(** The instances of the ECMAScript Date Time String Format whose time value
    the standard fixes independently of the host: date-only forms (read as
    UTC) and date-time forms that carry an offset.  Everything else,
    including a date-time without offset (local time), is left to the host. *)
Definition parse_iso (s : string) : option Z :=
  do (day, s1) <- iso_date s;
  match s1 with
  | EmptyString => Some (day * ms_per_day)
  | String c r =>
      if code c =? 84 then
        do (t, s2) <- iso_time r;
        do off <- iso_offset s2;
        Some (day * ms_per_day + t - off)
      else None
  end.

(** What the host decides: how [Date] reads a string outside the standard
    format, the clock behind [new Date()], SQLite's [CURRENT_TIMESTAMP], and
    whether the [export()] of the sql.js build in use closes and reopens the
    connection (its documentation says it does), which starts a fresh
    [last_insert_rowid()]. *)
Record host : Type := {
  date_heuristics : string -> option Z;
  Date_now : Z;
  CURRENT_TIMESTAMP : string;
  export_reopens : bool
}.

(** [Date.parse(s)] *)
Definition Date_parse (h : host) (s : string) : option Z :=
  do t <- (match parse_iso s with
           | Some t => Some t
           | None => date_heuristics h s
           end);
  TimeClip t.

(** [new Date(v).getTime()] where an exception is caught, as in
    [parseTimestamp]: [None] is an invalid date or the [TypeError] of an
    array or object that has no conversion to a primitive. *)
Definition new_Date (h : host) (v : value) : option Z :=
  match v with
  | VStr s => Date_parse h s
  | VArr _ | VObj _ => do text <- ToString v; Date_parse h text
  | VNum NaN | VNum (Infinity _) => None
  | VNum (Dec m e) =>
      TimeClip (if 0 <=? e then m * 10 ^ e else Z.quot m (10 ^ (- e)))
  | VBool b => Some (if b then 1 else 0)
  | VNull => Some 0
  end.

(** [new Date(t).toISOString()] for a valid time value [t]. *)
Definition toISOString (t : Z) : string :=
  let day := t / ms_per_day in
  let ms := t mod ms_per_day in
  let '(y, m, d) := civil_from_days day in
  let year :=
    if (0 <=? y) && (y <=? 9999) then pad 4 y
    else (if y <? 0 then "-" else "+") ++ pad 6 (Z.abs y) in
  year ++ "-" ++ pad 2 m ++ "-" ++ pad 2 d ++ "T" ++
  pad 2 (ms / 3600000) ++ ":" ++ pad 2 ((ms / 60000) mod 60) ++ ":" ++
  pad 2 ((ms / 1000) mod 60) ++ "." ++ pad 3 (ms mod 1000) ++ "Z".

End JS.


(** * SHA-256 (FIPS 180-4)

    [crypto.createHash('sha256').update(content).digest('hex')]: 32-bit words
    are integers in [[0, 2^32)], additions wrap around. *)
Module Crypto.

Definition w32 : Z := 4294967296.

Definition add32 (a b : Z) : Z := (a + b) mod w32.

Definition rotr (n x : Z) : Z :=
  Z.lor (Z.shiftr x n) (Z.shiftl x (32 - n) mod w32).

Definition not32 (x : Z) : Z := Z.lxor x (w32 - 1).

Definition Ch (x y z : Z) : Z := Z.lxor (Z.land x y) (Z.land (not32 x) z).

Definition Maj (x y z : Z) : Z :=
  Z.lxor (Z.lxor (Z.land x y) (Z.land x z)) (Z.land y z).

Definition Sigma0 (x : Z) : Z := Z.lxor (Z.lxor (rotr 2 x) (rotr 13 x)) (rotr 22 x).
Definition Sigma1 (x : Z) : Z := Z.lxor (Z.lxor (rotr 6 x) (rotr 11 x)) (rotr 25 x).
Definition sigma0 (x : Z) : Z := Z.lxor (Z.lxor (rotr 7 x) (rotr 18 x)) (Z.shiftr x 3).
Definition sigma1 (x : Z) : Z := Z.lxor (Z.lxor (rotr 17 x) (rotr 19 x)) (Z.shiftr x 10).

(** The first 64 primes. *)
Definition is_prime (n : nat) : bool :=
  forallb (fun d => negb (Nat.eqb (Nat.modulo n d) 0)) (seq 2 (n - 2)).

Definition primes : list Z := map Z.of_nat (filter is_prime (seq 2 310)).

(** The integer cube root, one bit at a time from bit [bits - 1] down. *)
Fixpoint cube_root (bits : nat) (n r : Z) : Z :=
  match bits with
  | O => r
  | S b =>
      let r' := r + 2 ^ Z.of_nat b in
      cube_root b n (if r' * r' * r' <=? n then r' else r)
  end.

(** The round constants: the first 32 bits of the fractional parts of the
    cube roots of the first 64 primes. *)
Definition K : list Z :=
  Eval vm_compute in map (fun p => cube_root 36 (p * 2 ^ 96) 0 mod w32) primes.

(** The initial hash value: the first 32 bits of the fractional parts of the
    square roots of the first 8 primes. *)
Definition H0 : list Z :=
  Eval vm_compute in map (fun p => Z.sqrt (p * 2 ^ 64) mod w32) (firstn 8 primes).

(** Padding: a [1] bit, zeros up to 56 modulo 64 bytes, the bit length on 64 bits. *)
Definition be_bytes (n : nat) (x : Z) : list Z :=
  map (fun i => Z.shiftr x (8 * Z.of_nat i) mod 256) (rev (seq 0 n)).

Definition pad_message (msg : list Z) : list Z :=
  let len := Z.of_nat (List.length msg) in
  let zeros := Z.to_nat ((55 - len) mod 64) in
  (msg ++ [128] ++ repeat 0 zeros ++ be_bytes 8 (8 * len))%list.

Definition be_word (bs : list Z) : Z :=
  fold_left (fun acc b => acc * 256 + b) bs 0.

Fixpoint chunks (fuel n : nat) (l : list Z) : list (list Z) :=
  match fuel with
  | O => []
  | S f =>
      match l with
      | [] => []
      | _ => firstn n l :: chunks f n (skipn n l)
      end
  end.

Definition words_of (block : list Z) : list Z :=
  map be_word (chunks 16 4 block).

(** The message schedule, most recent word first: [w] holds [W(t-1) .. W(0)]. *)
Fixpoint schedule (n : nat) (w : list Z) : list Z :=
  match n with
  | O => w
  | S k =>
      let wt := add32 (add32 (sigma1 (nth 1 w 0)) (nth 6 w 0))
                      (add32 (sigma0 (nth 14 w 0)) (nth 15 w 0)) in
      schedule k (wt :: w)
  end.

Definition round (st : list Z) (kw : Z * Z) : list Z :=
  match st with
  | [a; b; c; d; e; f; g; h] =>
      let t1 := add32 (add32 (add32 h (Sigma1 e)) (add32 (Ch e f g) (fst kw))) (snd kw) in
      let t2 := add32 (Sigma0 a) (Maj a b c) in
      [add32 t1 t2; a; b; c; add32 d t1; e; f; g]
  | _ => st
  end.

Definition compress (h : list Z) (block : list Z) : list Z :=
  let w := rev (schedule 48 (rev (words_of block))) in
  let st := fold_left round (combine K w) h in
  map (fun p => add32 (fst p) (snd p)) (combine h st).

Definition sha256_words (msg : list Z) : list Z :=
  let padded := pad_message msg in
  fold_left compress (chunks (List.length padded) 64 padded) H0.

Definition hex_word (x : Z) : string :=
  String.concat "" (map (fun i => JS.hex_digit (Z.shiftr x (4 * Z.of_nat i) mod 16))
                        (rev (seq 0 8))).

(** The bytes hashed for a string: [update] encodes it in UTF-8, one byte
    for a code unit below U+0080 and two from there to U+00FF. *)
Definition utf8 (c : ascii) : list Z :=
  let n := JS.code c in
  if n <? 128 then [n] else [192 + n / 64; 128 + n mod 64].

Definition bytes_of (s : string) : list Z := flat_map utf8 (list_ascii_of_string s).

Definition sha256_hex (s : string) : string :=
  String.concat "" (map hex_word (sha256_words (bytes_of s))).

End Crypto.


(** * src/normalizer.js *)
Module Normalizer.
Import JS.

(** [this.fieldMappings], as the constructor sets it. *)
Definition fieldMappings (canonicalName : string) : option (list string) :=
  if (canonicalName =? "client_id")%string then
    Some ["source"; "client"; "client_id"; "clientId"; "sender"]
  else if (canonicalName =? "metric")%string then
    Some ["metric"; "type"; "event_type"; "eventType"; "name"]
  else if (canonicalName =? "amount")%string then
    Some ["amount"; "value"; "quantity"; "total"; "sum"]
  else if (canonicalName =? "timestamp")%string then
    Some ["timestamp"; "time"; "date"; "created_at"; "createdAt"; "event_time"]
  else None.

(** [obj && obj[name] !== undefined && obj[name] !== null && obj[name] !== ''] *)
Definition present (obj : value) (name : string) : bool :=
  truthy obj &&
  match get obj name with
  | None => false
  | Some VNull => false
  | Some (VStr s) => negb (s =? "")%string
  | Some _ => true
  end.

Fixpoint first_present (obj : value) (possibleNames : list string) : value :=
  match possibleNames with
  | [] => VNull
  | name :: rest =>
      if present obj name then
        match get obj name with Some v => v | None => VNull end
      else first_present obj rest
  end.

Definition extractField (obj : value) (canonicalName : string) : value :=
  first_present obj
    match fieldMappings canonicalName with
    | Some names => names
    | None => [canonicalName]
    end.

(** [parseNumber]; [None] is the [null] it returns. *)
Definition parseNumber (v : value) : option number :=
  match v with
  | VNum n => if isNaN n then None else Some n
  | VStr s =>
      let cleaned := trim (remove_separators s) in
      let parsed := parseFloat cleaned in
      if isNaN parsed then None else Some parsed
  | _ => None
  end.

(** The two anchored patterns of [parseTimestamp] are sequences of [\d] and [/]. *)
Inductive atom : Type := D | Slash.

Fixpoint test (pattern : list atom) (s : string) : bool :=
  match pattern, s with
  | [], EmptyString => true
  | D :: p, String c r => is_digit c && test p r
  | Slash :: p, String c r => (code c =? 47) && test p r
  | _, _ => false
  end.

(** [/^\d{4}\/\d{2}\/\d{2}$/] *)
Definition ymd : list atom := [D; D; D; D; Slash; D; D; Slash; D; D].
(** [/^\d{2}\/\d{2}\/\d{4}$/] *)
Definition dmy : list atom := [D; D; Slash; D; D; Slash; D; D; D; D].

(** [parseTimestamp].  For a value that is not a string the patterns are
    tried on [String(value)]: a match makes [value.split] throw, which the
    [catch] turns into [null]; without a match the date stays invalid, which
    gives [null] as well. *)
Definition parseTimestamp (h : host) (v : value) : option string :=
  if negb (truthy v) then None
  else
    let date :=
      match new_Date h v with
      | Some t => Some t
      | None =>
          match v with
          | VStr s =>
              let parts := split_slash s in
              if test ymd s then
                let year := nth 0 parts "undefined" in
                let month := nth 1 parts "undefined" in
                let day := nth 2 parts "undefined" in
                new_Date h (VStr (year ++ "-" ++ month ++ "-" ++ day ++ "T00:00:00Z"))
              else if test dmy s then
                let day := nth 0 parts "undefined" in
                let month := nth 1 parts "undefined" in
                let year := nth 2 parts "undefined" in
                new_Date h (VStr (year ++ "-" ++ month ++ "-" ++ day ++ "T00:00:00Z"))
              else None
          | _ => None
          end
      end in
    match date with
    | Some t => Some (toISOString t)
    | None => None
    end.

(** The canonical record, [normalized] once all four fields are set. *)
Record canonical : Type := {
  client_id : string;
  metric : string;
  amount : number;
  timestamp : string
}.

Record result : Type := {
  success : bool;
  data : option canonical;
  errors : list string;
  warnings : list string
}.

Definition knownFields : list string :=
  ["source"; "client"; "client_id"; "clientId"; "sender"; "payload"].

Definition payloadKnownFields : list string :=
  ["metric"; "type"; "event_type"; "eventType"; "name";
   "amount"; "value"; "quantity"; "total"; "sum";
   "timestamp"; "time"; "date"; "created_at"; "createdAt"; "event_time"].

Definition has (set : list string) (key : string) : bool :=
  existsb (fun k => (k =? key)%string) set.

Definition unknown (where_ : string) (known : list string) (v : value) : list string :=
  map (fun key => where_ ++ key) (filter (fun key => negb (has known key)) (keys v)).

(** [rawEvent.payload || rawEvent] *)
Definition payload_of (rawEvent : value) : value :=
  match get rawEvent "payload" with
  | Some p => if truthy p then p else rawEvent
  | None => rawEvent
  end.

(** Each field check yields the value it sets in [normalized] (if any), the
    errors and the warnings it pushes.  [String(...)] and the template
    literal of an error message throw on a value without conversion: the
    check then sets and pushes nothing, and [thrown] below tells what
    [normalize] reports in its place. *)
Definition check_client (rawEvent : value) : option string * list string :=
  let clientId := extractField rawEvent "client_id" in
  if negb (truthy clientId)
  then (None, ["Missing required field: client_id (or equivalent)"])
  else (ToString clientId, []).

Definition check_metric (payload : value) : option string * list string :=
  let metric := extractField payload "metric" in
  if negb (truthy metric)
  then (None, ["Missing required field: metric (or equivalent)"])
  else (ToString metric, []).

Definition check_amount (payload : value)
  : option number * list string * list string :=
  let amount := extractField payload "amount" in
  match amount with
  | VNull => (None, ["Missing required field: amount (or equivalent)"], [])
  | _ =>
      match parseNumber amount with
      | None =>
          match ToString amount with
          | Some text =>
              (None,
               ["Invalid amount value: " ++ text ++ " (cannot be converted to number)"],
               [])
          | None => (None, [], [])
          end
      | Some parsedAmount =>
          (Some parsedAmount, [],
           match amount with
           | VStr s =>
               ["Amount was provided as string " ++ dq ++ s ++ dq ++
                ", converted to " ++ number_to_string parsedAmount]
           | _ => []
           end)
      end
  end.

(** A value [parseTimestamp] has read has a conversion: the text of the
    warning is built from it.  The empty text stands for the timestamp that
    is not set when the error message throws. *)
Definition check_timestamp (h : host) (payload : value)
  : string * list string * list string :=
  let timestamp := extractField payload "timestamp" in
  if negb (truthy timestamp) then
    (toISOString (Date_now h), [],
     ["Missing timestamp field, using current time as fallback"])
  else
    match parseTimestamp h timestamp with
    | None =>
        match ToString timestamp with
        | Some text =>
            (toISOString (Date_now h),
             ["Invalid timestamp format: " ++ text],
             ["Using current time due to invalid timestamp"])
        | None => (EmptyString, [], [])
        end
    | Some parsedTimestamp =>
        (parsedTimestamp, [],
         match timestamp with
         | VStr s =>
             if (parsedTimestamp =? s)%string then []
             else ["Timestamp normalized from " ++ dq ++ s ++ dq ++ " to " ++
                   dq ++ parsedTimestamp ++ dq]
         | _ =>
             match ToString timestamp with
             | Some text =>
                 ["Timestamp normalized from " ++ dq ++ text ++ dq ++
                  " to " ++ dq ++ parsedTimestamp ++ dq]
             | None => []
             end
         end)
    end.

(** [String(v)] throws. *)
Definition unconvertible (v : value) : bool :=
  match ToString v with
  | Some _ => false
  | None => true
  end.

(** The exception that leaves the [try] block of [normalize] for a
    [rawEvent] other than [null], if any: its message and the warnings pushed
    before it.  In the order of the block, the statements that can throw on
    a JSON value are [String(clientId)], [String(metric)], the message built
    from an amount that is not a number and the message built from a
    timestamp that is not a date. *)
Definition thrown (h : host) (rawEvent : value) : option (string * list string) :=
  let clientId := extractField rawEvent "client_id" in
  if truthy clientId && unconvertible clientId then Some (TypeError_message, [])
  else
    let payload := payload_of rawEvent in
    let metric := extractField payload "metric" in
    if truthy metric && unconvertible metric then Some (TypeError_message, [])
    else
      let amount := extractField payload "amount" in
      let no_number :=
        match amount, parseNumber amount with
        | VNull, _ => false
        | _, None => true
        | _, Some _ => false
        end in
      if no_number && unconvertible amount then Some (TypeError_message, [])
      else
        let timestamp := extractField payload "timestamp" in
        let no_date :=
          truthy timestamp &&
          match parseTimestamp h timestamp with
          | None => true
          | Some _ => false
          end in
        if no_date && unconvertible timestamp
        then Some (TypeError_message, snd (check_amount payload))
        else None.

(** The body of the [try] block of [normalize] when no statement throws. *)
Definition normalize_fields (h : host) (rawEvent : value) : result :=
  let '(c, ec) := check_client rawEvent in
  let payload := payload_of rawEvent in
  let '(m, em) := check_metric payload in
  let '(a, ea, wa) := check_amount payload in
  let '(t, et, wt) := check_timestamp h payload in
  let errs := (ec ++ em ++ ea ++ et)%list in
  let warns := (wa ++ wt ++
                unknown "Unknown field at root level: " knownFields rawEvent ++
                unknown "Unknown field in payload: " payloadKnownFields payload)%list in
  match errs, c, m, a with
  | [], Some c', Some m', Some a' =>
      {| success := true;
         data := Some {| client_id := c'; metric := m'; amount := a'; timestamp := t |};
         errors := []; warnings := warns |}
  | _, _, _, _ =>
      {| success := false; data := None; errors := errs; warnings := warns |}
  end.

(** What the [catch] of [normalize] returns. *)
Definition exception (message : string) (warnings : list string) : result :=
  {| success := false; data := None;
     errors := ["Normalization exception: " ++ message];
     warnings := warnings |}.

(** [normalize].  On [null] the block throws at [rawEvent.payload], after
    the error for the client id (which the [catch] drops) and before any
    warning. *)
Definition normalize (h : host) (rawEvent : value) : result :=
  match rawEvent with
  | VNull => exception "Cannot read properties of null (reading 'payload')" []
  | _ =>
      match thrown h rawEvent with
      | Some (message, warnings) => exception message warnings
      | None => normalize_fields h rawEvent
      end
  end.

End Normalizer.


(** * src/database.js

    The SQLite database behind sql.js holds the four tables created by
    [initializeTables]; [DatabaseManager] wraps it with [transaction],
    [prepare] and [save]. *)
Module Database.
Import JS.

Record raw_event : Type := {
  re_id : Z;
  re_event_hash : string;
  re_raw_data : string;
  re_received_at : string;
  re_created_at : string
}.

Record normalized_event : Type := {
  ne_id : Z;
  ne_raw_event_id : Z;
  ne_client_id : string;
  ne_metric : string;
  ne_amount : number;
  ne_timestamp : string;
  ne_status : string;
  ne_processing_error : option string;
  ne_created_at : string
}.

Record failed_event : Type := {
  fe_id : Z;
  fe_raw_event_id : option Z;
  fe_event_hash : string;
  fe_raw_data : string;
  fe_error_message : string;
  fe_error_type : string;
  fe_failed_at : string
}.

Record log_entry : Type := {
  le_id : Z;
  le_event_hash : string;
  le_action : string;
  le_status : string;
  le_message : option string;
  le_timestamp : string
}.

(** The [sqlite_sequence] counters kept for the AUTOINCREMENT keys. *)
Record sequences : Type := {
  seq_raw_events : Z;
  seq_normalized_events : Z;
  seq_failed_events : Z;
  seq_processing_log : Z
}.

(** The contents of the database: what a transaction commits or rolls back. *)
Record tables : Type := {
  raw_events : list raw_event;
  normalized_events : list normalized_event;
  failed_events : list failed_event;
  processing_log : list log_entry;
  sqlite_sequence : sequences
}.

(** A connection ([SQL.Database]): the contents, the snapshot taken by an open
    [BEGIN], and the value of [last_insert_rowid()]. *)
Record connection : Type := {
  content : tables;
  journal : option tables;
  last_insert_rowid : Z
}.

(** [DatabaseManager]: [file] is what [fs.writeFileSync(dbPath, ...)] wrote last. *)
Record DatabaseManager : Type := {
  db : connection;
  inTransaction : bool;
  file : tables
}.

(** ** Computations that read and write the manager and may throw *)

Inductive Error : Type := mkError (message : string).

Definition message (e : Error) : string := let (m) := e in m.

Inductive outcome (A : Type) : Type :=
| Return (a : A)
| Throw (e : Error).
Arguments Return {A} a.
Arguments Throw {A} e.

Definition M (A : Type) : Type := DatabaseManager -> outcome A * DatabaseManager.

Definition ret {A : Type} (a : A) : M A := fun st => (Return a, st).

Definition throw {A : Type} (e : Error) : M A := fun st => (Throw e, st).

Definition bind {A B : Type} (c : M A) (k : A -> M B) : M B :=
  fun st =>
    match c st with
    | (Return a, st') => k a st'
    | (Throw e, st') => (Throw e, st')
    end.

(** [try { c } catch (e) { handler e }] *)
Definition try_catch {A : Type} (c : M A) (handler : Error -> M A) : M A :=
  fun st =>
    match c st with
    | (Return a, st') => (Return a, st')
    | (Throw e, st') => handler e st'
    end.

Declare Scope js_scope.
Delimit Scope js_scope with js.
Notation "x <- c ;; k" := (bind c (fun x => k))
  (at level 61, c at next level, right associativity) : js_scope.
Notation "c ;; k" := (bind c (fun _ => k))
  (at level 61, right associativity) : js_scope.
Local Open Scope js_scope.

(** ** SQLite *)

(** The statements the service prepares. *)
Inductive statement : Type :=
| INSERT_raw_events (event_hash raw_data : string)
| INSERT_normalized_events (raw_event_id : Z) (client_id metric : string)
                           (amount : number) (timestamp : string)
| INSERT_failed_events (raw_event_id : Z) (event_hash raw_data : string)
                       (error_message error_type : string)
| INSERT_processing_log (event_hash action status : string) (message : option string).

(** AUTOINCREMENT: one more than the largest key the table ever held, [1] in
    a table that never held a row. *)
Definition next_rowid (seq : Z) (ids : list Z) : Z :=
  fold_left Z.max ids (Z.max seq 0) + 1.

Definition set_seq_raw (q : sequences) (n : Z) : sequences :=
  {| seq_raw_events := n; seq_normalized_events := seq_normalized_events q;
     seq_failed_events := seq_failed_events q; seq_processing_log := seq_processing_log q |}.
Definition set_seq_normalized (q : sequences) (n : Z) : sequences :=
  {| seq_raw_events := seq_raw_events q; seq_normalized_events := n;
     seq_failed_events := seq_failed_events q; seq_processing_log := seq_processing_log q |}.
Definition set_seq_failed (q : sequences) (n : Z) : sequences :=
  {| seq_raw_events := seq_raw_events q; seq_normalized_events := seq_normalized_events q;
     seq_failed_events := n; seq_processing_log := seq_processing_log q |}.
Definition set_seq_log (q : sequences) (n : Z) : sequences :=
  {| seq_raw_events := seq_raw_events q; seq_normalized_events := seq_normalized_events q;
     seq_failed_events := seq_failed_events q; seq_processing_log := n |}.

(** The effect of one INSERT on the contents: the new contents and the new
    key, or the constraint it violates.  [event_hash] is UNIQUE in
    [raw_events]; the NOT NULL columns always receive a value; foreign keys
    are not enforced (SQLite's default). *)
Definition insert (h : host) (stmt : statement) (t : tables) : outcome (tables * Z) :=
  match stmt with
  | INSERT_raw_events event_hash raw_data =>
      if existsb (fun r => (re_event_hash r =? event_hash)%string) (raw_events t)
      then Throw (mkError "UNIQUE constraint failed: raw_events.event_hash")
      else
        let id := next_rowid (seq_raw_events (sqlite_sequence t)) (map re_id (raw_events t)) in
        Return
          ({| raw_events :=
                (raw_events t ++
                 [{| re_id := id; re_event_hash := event_hash; re_raw_data := raw_data;
                     re_received_at := CURRENT_TIMESTAMP h;
                     re_created_at := CURRENT_TIMESTAMP h |}])%list;
              normalized_events := normalized_events t;
              failed_events := failed_events t;
              processing_log := processing_log t;
              sqlite_sequence := set_seq_raw (sqlite_sequence t) id |}, id)
  | INSERT_normalized_events raw_event_id client_id metric amount timestamp =>
      let id := next_rowid (seq_normalized_events (sqlite_sequence t))
                           (map ne_id (normalized_events t)) in
      Return
        ({| raw_events := raw_events t;
            normalized_events :=
              (normalized_events t ++
               [{| ne_id := id; ne_raw_event_id := raw_event_id;
                   ne_client_id := client_id; ne_metric := metric;
                   ne_amount := amount; ne_timestamp := timestamp;
                   ne_status := "processed"; ne_processing_error := None;
                   ne_created_at := CURRENT_TIMESTAMP h |}])%list;
            failed_events := failed_events t;
            processing_log := processing_log t;
            sqlite_sequence := set_seq_normalized (sqlite_sequence t) id |}, id)
  | INSERT_failed_events raw_event_id event_hash raw_data error_message error_type =>
      let id := next_rowid (seq_failed_events (sqlite_sequence t))
                           (map fe_id (failed_events t)) in
      Return
        ({| raw_events := raw_events t;
            normalized_events := normalized_events t;
            failed_events :=
              (failed_events t ++
               [{| fe_id := id; fe_raw_event_id := Some raw_event_id;
                   fe_event_hash := event_hash; fe_raw_data := raw_data;
                   fe_error_message := error_message; fe_error_type := error_type;
                   fe_failed_at := CURRENT_TIMESTAMP h |}])%list;
            processing_log := processing_log t;
            sqlite_sequence := set_seq_failed (sqlite_sequence t) id |}, id)
  | INSERT_processing_log event_hash action status message =>
      let id := next_rowid (seq_processing_log (sqlite_sequence t))
                           (map le_id (processing_log t)) in
      Return
        ({| raw_events := raw_events t;
            normalized_events := normalized_events t;
            failed_events := failed_events t;
            processing_log :=
              (processing_log t ++
               [{| le_id := id; le_event_hash := event_hash; le_action := action;
                   le_status := status; le_message := message;
                   le_timestamp := CURRENT_TIMESTAMP h |}])%list;
            sqlite_sequence := set_seq_log (sqlite_sequence t) id |}, id)
  end.

(** [this.db.run(sql, params)]: a failed statement changes nothing. *)
Definition db_run (h : host) (stmt : statement) (c : connection)
  : outcome unit * connection :=
  match insert h stmt (content c) with
  | Return (t, id) =>
      (Return tt, {| content := t; journal := journal c; last_insert_rowid := id |})
  | Throw e => (Throw e, c)
  end.

(** [this.db.exec('BEGIN TRANSACTION')] *)
Definition BEGIN (c : connection) : outcome unit * connection :=
  match journal c with
  | None =>
      (Return tt, {| content := content c; journal := Some (content c);
                     last_insert_rowid := last_insert_rowid c |})
  | Some _ => (Throw (mkError "cannot start a transaction within a transaction"), c)
  end.

(** [this.db.exec('COMMIT')] *)
Definition COMMIT (c : connection) : outcome unit * connection :=
  match journal c with
  | Some _ =>
      (Return tt, {| content := content c; journal := None;
                     last_insert_rowid := last_insert_rowid c |})
  | None => (Throw (mkError "cannot commit - no transaction is active"), c)
  end.

(** [this.db.exec('ROLLBACK')] *)
Definition ROLLBACK (c : connection) : outcome unit * connection :=
  match journal c with
  | Some snapshot =>
      (Return tt, {| content := snapshot; journal := None;
                     last_insert_rowid := last_insert_rowid c |})
  | None => (Throw (mkError "cannot rollback - no transaction is active"), c)
  end.

(** [this.db.export()]: the bytes of the database and the connection it
    leaves.  Closing a connection rolls an open transaction back. *)
Definition export (h : host) (c : connection) : tables * connection :=
  if export_reopens h then
    let t := match journal c with Some snapshot => snapshot | None => content c end in
    (t, {| content := t; journal := None; last_insert_rowid := 0 |})
  else (content c, c).

(** ** DatabaseManager *)

(** Lifting of a connection operation to [this.db]. *)
Definition on_db {A : Type} (op : connection -> outcome A * connection) : M A :=
  fun st =>
    let (r, c) := op (db st) in
    (r, {| db := c; inTransaction := inTransaction st; file := file st |}).

Definition set_inTransaction (b : bool) : M unit :=
  fun st => (Return tt, {| db := db st; inTransaction := b; file := file st |}).

(** [save()] *)
Definition save (h : host) : M unit :=
  fun st =>
    if negb (inTransaction st) then
      let (data, c) := export h (db st) in
      (Return tt, {| db := c; inTransaction := inTransaction st; file := data |})
    else (Return tt, st).

(** [transaction(callback)], applied to the arguments bound in [callback]. *)
Definition transaction {A : Type} (h : host) (callback : M A) : M A :=
  set_inTransaction true ;;
  try_catch
    (on_db BEGIN ;;
     result <- callback ;;
     on_db COMMIT ;;
     save h ;;
     set_inTransaction false ;;
     ret result)
    (fun error =>
       on_db ROLLBACK ;;
       set_inTransaction false ;;
       throw error).

(** [prepare(sql).run(...params)]: the [lastInsertRowid] of the object returned. *)
Definition run (h : host) (stmt : statement) : M Z :=
  on_db (db_run h stmt) ;;
  save h ;;
  fun st => (Return (last_insert_rowid (db st)), st).

End Database.

(** * The idempotency handler *)
Module IdempotencyHandler.
Import JS Database.
Local Open Scope js_scope.

Definition is_receipt_metadata (key : string) : bool :=
  (key =? "received_at")%string || (key =? "created_at")%string || (key =? "id")%string.

(** The callback of [forEach] in [normalizeForHashing]: [values] maps each
    key of the object to its normalized value. *)
Definition copy_key (values sorted : list (string * value)) (key : string)
  : list (string * value) :=
  if is_receipt_metadata key then sorted
  else match assoc key values with
       | Some v => assign sorted key v
       | None => sorted
       end.

(** [Object.keys(obj).sort().forEach(...)], from the empty object. *)
Definition rebuild (keys : list string) (values : list (string * value))
  : list (string * value) :=
  fold_left (copy_key values) (sort keys) [].

(** [normalizeForHashing].  The values of an object are normalized first and
    looked up by key afterwards, which is [normalizeForHashing(obj[key])] for
    every key of [Object.keys(obj)]. *)
Fixpoint normalizeForHashing (obj : value) : value :=
  match obj with
  | VNull => VNull
  | VArr items => VArr (map normalizeForHashing items)
  | VObj props =>
      VObj (rebuild (map fst props)
              (map (fun kv : string * value =>
                      let (k, x) := kv in (k, normalizeForHashing x)) props))
  | VStr s => VStr (toLowerCase (trim s))
  | VBool b => VBool b
  | VNum n => VNum n
  end.

Definition generateEventHash (rawEvent : value) : string :=
  let normalized := normalizeForHashing rawEvent in
  let content := JSON_stringify normalized in
  Crypto.sha256_hex content.

(** The object [checkDuplicate] returns on a hit. *)
Record duplicate : Type := {
  rawEventId : Z;
  normalizedId : option Z;
  status : option string;
  firstSeenAt : string;
  data : option Normalizer.canonical
}.

(** The row of [raw_events LEFT JOIN normalized_events ... WHERE event_hash = ? LIMIT 1]. *)
Definition select_duplicate (eventHash : string) (t : tables)
  : option (raw_event * option normalized_event) :=
  match find (fun r => (re_event_hash r =? eventHash)%string) (raw_events t) with
  | Some re =>
      Some (re, find (fun ne => ne_raw_event_id ne =? re_id re) (normalized_events t))
  | None => None
  end.

Definition checkDuplicate (eventHash : string) : M (option duplicate) :=
  fun st =>
    (Return
       match select_duplicate eventHash (content (db st)) with
       | Some (re, joined) =>
           Some {| rawEventId := re_id re;
                   normalizedId := option_map ne_id joined;
                   status := option_map ne_status joined;
                   firstSeenAt := re_received_at re;
                   data :=
                     match joined with
                     | Some ne =>
                         if ne_id ne =? 0 then None
                         else Some {| Normalizer.client_id := ne_client_id ne;
                                      Normalizer.metric := ne_metric ne;
                                      Normalizer.amount := ne_amount ne;
                                      Normalizer.timestamp := ne_timestamp ne |}
                     | None => None
                     end |}
       | None => None
       end, st).

Definition logProcessing (h : host) (eventHash action status : string)
                         (message : option string) : M unit :=
  run h (INSERT_processing_log eventHash action status message) ;; ret tt.

(** [storeRawEvent]; [None] is the [null] returned on a UNIQUE violation. *)
Definition storeRawEvent (h : host) (eventHash : string) (rawData : value) : M (option Z) :=
  try_catch
    (id <- run h (INSERT_raw_events eventHash (JSON_stringify rawData)) ;; ret (Some id))
    (fun error =>
       if includes "UNIQUE constraint failed" (Database.message error) then ret None
       else throw error).

Definition storeNormalizedEvent (h : host) (rawEventId : Z)
                                (normalizedData : Normalizer.canonical) : M Z :=
  run h (INSERT_normalized_events rawEventId
           (Normalizer.client_id normalizedData) (Normalizer.metric normalizedData)
           (Normalizer.amount normalizedData) (Normalizer.timestamp normalizedData)).

Definition storeFailedEvent (h : host) (rawEventId : Z) (eventHash : string)
                            (rawData : value) (errorMessage errorType : string) : M unit :=
  run h (INSERT_failed_events rawEventId eventHash (JSON_stringify rawData)
           errorMessage errorType) ;; ret tt.

End IdempotencyHandler.

(** * src/services/eventService.js *)
Module EventService.
Import JS Database.
Local Open Scope js_scope.

(** The objects [ingestEvent] resolves to. *)
Inductive response : Type :=
| Duplicate (eventHash firstSeenAt : string) (data : option Normalizer.canonical)
| ValidationFailed (errors warnings : list string) (eventHash : string)
| Created (eventHash : string) (rawEventId normalizedEventId : Z)
          (data : Normalizer.canonical) (warnings : list string)
| DatabaseError (error eventHash : string)
| UnexpectedError (error eventHash : string).

Definition status (r : response) : Z :=
  match r with
  | Duplicate _ _ _ => 200
  | ValidationFailed _ _ _ => 400
  | Created _ _ _ _ _ => 201
  | DatabaseError _ _ => 500
  | UnexpectedError _ _ => 500
  end.

Definition success (r : response) : bool :=
  match r with
  | Duplicate _ _ _ | Created _ _ _ _ _ => true
  | _ => false
  end.

Definition isDuplicate (r : response) : bool :=
  match r with Duplicate _ _ _ => true | _ => false end.

Definition retryable (r : response) : bool :=
  match r with DatabaseError _ _ => true | _ => false end.

Definition message (r : response) : string :=
  match r with
  | Duplicate _ _ _ => "Event already processed (duplicate detected)"
  | ValidationFailed _ _ _ => "Event validation failed"
  | Created _ _ _ _ _ => "Event processed successfully"
  | DatabaseError _ _ => "Database error occurred"
  | UnexpectedError _ _ => "Unexpected error occurred"
  end.

(** [if (rawEventId)]: neither [null] nor [0]. *)
Definition is_id (rawEventId : option Z) : option Z :=
  match rawEventId with
  | Some id => if id =? 0 then None else Some id
  | None => None
  end.

(** The callback handed to [this.db.transaction]. *)
Definition processTransaction (h : host) (simulateFailure : bool)
    (hash : string) (raw : value) (normalized : Normalizer.canonical) : M (Z * Z) :=
  transaction h
    (rawEventId <- IdempotencyHandler.storeRawEvent h hash raw ;;
     match is_id rawEventId with
     | None => throw (mkError "Failed to store raw event (possible race condition)")
     | Some rawEventId =>
         if simulateFailure then throw (mkError "Simulated database failure")
         else
           normalizedEventId <-
             IdempotencyHandler.storeNormalizedEvent h rawEventId normalized ;;
           ret (rawEventId, normalizedEventId)
     end).

(** [storeRawEvent] followed by [if (rawEventId) storeFailedEvent(...)]. *)
Definition recordFailure (h : host) (eventHash : string) (rawEvent : value)
                         (errorMessage errorType : string) : M unit :=
  rawEventId <- IdempotencyHandler.storeRawEvent h eventHash rawEvent ;;
  match is_id rawEventId with
  | Some id =>
      IdempotencyHandler.storeFailedEvent h id eventHash rawEvent errorMessage errorType
  | None => ret tt
  end.

Definition ingestEvent (h : host) (rawEvent : value) (simulateFailure : bool)
  : M response :=
  let eventHash := IdempotencyHandler.generateEventHash rawEvent in
  IdempotencyHandler.logProcessing h eventHash "ingest" "started" None ;;
  try_catch
    (duplicate <- IdempotencyHandler.checkDuplicate eventHash ;;
     match duplicate with
     | Some duplicate =>
         IdempotencyHandler.logProcessing h eventHash "ingest" "duplicate"
           (Some "Event already processed") ;;
         ret (Duplicate eventHash (IdempotencyHandler.firstSeenAt duplicate)
                        (IdempotencyHandler.data duplicate))
     | None =>
         let normalizationResult := Normalizer.normalize h rawEvent in
         match Normalizer.success normalizationResult, Normalizer.data normalizationResult with
         | true, Some data =>
             try_catch
               (result <- processTransaction h simulateFailure eventHash rawEvent data ;;
                IdempotencyHandler.logProcessing h eventHash "ingest" "success"
                  (Some "Event processed successfully") ;;
                ret (Created eventHash (fst result) (snd result) data
                             (Normalizer.warnings normalizationResult)))
               (fun txnError =>
                  IdempotencyHandler.logProcessing h eventHash "persist" "failed"
                    (Some (Database.message txnError)) ;;
                  try_catch
                    (recordFailure h eventHash rawEvent (Database.message txnError)
                                   "persistence_error")
                    (fun storeError => ret tt) ;;
                  ret (DatabaseError (Database.message txnError) eventHash))
         | _, _ =>
             recordFailure h eventHash rawEvent
               (join "; " (Normalizer.errors normalizationResult)) "validation_error" ;;
             IdempotencyHandler.logProcessing h eventHash "normalize" "failed"
               (Some (join "; " (Normalizer.errors normalizationResult))) ;;
             ret (ValidationFailed (Normalizer.errors normalizationResult)
                                   (Normalizer.warnings normalizationResult) eventHash)
         end
     end)
    (fun error =>
       IdempotencyHandler.logProcessing h eventHash "ingest" "error"
         (Some (Database.message error)) ;;
       ret (UnexpectedError (Database.message error) eventHash)).

(** The manager right after [init()] on a new database file. *)
Definition empty_tables : tables :=
  {| raw_events := []; normalized_events := []; failed_events := [];
     processing_log := [];
     sqlite_sequence := {| seq_raw_events := 0; seq_normalized_events := 0;
                           seq_failed_events := 0; seq_processing_log := 0 |} |}.

Definition init : DatabaseManager :=
  {| db := {| content := empty_tables; journal := None; last_insert_rowid := 0 |};
     inTransaction := false;
     file := empty_tables |}.

End EventService.


(** * Vocabulary of the properties *)
Module Store.
Import JS Database.

Definition raws (st : DatabaseManager) : list raw_event := raw_events (content (db st)).
Definition norms (st : DatabaseManager) : list normalized_event :=
  normalized_events (content (db st)).
Definition fails (st : DatabaseManager) : list failed_event :=
  failed_events (content (db st)).

(** Between two requests no transaction is open. *)
Definition idle (st : DatabaseManager) : Prop :=
  inTransaction st = false /\ journal (db st) = None.

(** The three event tables and their key counters are the same in both states. *)
Definition same_events (st st' : DatabaseManager) : Prop :=
  raws st' = raws st /\ norms st' = norms st /\ fails st' = fails st
  /\ seq_raw_events (sqlite_sequence (content (db st'))) =
     seq_raw_events (sqlite_sequence (content (db st)))
  /\ seq_normalized_events (sqlite_sequence (content (db st'))) =
     seq_normalized_events (sqlite_sequence (content (db st)))
  /\ seq_failed_events (sqlite_sequence (content (db st'))) =
     seq_failed_events (sqlite_sequence (content (db st))).

(** The RawEvent stored for a fingerprint, if any. *)
Definition raw_for (eventHash : string) (st : DatabaseManager) : option raw_event :=
  find (fun r => (re_event_hash r =? eventHash)%string) (raws st).

(** The NormalizedEvent attached to a RawEvent, if any. *)
Definition normalized_for (re : raw_event) (st : DatabaseManager)
  : option normalized_event :=
  find (fun ne => ne_raw_event_id ne =? re_id re) (norms st).

(** The row a successful [INSERT INTO raw_events] adds. *)
Definition new_raw (h : host) (eventHash : string) (rawData : value)
                   (st : DatabaseManager) : raw_event :=
  {| re_id := next_rowid (seq_raw_events (sqlite_sequence (content (db st))))
                         (map re_id (raws st));
     re_event_hash := eventHash;
     re_raw_data := JSON_stringify rawData;
     re_received_at := CURRENT_TIMESTAMP h;
     re_created_at := CURRENT_TIMESTAMP h |}.

(** The row [INSERT INTO failed_events] adds. *)
Definition new_failed (h : host) (rawEventId : Z) (eventHash : string) (rawData : value)
                      (errorMessage errorType : string) (st : DatabaseManager)
  : failed_event :=
  {| fe_id := next_rowid (seq_failed_events (sqlite_sequence (content (db st))))
                         (map fe_id (fails st));
     fe_raw_event_id := Some rawEventId;
     fe_event_hash := eventHash;
     fe_raw_data := JSON_stringify rawData;
     fe_error_message := errorMessage;
     fe_error_type := errorType;
     fe_failed_at := CURRENT_TIMESTAMP h |}.

(** The row [INSERT INTO normalized_events] adds. *)
Definition new_normalized (h : host) (rawEventId : Z) (d : Normalizer.canonical)
                          (st : DatabaseManager) : normalized_event :=
  {| ne_id := next_rowid (seq_normalized_events (sqlite_sequence (content (db st))))
                         (map ne_id (norms st));
     ne_raw_event_id := rawEventId;
     ne_client_id := Normalizer.client_id d;
     ne_metric := Normalizer.metric d;
     ne_amount := Normalizer.amount d;
     ne_timestamp := Normalizer.timestamp d;
     ne_status := "processed";
     ne_processing_error := None;
     ne_created_at := CURRENT_TIMESTAMP h |}.

(** The stored amount is a number: anything but [NaN]. *)
Definition amount_is_number (ne : normalized_event) : Prop := isNaN (ne_amount ne) = false.

Definition canonical_of (ne : normalized_event) : Normalizer.canonical :=
  {| Normalizer.client_id := ne_client_id ne;
     Normalizer.metric := ne_metric ne;
     Normalizer.amount := ne_amount ne;
     Normalizer.timestamp := ne_timestamp ne |}.

End Store.

(** * Payloads with the same business content, payloads that differ by an alias *)
Module Content.
Import JS.

(** One elementary difference between two payloads: two neighbouring keys of
    an object in the other order, one white-space character more at an end of
    a string, one letter of a string in the other case, one more key named
    [received_at], [created_at] or [id] in an object; at any depth. *)
Inductive edit : value -> value -> Prop :=
| edit_key_order pre k1 v1 k2 v2 post :
    k1 <> k2 ->
    edit (VObj (pre ++ (k1, v1) :: (k2, v2) :: post))
         (VObj (pre ++ (k2, v2) :: (k1, v1) :: post))
| edit_leading_space c s :
    is_whitespace c = true -> edit (VStr s) (VStr (String c s))
| edit_trailing_space c s :
    is_whitespace c = true -> edit (VStr s) (VStr (s ++ String c EmptyString))
| edit_letter_case s1 c c' s2 :
    lower_char c = lower_char c' ->
    edit (VStr (s1 ++ String c s2)) (VStr (s1 ++ String c' s2))
| edit_metadata pre k v post :
    IdempotencyHandler.is_receipt_metadata k = true ->
    edit (VObj (pre ++ post)) (VObj (pre ++ (k, v) :: post))
| edit_in_array pre x y post :
    edit x y -> edit (VArr (pre ++ x :: post)) (VArr (pre ++ y :: post))
| edit_in_object pre k x y post :
    edit x y -> edit (VObj (pre ++ (k, x) :: post)) (VObj (pre ++ (k, y) :: post)).

(** Two payloads differ only in such ways. *)
Definition same_content : value -> value -> Prop := clos_refl_sym_trans value edit.

(** Two different names accepted for the same canonical field. *)
Definition aliases (a b : string) : Prop :=
  a <> b /\
  exists canonicalName names,
    Normalizer.fieldMappings canonicalName = Some names /\ In a names /\ In b names.

(** The two payloads are the same but for one field, named by the alias [a]
    in the first and by the alias [b] in the second.  The field is not below
    a key that the hash leaves out. *)
Inductive alias_swap : value -> value -> Prop :=
| swap_here pre a b v post :
    aliases a b ->
    ~ In a (map fst (pre ++ post)) ->
    ~ In b (map fst (pre ++ post)) ->
    alias_swap (VObj (pre ++ (a, v) :: post)) (VObj (pre ++ (b, v) :: post))
| swap_in_array pre x y post :
    alias_swap x y ->
    alias_swap (VArr (pre ++ x :: post)) (VArr (pre ++ y :: post))
| swap_in_object pre k x y post :
    alias_swap x y ->
    IdempotencyHandler.is_receipt_metadata k = false ->
    k <> "__proto__" ->
    ~ In k (map fst pre) ->
    alias_swap (VObj (pre ++ (k, x) :: post)) (VObj (pre ++ (k, y) :: post)).

End Content.

(** * Sample hosts, events and states *)
Module Examples.
Import JS Database.

(** A host whose [Date] reads nothing but the standard format and whose
    [export()] keeps the connection. *)
Definition strict_host : host :=
  {| date_heuristics := fun _ => None;
     Date_now := 1704067200123;
     CURRENT_TIMESTAMP := "2024-01-01 00:00:00";
     export_reopens := false |}.

(** The same host with an [export()] that closes and reopens the connection. *)
Definition reopening_host : host :=
  {| date_heuristics := fun _ => None;
     Date_now := 1704067200123;
     CURRENT_TIMESTAMP := "2024-01-01 00:00:00";
     export_reopens := true |}.

(** A host five and a half hours east of Greenwich whose [Date] reads
    [YYYY/MM/DD] as local midnight. *)
Definition local_time_host : host :=
  {| date_heuristics :=
       fun s => if (s =? "2024/01/01")%string then Some (1704067200000 - 19800000)
                else None;
     Date_now := 1704067200123;
     CURRENT_TIMESTAMP := "2024-01-01 00:00:00";
     export_reopens := false |}.

(** The event of test.js. *)
Definition testEvent : value :=
  VObj [("source", VStr "client_A");
        ("payload", VObj [("metric", VStr "revenue");
                          ("amount", VStr "1200");
                          ("timestamp", VStr "2024/01/01")])].

Definition event (amount timestamp : value) : value :=
  VObj [("source", VStr "client_A");
        ("payload", VObj [("metric", VStr "revenue");
                          ("amount", amount);
                          ("timestamp", timestamp)])].

Definition noAmountEvent : value :=
  VObj [("source", VStr "client_A");
        ("payload", VObj [("metric", VStr "revenue");
                          ("timestamp", VStr "2024-01-01T00:00:00.000Z")])].

Definition refundEvent : value :=
  event (VNum (Dec (-5) 0)) (VStr "2024-01-01T00:00:00.000Z").

(** The event of test.js with other names for two of its fields. *)
Definition aliasedEvent : value :=
  VObj [("client_id", VStr "client_A");
        ("payload", VObj [("metric", VStr "revenue");
                          ("value", VStr "1200");
                          ("timestamp", VStr "2024/01/01")])].

(** The event of test.js as another client would write it: keys in another
    order, other letter case, spaces around a string, and an [id]. *)
Definition rewrittenEvent : value :=
  VObj [("payload", VObj [("id", VNum (Dec 42 0));
                          ("amount", VStr "1200");
                          ("metric", VStr " Revenue");
                          ("timestamp", VStr "2024/01/01")]);
        ("source", VStr "client_a ")].

(** [CAFÉ] and [café] followed by a no-break space: U+00C9, U+00E9, U+00A0. *)
Definition upperCafe : string := "CAF" ++ String (ascii_of_nat 201) EmptyString.
Definition lowerCafe : string :=
  "caf" ++ String (ascii_of_nat 233) (String (ascii_of_nat 160) EmptyString).

(** The state a request leaves behind. *)
Definition after (h : host) (rawEvent : value) (simulateFailure : bool)
                 (st : DatabaseManager) : DatabaseManager :=
  snd (EventService.ingestEvent h rawEvent simulateFailure st).

End Examples.

(** * The alias table as [addFieldMapping] extends it (src/normalizer.js) *)
Module Registry.
Import JS.

(** [this.fieldMappings]: the own properties of the object, by canonical name. *)
Definition mappings : Type := list (string * list string).

(** The table the constructor builds. *)
Definition initial : mappings :=
  [("client_id", ["source"; "client"; "client_id"; "clientId"; "sender"]);
   ("metric", ["metric"; "type"; "event_type"; "eventType"; "name"]);
   ("amount", ["amount"; "value"; "quantity"; "total"; "sum"]);
   ("timestamp", ["timestamp"; "time"; "date"; "created_at"; "createdAt"; "event_time"])].

(** The names every object literal inherits from [Object.prototype]. *)
Definition inherited : list string :=
  ["constructor"; "__defineGetter__"; "__defineSetter__"; "hasOwnProperty";
   "__lookupGetter__"; "__lookupSetter__"; "isPrototypeOf"; "propertyIsEnumerable";
   "toString"; "valueOf"; "__proto__"; "toLocaleString"].

(** What [this.fieldMappings[canonicalName]] evaluates to. *)
Inductive slot : Type :=
| Own (names : list string)
| Inherited
| Absent.

Definition read (t : mappings) (canonicalName : string) : slot :=
  match assoc canonicalName t with
  | Some names => Own names
  | None => if existsb (String.eqb canonicalName) inherited then Inherited else Absent
  end.

Fixpoint push (t : mappings) (canonicalName fieldName : string) : mappings :=
  match t with
  | [] => []
  | (c, names) :: r =>
      if (c =? canonicalName)%string then (c, names ++ [fieldName])%list :: r
      else (c, names) :: push r canonicalName fieldName
  end.

(** [addFieldMapping]; [None] when it throws: an inherited property is
    truthy and has no [includes] method. *)
Definition addFieldMapping (t : mappings) (canonicalName fieldName : string)
  : option mappings :=
  match read t canonicalName with
  | Inherited => None
  | Absent => Some (t ++ [(canonicalName, [fieldName])])%list
  | Own names =>
      if existsb (String.eqb fieldName) names then Some t
      else Some (push t canonicalName fieldName)
  end.

(** [extractField] over a given table; [None] when it throws: an inherited
    property is truthy and not iterable. *)
Definition extractFieldWith (t : mappings) (obj : value) (canonicalName : string)
  : option value :=
  match read t canonicalName with
  | Own names => Some (Normalizer.first_present obj names)
  | Absent => Some (Normalizer.first_present obj [canonicalName])
  | Inherited => None
  end.

End Registry.

(** * The audit log, the saved file and the consistency of the tables *)
Module Audit.
Import JS Database Store.

Definition logs (st : DatabaseManager) : list log_entry :=
  processing_log (content (db st)).

(** The file holds the contents of the database. *)
Definition saved (st : DatabaseManager) : Prop := file st = content (db st).

(** The row [INSERT INTO processing_log] adds. *)
Definition new_log (h : host) (eventHash action status : string)
                   (message : option string) (st : DatabaseManager) : log_entry :=
  {| le_id := next_rowid (seq_processing_log (sqlite_sequence (content (db st))))
                         (map le_id (logs st));
     le_event_hash := eventHash;
     le_action := action;
     le_status := status;
     le_message := message;
     le_timestamp := CURRENT_TIMESTAMP h |}.

(** What the data model asks of the three event tables: one RawEvent per
    fingerprint and per key, at most one NormalizedEvent per RawEvent, and
    every NormalizedEvent and FailedEvent attached to a RawEvent that exists. *)
Definition consistent (st : DatabaseManager) : Prop :=
  idle st
  /\ NoDup (map re_event_hash (raws st))
  /\ NoDup (map re_id (raws st))
  /\ NoDup (map ne_raw_event_id (norms st))
  /\ Forall (fun ne => In (ne_raw_event_id ne) (map re_id (raws st)) /\ ne_id ne <> 0)
            (norms st)
  /\ Forall (fun fe => exists id, fe_raw_event_id fe = Some id
                                  /\ In id (map re_id (raws st)))
            (fails st).

(** The states the service gets to from [st], request after request, each
    request served on a host in [hosts]. *)
Inductive later (hosts : host -> Prop) (st : DatabaseManager) : DatabaseManager -> Prop :=
| later_now : later hosts st st
| later_step h rawEvent simulateFailure st' :
    hosts h ->
    later hosts st st' ->
    later hosts st (snd (EventService.ingestEvent h rawEvent simulateFailure st')).

Definition any_host (h : host) : Prop := True.

(** The states the service reaches from a new database. *)
Definition reachable (st : DatabaseManager) : Prop := later any_host EventService.init st.

(** The NormalizedEvents joined to the RawEvent of a fingerprint, as in
    [normalized_events ne JOIN raw_events re ON ne.raw_event_id = re.id]. *)
Definition normalized_with (eventHash : string) (st : DatabaseManager)
  : list normalized_event :=
  filter (fun ne =>
            existsb (fun re => (re_event_hash re =? eventHash)%string
                               && (re_id re =? ne_raw_event_id ne))
                    (raws st))
         (norms st).

End Audit.

(** * [getStats] (src/services/eventService.js) *)
Module Stats.
Import JS Database Store.

(** [SELECT key, COUNT( * ) ... GROUP BY key]: SQLite forms the groups by
    sorting on the key, so there is one row per key, in key order. *)
Fixpoint distinct (sorted : list string) : list string :=
  match sorted with
  | [] => []
  | k :: r =>
      match r with
      | k' :: _ => if (k =? k')%string then distinct r else k :: distinct r
      | [] => [k]
      end
  end.

Definition count (k : string) (keys : list string) : Z :=
  Z.of_nat (List.length (filter (String.eqb k) keys)).

Definition group_count (keys : list string) : list (string * Z) :=
  map (fun k => (k, count k keys)) (distinct (sort keys)).

Record stats : Type := {
  totalProcessed : Z;
  totalFailed : Z;
  totalRaw : Z;
  duplicateCount : Z;
  byClient : list (string * Z);
  byMetric : list (string * Z)
}.

Definition getStats (st : DatabaseManager) : stats :=
  let totalProcessed := Z.of_nat (List.length (norms st)) in
  let totalFailed := Z.of_nat (List.length (fails st)) in
  let totalRaw := Z.of_nat (List.length (raws st)) in
  {| totalProcessed := totalProcessed;
     totalFailed := totalFailed;
     totalRaw := totalRaw;
     duplicateCount := totalRaw - totalProcessed - totalFailed;
     byClient := group_count (map ne_client_id (norms st));
     byMetric := group_count (map ne_metric (norms st)) |}.

End Stats.


(** * The calendar behind [Date] *)
Module Calendar.
Import JS.

(** [f] holds at each of the [n] integers from [start] on. *)
Fixpoint holds_from (n : nat) (start : Z) (f : Z -> bool) : bool :=
  match n with
  | O => true
  | S k => f start && holds_from k (start + 1) f
  end.

(** [pad w n] is [w] digits that read [n]. *)
Definition pad_ok (w : nat) (n : Z) : bool :=
  let ds := list_ascii_of_string (pad w n) in
  Nat.eqb (String.length (pad w n)) w && forallb is_digit ds && (digits_value ds =? n).

(** 0000-01-01T00:00:00.000Z and 9999-12-31T23:59:59.999Z. *)
Definition first_instant : Z := -62167219200000.
Definition last_instant : Z := 253402300799999.

End Calendar.

(** * The keys and the order behind [normalizeForHashing] *)
Module Hashing.
Import JS.

(** The keys the [forEach] of [normalizeForHashing] copies into [sorted]:
    those that are not receipt metadata, do not reach the [__proto__]
    accessor, and are among the keys of the object. *)
Definition copied (values : list (string * value)) (key : string) : bool :=
  negb (IdempotencyHandler.is_receipt_metadata key)
  && negb (key =? "__proto__")%string
  && match assoc key values with Some _ => true | None => false end.

(** The order of [sort()]. *)
Definition ordered (a b : string) : Prop := String.leb a b = true.

(** The number of times a character stands in a text. *)
Fixpoint occurrences (c : ascii) (s : string) : Z :=
  match s with
  | EmptyString => 0
  | String x r => (if Ascii.eqb x c then 1 else 0) + occurrences c r
  end.

(** The same over the texts of a list. *)
Definition total (c : ascii) (texts : list string) : Z :=
  fold_right (fun s n => occurrences c s + n) 0 texts.

(** The text of one member of an object in [JSON.stringify]. *)
Definition member (kv : string * value) : string :=
  let (k, x) := kv in quote k ++ ":" ++ JSON_stringify x.

(** The member [normalizeForHashing] copies for a key. *)
Definition entry (values : list (string * value)) (k : string) : string * value :=
  (k, match assoc k values with Some v => v | None => VNull end).

(** The keys [normalizeForHashing] copies, once each. *)
Definition copied_keys (keys : list string) (values : list (string * value)) : list string :=
  Stats.distinct (filter (copied values) (sort keys)).

(** Some character stands in the two names a different number of times. *)
Definition told_apart (a b : string) : bool :=
  existsb (fun c => negb (occurrences c (quote a) =? occurrences c (quote b)))
          (list_ascii_of_string (a ++ b)).

End Hashing.

(** * Properties *)

Import JS Database Store.
Local Open Scope js_scope.

(** ** Steps of the manager *)

Lemma same_events_refl st : same_events st st.
Proof. repeat split. Qed.

Lemma same_events_trans st1 st2 st3 :
  same_events st1 st2 -> same_events st2 st3 -> same_events st1 st3.
Proof.
  unfold same_events. intros (A & B & C & D & E & F) (A' & B' & C' & D' & E' & F').
  repeat split; congruence.
Qed.

Lemma logProcessing_idle h e a s m st :
  idle st ->
  exists st', IdempotencyHandler.logProcessing h e a s m st = (Return tt, st')
              /\ idle st' /\ same_events st st'.
Proof.
  destruct st as [[c j l] i f]. unfold idle. simpl. intros [-> ->].
  unfold IdempotencyHandler.logProcessing, run, bind, on_db, db_run, save, export, ret.
  simpl. destruct (export_reopens h); simpl;
    (eexists; split; [reflexivity | repeat split]).
Qed.

Lemma checkDuplicate_hit e st re :
  raw_for e st = Some re ->
  IdempotencyHandler.checkDuplicate e st =
    (Return (Some {| IdempotencyHandler.rawEventId := re_id re;
                     IdempotencyHandler.normalizedId :=
                       option_map ne_id (normalized_for re st);
                     IdempotencyHandler.status :=
                       option_map ne_status (normalized_for re st);
                     IdempotencyHandler.firstSeenAt := re_received_at re;
                     IdempotencyHandler.data :=
                       match normalized_for re st with
                       | Some ne => if ne_id ne =? 0 then None else Some (canonical_of ne)
                       | None => None
                       end |}), st).
Proof.
  unfold raw_for, raws, IdempotencyHandler.checkDuplicate,
    IdempotencyHandler.select_duplicate. intros ->. reflexivity.
Qed.

Lemma checkDuplicate_miss e st :
  raw_for e st = None ->
  IdempotencyHandler.checkDuplicate e st = (Return None, st).
Proof.
  unfold raw_for, raws, IdempotencyHandler.checkDuplicate,
    IdempotencyHandler.select_duplicate. intros ->. reflexivity.
Qed.

Lemma raw_for_same st st' e : same_events st st' -> raw_for e st' = raw_for e st.
Proof. unfold raw_for. intros (-> & _). reflexivity. Qed.

Lemma normalized_for_same st st' re :
  same_events st st' -> normalized_for re st' = normalized_for re st.
Proof. unfold normalized_for. intros (_ & -> & _). reflexivity. Qed.

(** The duplicate branch of [ingestEvent], for any state holding the fingerprint. *)
Lemma ingestEvent_hit h rawEvent simulateFailure st re :
  idle st ->
  raw_for (IdempotencyHandler.generateEventHash rawEvent) st = Some re ->
  exists st',
    EventService.ingestEvent h rawEvent simulateFailure st =
      (Return (EventService.Duplicate
                 (IdempotencyHandler.generateEventHash rawEvent)
                 (re_received_at re)
                 match normalized_for re st with
                 | Some ne => if ne_id ne =? 0 then None else Some (canonical_of ne)
                 | None => None
                 end), st')
    /\ idle st' /\ same_events st st'.
Proof.
  intros Hidle Hraw. unfold EventService.ingestEvent.
  set (eh := IdempotencyHandler.generateEventHash rawEvent) in *.
  destruct (logProcessing_idle h eh "ingest" "started" None st Hidle)
    as (st1 & E1 & I1 & S1).
  destruct (logProcessing_idle h eh "ingest" "duplicate"
              (Some "Event already processed") st1 I1) as (st2 & E2 & I2 & S2).
  exists st2. split; [| split; [assumption | eapply same_events_trans; eassumption]].
  unfold bind at 1. rewrite E1. unfold try_catch, bind.
  rewrite (checkDuplicate_hit eh st1 re) by (rewrite (raw_for_same st st1); assumption).
  cbn [IdempotencyHandler.firstSeenAt IdempotencyHandler.data].
  rewrite E2. unfold ret. rewrite (normalized_for_same st st1) by assumption.
  reflexivity.
Qed.

(** C5: Duplicate detection is a pure read of the event tables.  In every
    state that already holds a RawEvent with the fingerprint of the request,
    [ingestEvent] answers with the duplicate result (status 200, success,
    [isDuplicate]) that carries the [received_at] of that row and the canonical
    fields of the NormalizedEvent joined to it (or [null] when there is none),
    and [raw_events], [normalized_events] and [failed_events] are left as they
    were. *)
Theorem ingestEvent_duplicate_is_idempotent :
  forall h rawEvent simulateFailure st re,
    idle st ->
    raw_for (IdempotencyHandler.generateEventHash rawEvent) st = Some re ->
    exists data st',
      let r := EventService.Duplicate
                 (IdempotencyHandler.generateEventHash rawEvent)
                 (re_received_at re) data in
      EventService.ingestEvent h rawEvent simulateFailure st = (Return r, st')
      /\ EventService.status r = 200
      /\ EventService.success r = true
      /\ EventService.isDuplicate r = true
      /\ (forall ne, normalized_for re st = Some ne -> ne_id ne <> 0 ->
                     data = Some (canonical_of ne))
      /\ (normalized_for re st = None -> data = None)
      /\ raws st' = raws st /\ norms st' = norms st /\ fails st' = fails st.
Proof.
  intros h rawEvent simulateFailure st re Hidle Hraw.
  destruct (ingestEvent_hit h rawEvent simulateFailure st re Hidle Hraw)
    as (st' & E & _ & S).
  eexists. exists st'. cbv zeta. split; [exact E |].
  split; [reflexivity |]. split; [reflexivity |]. split; [reflexivity |].
  split; [| split; [| repeat split; apply S]].
  - intros ne -> Hid. apply Z.eqb_neq in Hid. rewrite Hid. reflexivity.
  - intros ->. reflexivity.
Qed.

(** C10: A RawEvent without NormalizedEvent still counts as a duplicate: the
    request is answered with the duplicate result whose [data] is [null], and
    no NormalizedEvent is created for it.  The state it leaves satisfies the
    same conditions, so every further retry is answered in the same way. *)
Theorem ingestEvent_raw_only_is_duplicate :
  forall h rawEvent simulateFailure st re,
    idle st ->
    raw_for (IdempotencyHandler.generateEventHash rawEvent) st = Some re ->
    Forall (fun ne => ne_raw_event_id ne <> re_id re) (norms st) ->
    exists st',
      EventService.ingestEvent h rawEvent simulateFailure st =
        (Return (EventService.Duplicate
                   (IdempotencyHandler.generateEventHash rawEvent)
                   (re_received_at re) None), st')
      /\ norms st' = norms st
      /\ raws st' = raws st
      /\ idle st'.
Proof.
  intros h rawEvent simulateFailure st re Hidle Hraw Hnone.
  destruct (ingestEvent_hit h rawEvent simulateFailure st re Hidle Hraw)
    as (st' & E & I & S).
  exists st'. split; [| split; [apply S | split; [apply S | exact I]]].
  rewrite E. replace (normalized_for re st) with (@None normalized_event); [reflexivity |].
  symmetry. unfold normalized_for.
  induction Hnone as [| ne l Hne _ IH]; [reflexivity |].
  simpl. apply Z.eqb_neq in Hne. rewrite Hne. exact IH.
Qed.

Lemma includes_unique :
  includes "UNIQUE constraint failed" "UNIQUE constraint failed: raw_events.event_hash" = true.
Proof. reflexivity. Qed.

Lemma fold_max_ge (ids : list Z) (a : Z) : a <= fold_left Z.max ids a.
Proof.
  revert a. induction ids as [| x ids IH]; intros a; simpl; [lia |].
  specialize (IH (Z.max a x)). lia.
Qed.

Lemma next_rowid_positive seq ids : 1 <= next_rowid seq ids.
Proof.
  unfold next_rowid. pose proof (fold_max_ge ids (Z.max seq 0)). lia.
Qed.

Lemma next_rowid_nonzero seq ids : (next_rowid seq ids =? 0) = false.
Proof. apply Z.eqb_neq. pose proof (next_rowid_positive seq ids). lia. Qed.

Lemma raw_for_none_existsb e st :
  raw_for e st = None ->
  existsb (fun r => (re_event_hash r =? e)%string) (raws st) = false.
Proof.
  unfold raw_for. induction (raws st) as [| r l IH]; simpl; [reflexivity |].
  destruct (re_event_hash r =? e)%string; [discriminate | exact IH].
Qed.

Lemma find_app_new {A : Type} (p : A -> bool) (l : list A) (x : A) :
  find p l = None -> p x = true -> find p (l ++ [x]) = Some x.
Proof.
  induction l as [| y l IH]; simpl; intros Hn Hx.
  - rewrite Hx. reflexivity.
  - destruct (p y); [discriminate | auto].
Qed.

(** The standalone raw insert followed by the FailedEvent insert, in a state
    that does not hold the fingerprint. *)
Lemma recordFailure_fresh h e raw msg ty st :
  idle st ->
  raw_for e st = None ->
  exists st',
    EventService.recordFailure h e raw msg ty st = (Return tt, st')
    /\ idle st'
    /\ raws st' = (raws st ++ [new_raw h e raw st])%list
    /\ norms st' = norms st
    /\ fails st' =
       if export_reopens h then fails st
       else (fails st ++ [new_failed h (re_id (new_raw h e raw st)) e raw msg ty st])%list.
Proof.
  intros Hidle Hmiss. apply raw_for_none_existsb in Hmiss.
  destruct st as [[c j l] i f]. unfold idle, raws, norms, fails, new_raw, new_failed in *.
  simpl in *. destruct Hidle as [-> ->].
  unfold EventService.recordFailure, IdempotencyHandler.storeRawEvent,
    IdempotencyHandler.storeFailedEvent, run, try_catch, bind, on_db, save, export,
    db_run, throw, ret.
  cbn -[includes JSON_stringify next_rowid]. rewrite Hmiss.
  destruct (export_reopens h); cbn -[includes JSON_stringify next_rowid].
  - eexists. split; [reflexivity |]. cbn. repeat split.
  - rewrite next_rowid_nonzero. cbn -[includes JSON_stringify next_rowid].
    eexists. split; [reflexivity |]. cbn -[JSON_stringify next_rowid]. repeat split.
Qed.

(** The persist unit with the injected fault: it throws and restores the contents. *)
Lemma processTransaction_simulated h e raw d st :
  idle st ->
  raw_for e st = None ->
  exists st',
    EventService.processTransaction h true e raw d st =
      (Throw (mkError "Simulated database failure"), st')
    /\ idle st' /\ content (db st') = content (db st).
Proof.
  intros Hidle Hmiss. apply raw_for_none_existsb in Hmiss.
  destruct st as [[c j l] i f]. unfold idle, raws in *. simpl in *.
  destruct Hidle as [-> ->].
  unfold EventService.processTransaction, transaction, IdempotencyHandler.storeRawEvent,
    run, try_catch, bind, on_db, set_inTransaction, save, db_run, BEGIN, ROLLBACK,
    throw, ret.
  cbn -[includes JSON_stringify next_rowid]. rewrite Hmiss.
  cbn -[includes JSON_stringify next_rowid]. rewrite next_rowid_nonzero.
  cbn. eexists. split; [reflexivity |]. repeat split.
Qed.

(** The persist unit without fault, in a state that does not hold the fingerprint. *)
Lemma processTransaction_commits h e raw d st :
  idle st ->
  raw_for e st = None ->
  exists st',
    EventService.processTransaction h false e raw d st =
      (Return (re_id (new_raw h e raw st),
               ne_id (new_normalized h (re_id (new_raw h e raw st)) d st)), st')
    /\ idle st'
    /\ raws st' = (raws st ++ [new_raw h e raw st])%list
    /\ norms st' =
       (norms st ++ [new_normalized h (re_id (new_raw h e raw st)) d st])%list
    /\ fails st' = fails st.
Proof.
  intros Hidle Hmiss. apply raw_for_none_existsb in Hmiss.
  destruct st as [[c j l] i f].
  unfold idle, raws, norms, fails, new_raw, new_normalized in *. simpl in *.
  destruct Hidle as [-> ->].
  unfold EventService.processTransaction, transaction, IdempotencyHandler.storeRawEvent,
    IdempotencyHandler.storeNormalizedEvent,
    run, try_catch, bind, on_db, set_inTransaction, save, db_run, BEGIN, COMMIT,
    throw, ret.
  cbn -[includes JSON_stringify next_rowid]. rewrite Hmiss.
  cbn -[includes JSON_stringify next_rowid]. rewrite next_rowid_nonzero.
  cbn -[JSON_stringify next_rowid]. eexists. split; [reflexivity |]. repeat split.
Qed.

(** ** The outcome of normalization *)

Lemma normalize_nonnull h rawEvent :
  rawEvent <> VNull ->
  Normalizer.thrown h rawEvent = None ->
  Normalizer.normalize h rawEvent = Normalizer.normalize_fields h rawEvent.
Proof.
  intros Hnn Hquiet. unfold Normalizer.normalize. rewrite Hquiet.
  destruct rawEvent; [contradiction | reflexivity ..].
Qed.

Lemma normalize_thrown h rawEvent message warnings :
  rawEvent <> VNull ->
  Normalizer.thrown h rawEvent = Some (message, warnings) ->
  Normalizer.normalize h rawEvent = Normalizer.exception message warnings.
Proof.
  intros Hnn Hthrown. unfold Normalizer.normalize. rewrite Hthrown.
  destruct rawEvent; [contradiction | reflexivity ..].
Qed.

(** The message about an amount that is no number is built from the amount. *)
Lemma thrown_amount h rawEvent v :
  Normalizer.extractField (Normalizer.payload_of rawEvent) "amount" = v ->
  v <> VNull ->
  Normalizer.parseNumber v = None ->
  ToString v = None ->
  Normalizer.thrown h rawEvent <> None.
Proof.
  intros Hfield Hv Hnone Htext. unfold Normalizer.thrown.
  destruct (truthy _ && Normalizer.unconvertible _); [discriminate |].
  destruct (truthy _ && Normalizer.unconvertible _); [discriminate |].
  rewrite Hfield. unfold Normalizer.unconvertible at 1. rewrite Htext.
  destruct v; [contradiction | ..]; rewrite Hnone; discriminate.
Qed.

(** No statement throws once the client, the metric and the amount are set
    and the timestamp needs no error message or has a conversion. *)
Lemma thrown_checked h rawEvent c ec m em a ea wa :
  Normalizer.check_client rawEvent = (Some c, ec) ->
  Normalizer.check_metric (Normalizer.payload_of rawEvent) = (Some m, em) ->
  Normalizer.check_amount (Normalizer.payload_of rawEvent) = (Some a, ea, wa) ->
  truthy (Normalizer.extractField (Normalizer.payload_of rawEvent) "timestamp")
  && match Normalizer.parseTimestamp h
             (Normalizer.extractField (Normalizer.payload_of rawEvent) "timestamp")
     with None => true | Some _ => false end
  && Normalizer.unconvertible
       (Normalizer.extractField (Normalizer.payload_of rawEvent) "timestamp") = false ->
  Normalizer.thrown h rawEvent = None.
Proof.
  unfold Normalizer.check_client, Normalizer.check_metric, Normalizer.check_amount,
    Normalizer.thrown, Normalizer.unconvertible.
  intros Hc Hm Ha Ht.
  destruct (truthy (Normalizer.extractField rawEvent "client_id"));
    [| discriminate].
  destruct (ToString (Normalizer.extractField rawEvent "client_id")) as [c0 |];
    [| discriminate].
  destruct (truthy (Normalizer.extractField (Normalizer.payload_of rawEvent) "metric"));
    [| discriminate].
  destruct (ToString (Normalizer.extractField (Normalizer.payload_of rawEvent) "metric"))
    as [m0 |]; [| discriminate].
  cbn [andb negb] in *.
  destruct (Normalizer.extractField (Normalizer.payload_of rawEvent) "amount")
    as [| b | n | text | items | props]; [discriminate | ..];
    match goal with
    | |- context [Normalizer.parseNumber ?v] =>
        destruct (Normalizer.parseNumber v);
        [| destruct (ToString v); discriminate]
    end;
    cbn [andb]; rewrite Ht; reflexivity.
Qed.

(** [normalize] ends in its [catch] or runs the block to its end. *)
Lemma normalize_ways h rawEvent :
  (exists message warnings,
     Normalizer.normalize h rawEvent = Normalizer.exception message warnings)
  \/ (rawEvent <> VNull /\ Normalizer.thrown h rawEvent = None
      /\ Normalizer.normalize h rawEvent = Normalizer.normalize_fields h rawEvent).
Proof.
  assert (Hnull : rawEvent = VNull \/ rawEvent <> VNull)
    by (destruct rawEvent; [left; reflexivity | right; discriminate ..]).
  destruct Hnull as [-> | Hnn].
  - left. eexists. eexists. reflexivity.
  - destruct (Normalizer.thrown h rawEvent) as [[message warnings] |] eqn:Hthrown.
    + left. exists message, warnings. apply normalize_thrown; assumption.
    + right. split; [exact Hnn |]. split; [reflexivity |].
      apply normalize_nonnull; assumption.
Qed.

(** [normalize] either succeeds with every field set and no error, or fails
    with the errors of the four checks. *)
Lemma normalize_fields_cases h rawEvent c ec m em a ea wa t et wt :
  Normalizer.check_client rawEvent = (c, ec) ->
  Normalizer.check_metric (Normalizer.payload_of rawEvent) = (m, em) ->
  Normalizer.check_amount (Normalizer.payload_of rawEvent) = (a, ea, wa) ->
  Normalizer.check_timestamp h (Normalizer.payload_of rawEvent) = (t, et, wt) ->
  let r := Normalizer.normalize_fields h rawEvent in
  Normalizer.warnings r =
    (wa ++ wt ++
     Normalizer.unknown "Unknown field at root level: " Normalizer.knownFields rawEvent ++
     Normalizer.unknown "Unknown field in payload: " Normalizer.payloadKnownFields
       (Normalizer.payload_of rawEvent))%list
  /\ ((exists c' m' a',
         c = Some c' /\ m = Some m' /\ a = Some a'
         /\ (ec ++ em ++ ea ++ et)%list = []
         /\ Normalizer.success r = true
         /\ Normalizer.errors r = []
         /\ Normalizer.data r =
              Some {| Normalizer.client_id := c'; Normalizer.metric := m';
                      Normalizer.amount := a'; Normalizer.timestamp := t |})
      \/ (Normalizer.success r = false
          /\ Normalizer.data r = None
          /\ Normalizer.errors r = (ec ++ em ++ ea ++ et)%list)).
Proof.
  intros Hc Hm Ha Ht. unfold Normalizer.normalize_fields.
  rewrite Hc, Hm, Ha, Ht.
  destruct (ec ++ em ++ ea ++ et)%list as [| e0 es] eqn:Herrs.
  - destruct c as [c' |]; [| split; [reflexivity | right; repeat split]].
    destruct m as [m' |]; [| split; [reflexivity | right; repeat split]].
    destruct a as [a' |]; [| split; [reflexivity | right; repeat split]].
    split; [reflexivity |]. left. exists c', m', a'. repeat split.
  - split; [destruct c, m, a; reflexivity |]. right.
    destruct c, m, a; repeat split.
Qed.

Ltac normalize_cases h rawEvent :=
  let c := fresh "c" in let ec := fresh "ec" in
  let m := fresh "m" in let em := fresh "em" in
  let a := fresh "a" in let ea := fresh "ea" in let wa := fresh "wa" in
  let t := fresh "t" in let et := fresh "et" in let wt := fresh "wt" in
  let Hc := fresh "Hc" in let Hm := fresh "Hm" in
  let Ha := fresh "Ha" in let Ht := fresh "Ht" in
  let Hw := fresh "Hw" in let Hcases := fresh "Hcases" in
  destruct (Normalizer.check_client rawEvent) as [c ec] eqn:Hc;
  destruct (Normalizer.check_metric (Normalizer.payload_of rawEvent)) as [m em] eqn:Hm;
  destruct (Normalizer.check_amount (Normalizer.payload_of rawEvent)) as [[a ea] wa] eqn:Ha;
  destruct (Normalizer.check_timestamp h (Normalizer.payload_of rawEvent))
    as [[t et] wt] eqn:Ht;
  destruct (normalize_fields_cases h rawEvent c ec m em a ea wa t et wt Hc Hm Ha Ht)
    as [Hw Hcases].

Lemma normalize_success h rawEvent :
  Normalizer.success (Normalizer.normalize h rawEvent) = true ->
  exists d, Normalizer.data (Normalizer.normalize h rawEvent) = Some d
            /\ Normalizer.errors (Normalizer.normalize h rawEvent) = [].
Proof.
  destruct (normalize_ways h rawEvent) as [(message & warnings & ->) | (_ & _ & ->)];
    [discriminate |].
  normalize_cases h rawEvent.
  destruct Hcases as [(c' & m' & a' & _ & _ & _ & _ & _ & He & Hd) | (Hf & _)];
    [intros _; eexists; split; eassumption | rewrite Hf; discriminate].
Qed.

(** ** The four ways through [ingestEvent] *)

Ltac first_step E := unfold bind at 1; rewrite E.

Lemma new_raw_same h e raw st st' :
  same_events st st' -> new_raw h e raw st' = new_raw h e raw st.
Proof. unfold new_raw. intros (-> & _ & _ & -> & _). reflexivity. Qed.

Lemma new_failed_same h id e raw msg ty st st' :
  same_events st st' -> new_failed h id e raw msg ty st' = new_failed h id e raw msg ty st.
Proof. unfold new_failed. intros (_ & _ & -> & _ & _ & ->). reflexivity. Qed.

Lemma new_normalized_same h id d st st' :
  same_events st st' -> new_normalized h id d st' = new_normalized h id d st.
Proof. unfold new_normalized. intros (_ & -> & _ & _ & -> & _). reflexivity. Qed.

(** Validation failure: the raw payload is stored on its own, then the FailedEvent. *)
Lemma ingestEvent_invalid h rawEvent simulateFailure st :
  let eh := IdempotencyHandler.generateEventHash rawEvent in
  let r := Normalizer.normalize h rawEvent in
  idle st ->
  raw_for eh st = None ->
  Normalizer.success r = false ->
  exists st',
    EventService.ingestEvent h rawEvent simulateFailure st =
      (Return (EventService.ValidationFailed
                 (Normalizer.errors r) (Normalizer.warnings r) eh), st')
    /\ idle st'
    /\ raws st' = (raws st ++ [new_raw h eh rawEvent st])%list
    /\ norms st' = norms st
    /\ fails st' =
       if export_reopens h then fails st
       else (fails st ++
             [new_failed h (re_id (new_raw h eh rawEvent st)) eh rawEvent
                (join "; " (Normalizer.errors r)) "validation_error" st])%list.
Proof.
  intros eh r Hidle Hmiss Hfail. unfold EventService.ingestEvent. fold eh. fold r.
  destruct (logProcessing_idle h eh "ingest" "started" None st Hidle)
    as (st1 & E1 & I1 & S1).
  assert (Hmiss1 : raw_for eh st1 = None) by (rewrite (raw_for_same st st1); assumption).
  destruct (recordFailure_fresh h eh rawEvent (join "; " (Normalizer.errors r))
              "validation_error" st1 I1 Hmiss1) as (st2 & E2 & I2 & R2 & N2 & F2).
  destruct (logProcessing_idle h eh "normalize" "failed"
              (Some (join "; " (Normalizer.errors r))) st2 I2) as (st3 & E3 & I3 & S3).
  exists st3. split.
  - first_step E1. unfold try_catch. first_step (checkDuplicate_miss eh st1 Hmiss1).
    rewrite Hfail. first_step E2. first_step E3. reflexivity.
  - split; [assumption |].
    destruct S1 as (R1 & N1 & F1 & Q1 & Q1' & Q1''), S3 as (R3 & N3 & F3 & _).
    rewrite R3, N3, F3, R2, N2, F2.
    rewrite (new_raw_same h eh rawEvent st st1) by (repeat split; assumption).
    rewrite (new_failed_same h _ eh rawEvent _ _ st st1) by (repeat split; assumption).
    rewrite R1, N1, F1. repeat split.
Qed.

(** Injected fault: the unit rolls back, then the catch block stores the raw
    payload on its own (and the FailedEvent). *)
Lemma ingestEvent_simulated h rawEvent st d :
  let eh := IdempotencyHandler.generateEventHash rawEvent in
  let r := Normalizer.normalize h rawEvent in
  idle st ->
  raw_for eh st = None ->
  Normalizer.success r = true ->
  Normalizer.data r = Some d ->
  exists st',
    EventService.ingestEvent h rawEvent true st =
      (Return (EventService.DatabaseError "Simulated database failure" eh), st')
    /\ idle st'
    /\ raws st' = (raws st ++ [new_raw h eh rawEvent st])%list
    /\ norms st' = norms st
    /\ fails st' =
       if export_reopens h then fails st
       else (fails st ++
             [new_failed h (re_id (new_raw h eh rawEvent st)) eh rawEvent
                "Simulated database failure" "persistence_error" st])%list.
Proof.
  intros eh r Hidle Hmiss Hok Hd. unfold EventService.ingestEvent. fold eh. fold r.
  destruct (logProcessing_idle h eh "ingest" "started" None st Hidle)
    as (st1 & E1 & I1 & S1).
  assert (Hmiss1 : raw_for eh st1 = None) by (rewrite (raw_for_same st st1); assumption).
  destruct (processTransaction_simulated h eh rawEvent d st1 I1 Hmiss1)
    as (st2 & E2 & I2 & C2).
  assert (S2 : same_events st1 st2)
    by (unfold same_events, raws, norms, fails; rewrite C2; repeat split).
  destruct (logProcessing_idle h eh "persist" "failed"
              (Some "Simulated database failure") st2 I2) as (st3 & E3 & I3 & S3).
  assert (S13 : same_events st st3)
    by (eapply same_events_trans; [| eassumption];
        eapply same_events_trans; eassumption).
  assert (Hmiss3 : raw_for eh st3 = None) by (rewrite (raw_for_same st st3); assumption).
  destruct (recordFailure_fresh h eh rawEvent "Simulated database failure"
              "persistence_error" st3 I3 Hmiss3) as (st4 & E4 & I4 & R4 & N4 & F4).
  exists st4. split.
  - first_step E1. unfold try_catch at 1. first_step (checkDuplicate_miss eh st1 Hmiss1).
    rewrite Hok, Hd. unfold try_catch at 1. first_step E2.
    cbn [Database.message]. first_step E3. unfold bind at 1, try_catch.
    rewrite E4. reflexivity.
  - split; [assumption |]. rewrite R4, N4, F4.
    rewrite (new_raw_same h eh rawEvent st st3) by assumption.
    rewrite (new_failed_same h _ eh rawEvent _ _ st st3) by assumption.
    destruct S13 as (-> & -> & -> & _). repeat split.
Qed.

(** Success: both rows are committed together. *)
Lemma ingestEvent_created h rawEvent st d :
  let eh := IdempotencyHandler.generateEventHash rawEvent in
  let r := Normalizer.normalize h rawEvent in
  idle st ->
  raw_for eh st = None ->
  Normalizer.success r = true ->
  Normalizer.data r = Some d ->
  exists st',
    EventService.ingestEvent h rawEvent false st =
      (Return (EventService.Created eh
                 (re_id (new_raw h eh rawEvent st))
                 (ne_id (new_normalized h (re_id (new_raw h eh rawEvent st)) d st))
                 d (Normalizer.warnings r)), st')
    /\ idle st'
    /\ raws st' = (raws st ++ [new_raw h eh rawEvent st])%list
    /\ norms st' =
       (norms st ++ [new_normalized h (re_id (new_raw h eh rawEvent st)) d st])%list
    /\ fails st' = fails st.
Proof.
  intros eh r Hidle Hmiss Hok Hd. unfold EventService.ingestEvent. fold eh. fold r.
  destruct (logProcessing_idle h eh "ingest" "started" None st Hidle)
    as (st1 & E1 & I1 & S1).
  assert (Hmiss1 : raw_for eh st1 = None) by (rewrite (raw_for_same st st1); assumption).
  destruct (processTransaction_commits h eh rawEvent d st1 I1 Hmiss1)
    as (st2 & E2 & I2 & R2 & N2 & F2).
  destruct (logProcessing_idle h eh "ingest" "success"
              (Some "Event processed successfully") st2 I2) as (st3 & E3 & I3 & S3).
  exists st3. split.
  - first_step E1. unfold try_catch at 1. first_step (checkDuplicate_miss eh st1 Hmiss1).
    rewrite Hok, Hd. unfold try_catch at 1. first_step E2. first_step E3.
    cbn [fst snd].
    rewrite (new_raw_same h eh rawEvent st st1) by assumption.
    rewrite (new_normalized_same h _ d st st1) by assumption.
    reflexivity.
  - split; [assumption |].
    destruct S3 as (-> & -> & -> & _). rewrite R2, N2, F2.
    rewrite (new_raw_same h eh rawEvent st st1) by assumption.
    rewrite (new_normalized_same h _ d st st1) by assumption.
    destruct S1 as (-> & -> & -> & _). repeat split.
Qed.

(** ** Retries after a failed persist *)

Lemma raw_for_new h e raw st :
  raw_for e st = None ->
  forall st', raws st' = (raws st ++ [new_raw h e raw st])%list ->
  raw_for e st' = Some (new_raw h e raw st).
Proof.
  intros Hmiss st' R. unfold raw_for in *. rewrite R.
  apply find_app_new; [assumption |]. simpl. apply String.eqb_refl.
Qed.

(** C1: What the code does after a failed persist.  When the persist unit
    fails on the injected fault, [ingestEvent] answers with the retryable
    server error, but its catch block has then stored the raw payload on its
    own: the fingerprint is claimed.  The identical request without the flag
    is answered as a duplicate, and no NormalizedEvent is stored by either
    call. *)
Theorem simulated_failure_claims_fingerprint :
  forall h rawEvent st,
    idle st ->
    raw_for (IdempotencyHandler.generateEventHash rawEvent) st = None ->
    Normalizer.success (Normalizer.normalize h rawEvent) = true ->
    exists st1 re data st2,
      let failure := EventService.DatabaseError "Simulated database failure"
                       (IdempotencyHandler.generateEventHash rawEvent) in
      EventService.ingestEvent h rawEvent true st = (Return failure, st1)
      /\ EventService.status failure = 500
      /\ EventService.retryable failure = true
      /\ raw_for (IdempotencyHandler.generateEventHash rawEvent) st1 = Some re
      /\ EventService.ingestEvent h rawEvent false st1 =
           (Return (EventService.Duplicate
                      (IdempotencyHandler.generateEventHash rawEvent)
                      (re_received_at re) data), st2)
      /\ norms st1 = norms st /\ norms st2 = norms st.
Proof.
  intros h rawEvent st Hidle Hmiss Hok.
  destruct (normalize_success h rawEvent Hok) as (d & Hd & _).
  destruct (ingestEvent_simulated h rawEvent st d Hidle Hmiss Hok Hd)
    as (st1 & E1 & I1 & R1 & N1 & _).
  pose proof (raw_for_new h _ rawEvent st Hmiss st1 R1) as Hhit.
  destruct (ingestEvent_hit h rawEvent false st1 _ I1 Hhit) as (st2 & E2 & _ & S2).
  exists st1, (new_raw h (IdempotencyHandler.generateEventHash rawEvent) rawEvent st).
  eexists. exists st2. cbv zeta. repeat split; try eassumption.
  destruct S2 as (_ & -> & _). assumption.
Qed.

(** The scenario of the README: the event of test.js with "Simulate Failure"
    checked, on a new database. *)
Lemma simulated_failure_claims_fingerprint_witness :
  exists st1 re data st2,
    let failure := EventService.DatabaseError "Simulated database failure"
                     (IdempotencyHandler.generateEventHash Examples.testEvent) in
    EventService.ingestEvent Examples.strict_host Examples.testEvent true EventService.init
      = (Return failure, st1)
    /\ EventService.status failure = 500
    /\ EventService.retryable failure = true
    /\ raw_for (IdempotencyHandler.generateEventHash Examples.testEvent) st1 = Some re
    /\ EventService.ingestEvent Examples.strict_host Examples.testEvent false st1 =
         (Return (EventService.Duplicate
                    (IdempotencyHandler.generateEventHash Examples.testEvent)
                    (re_received_at re) data), st2)
    /\ norms st1 = norms EventService.init /\ norms st2 = norms EventService.init.
Proof.
  apply (simulated_failure_claims_fingerprint
           Examples.strict_host Examples.testEvent EventService.init).
  - split; reflexivity.
  - reflexivity.
  - vm_compute. reflexivity.
Defined.

(** ** Atomicity of the persist unit *)

(** C2: Whenever the persist unit (raw insert, then normalized insert, inside
    [transaction]) ends with an exception, be it the injected fault, the raw
    insert refused by the UNIQUE constraint or any other, the contents of the
    database are those from before the call: no write made inside the failed
    unit remains in [raw_events] or [normalized_events] (or anywhere else),
    and the transaction is closed. *)
Theorem processTransaction_rolls_back :
  forall h simulateFailure hash raw normalized st e st',
    journal (db st) = None ->
    EventService.processTransaction h simulateFailure hash raw normalized st
      = (Throw e, st') ->
    raws st' = raws st /\ norms st' = norms st
    /\ content (db st') = content (db st)
    /\ journal (db st') = None /\ inTransaction st' = false.
Proof.
  intros h sim hash raw normalized [[c j l] i f] e st'. unfold raws, norms.
  simpl. intros ->.
  unfold EventService.processTransaction, transaction, IdempotencyHandler.storeRawEvent,
    IdempotencyHandler.storeNormalizedEvent, run, try_catch, bind, on_db, set_inTransaction,
    save, db_run, BEGIN, COMMIT, ROLLBACK, throw, ret.
  cbn -[includes JSON_stringify next_rowid].
  destruct (existsb _ (raw_events c)).
  - cbn -[includes]. rewrite includes_unique. cbn.
    intros E. inversion E. subst. cbn. auto.
  - cbn -[includes JSON_stringify next_rowid].
    destruct (_ =? 0).
    + cbn. intros E. inversion E. subst. cbn. auto.
    + destruct sim.
      * cbn. intros E. inversion E. subst. cbn. auto.
      * cbn -[next_rowid]. intros E. discriminate E.
Qed.

(** The injected fault on a new database: the unit throws and nothing is stored. *)
Lemma processTransaction_rolls_back_witness :
  exists st',
    EventService.processTransaction Examples.strict_host true "fingerprint"
      Examples.testEvent
      {| Normalizer.client_id := "client_A"; Normalizer.metric := "revenue";
         Normalizer.amount := Dec 12 2;
         Normalizer.timestamp := "2024-01-01T00:00:00.000Z" |}
      EventService.init = (Throw (mkError "Simulated database failure"), st')
    /\ raws st' = [] /\ norms st' = []
    /\ content (db st') = EventService.empty_tables
    /\ journal (db st') = None /\ inTransaction st' = false.
Proof.
  eexists. split; [vm_compute; reflexivity |].
  apply (processTransaction_rolls_back Examples.strict_host true "fingerprint"
           Examples.testEvent
           {| Normalizer.client_id := "client_A"; Normalizer.metric := "revenue";
              Normalizer.amount := Dec 12 2;
              Normalizer.timestamp := "2024-01-01T00:00:00.000Z" |}
           EventService.init (mkError "Simulated database failure")).
  - reflexivity.
  - vm_compute. reflexivity.
Defined.

(** ** Witnesses for the duplicate path *)

(** The event of test.js submitted twice. *)
Lemma ingestEvent_duplicate_is_idempotent_witness :
  let st := Examples.after Examples.strict_host Examples.testEvent false EventService.init in
  exists data st',
    let r := EventService.Duplicate
               (IdempotencyHandler.generateEventHash Examples.testEvent)
               "2024-01-01 00:00:00" data in
    EventService.ingestEvent Examples.strict_host Examples.testEvent false st
      = (Return r, st')
    /\ EventService.status r = 200
    /\ EventService.success r = true
    /\ EventService.isDuplicate r = true
    /\ (forall ne, normalized_for (new_raw Examples.strict_host
                     (IdempotencyHandler.generateEventHash Examples.testEvent)
                     Examples.testEvent EventService.init) st = Some ne ->
                   ne_id ne <> 0 -> data = Some (canonical_of ne))
    /\ (normalized_for (new_raw Examples.strict_host
                     (IdempotencyHandler.generateEventHash Examples.testEvent)
                     Examples.testEvent EventService.init) st = None -> data = None)
    /\ raws st' = raws st /\ norms st' = norms st /\ fails st' = fails st.
Proof.
  intros st.
  apply (ingestEvent_duplicate_is_idempotent Examples.strict_host Examples.testEvent false st
           (new_raw Examples.strict_host
              (IdempotencyHandler.generateEventHash Examples.testEvent)
              Examples.testEvent EventService.init)).
  - vm_compute. split; reflexivity.
  - vm_compute. reflexivity.
Defined.

(** A payload without amount, rejected once, is a duplicate the second time. *)
Lemma ingestEvent_raw_only_is_duplicate_witness :
  let st := Examples.after Examples.strict_host Examples.noAmountEvent false
              EventService.init in
  exists st',
    EventService.ingestEvent Examples.strict_host Examples.noAmountEvent false st =
      (Return (EventService.Duplicate
                 (IdempotencyHandler.generateEventHash Examples.noAmountEvent)
                 "2024-01-01 00:00:00" None), st')
    /\ norms st' = norms st
    /\ raws st' = raws st
    /\ idle st'.
Proof.
  intros st.
  apply (ingestEvent_raw_only_is_duplicate Examples.strict_host Examples.noAmountEvent
           false st
           (new_raw Examples.strict_host
              (IdempotencyHandler.generateEventHash Examples.noAmountEvent)
              Examples.noAmountEvent EventService.init)).
  - vm_compute. split; reflexivity.
  - vm_compute. reflexivity.
  - vm_compute. constructor.
Defined.

(** ** Validation failures *)

Lemma check_amount_missing payload :
  Normalizer.extractField payload "amount" = VNull ->
  Normalizer.check_amount payload =
    (None, ["Missing required field: amount (or equivalent)"], []).
Proof. unfold Normalizer.check_amount. intros ->. reflexivity. Qed.

Lemma normalize_missing_amount h rawEvent :
  rawEvent <> VNull ->
  Normalizer.extractField (Normalizer.payload_of rawEvent) "amount" = VNull ->
  Normalizer.success (Normalizer.normalize h rawEvent) = false
  /\ (Normalizer.thrown h rawEvent = None ->
      In "Missing required field: amount (or equivalent)"
         (Normalizer.errors (Normalizer.normalize h rawEvent))).
Proof.
  intros Hnn Hmissing.
  assert (Hfields : Normalizer.success (Normalizer.normalize_fields h rawEvent) = false
                    /\ In "Missing required field: amount (or equivalent)"
                          (Normalizer.errors (Normalizer.normalize_fields h rawEvent))).
  { normalize_cases h rawEvent.
    rewrite (check_amount_missing _ Hmissing) in Ha. injection Ha as <- <- <-.
    destruct Hcases as [(c' & m' & a' & _ & _ & Hnone & _) | (Hf & _ & He)];
      [discriminate |].
    split; [exact Hf |]. rewrite He.
    apply in_or_app; right; apply in_or_app; right; left; reflexivity. }
  split.
  - destruct (normalize_ways h rawEvent) as [(message & warnings & ->) | (_ & _ & ->)];
      [reflexivity | apply Hfields].
  - intros Hquiet. rewrite (normalize_nonnull h rawEvent Hnn Hquiet). apply Hfields.
Qed.

(** C6: A payload without amount that is not a duplicate is rejected with the
    validation result (status 400), carrying the errors and the warnings of
    the normalizer; when the normalizer runs to its end the error list names
    the missing amount; no NormalizedEvent is created and the raw payload is
    stored by a standalone insert.  The FailedEvent is stored only where
    [export()] keeps the connection.  [run] reads [last_insert_rowid()] after
    [save()]: where [export()] reopens the connection, as that of sql.js
    does, the id handed to [if (rawEventId)] is [0], [storeFailedEvent] is
    skipped and no FailedEvent is stored. *)
Theorem missing_amount_leaves_no_FailedEvent :
  forall h rawEvent simulateFailure st,
    let eh := IdempotencyHandler.generateEventHash rawEvent in
    let r := Normalizer.normalize h rawEvent in
    idle st ->
    rawEvent <> VNull ->
    raw_for eh st = None ->
    Normalizer.extractField (Normalizer.payload_of rawEvent) "amount" = VNull ->
    exists st' re,
      EventService.ingestEvent h rawEvent simulateFailure st =
        (Return (EventService.ValidationFailed
                   (Normalizer.errors r) (Normalizer.warnings r) eh), st')
      /\ EventService.status
           (EventService.ValidationFailed
              (Normalizer.errors r) (Normalizer.warnings r) eh) = 400
      /\ (Normalizer.thrown h rawEvent = None ->
          In "Missing required field: amount (or equivalent)" (Normalizer.errors r))
      /\ norms st' = norms st
      /\ raws st' = (raws st ++ [re])%list
      /\ (re_event_hash re, re_raw_data re) = (eh, JSON_stringify rawEvent)
      /\ if export_reopens h then fails st' = fails st
         else exists fe,
                fails st' = (fails st ++ [fe])%list
                /\ (fe_raw_event_id fe, fe_event_hash fe, fe_error_type fe)
                   = (Some (re_id re), eh, "validation_error").
Proof.
  intros h rawEvent sim st eh r Hidle Hnn Hmiss Hmissing.
  destruct (normalize_missing_amount h rawEvent Hnn Hmissing) as (Hfail & Hin).
  destruct (ingestEvent_invalid h rawEvent sim st Hidle Hmiss Hfail)
    as (st' & E & _ & R & N & F).
  exists st'. eexists. split; [exact E |].
  split; [reflexivity |]. split; [exact Hin |]. split; [exact N |].
  split; [exact R |]. split; [reflexivity |].
  destruct (export_reopens h); [exact F |].
  eexists. split; [exact F |]. reflexivity.
Qed.

(** The payload without amount on a new database, [export()] reopening the
    connection: the answer names the amount and no FailedEvent is stored. *)
Lemma missing_amount_leaves_no_FailedEvent_witness :
  exists st' re,
    EventService.ingestEvent Examples.reopening_host Examples.noAmountEvent false
      EventService.init =
      (Return (EventService.ValidationFailed
                 ["Missing required field: amount (or equivalent)"] []
                 (IdempotencyHandler.generateEventHash Examples.noAmountEvent)), st')
    /\ norms st' = []
    /\ raws st' = [re]
    /\ fails st' = [].
Proof.
  destruct (missing_amount_leaves_no_FailedEvent Examples.reopening_host
              Examples.noAmountEvent false EventService.init)
    as (st' & re & E & _ & _ & N & R & _ & F).
  - split; reflexivity.
  - discriminate.
  - reflexivity.
  - reflexivity.
  - exists st', re. split; [exact E |]. split; [exact N |]. split; [exact R | exact F].
Defined.

(** ** The stored amount *)


Lemma parseNumber_is_number v n : Normalizer.parseNumber v = Some n -> isNaN n = false.
Proof.
  destruct v as [| b | m | s | items | props]; simpl; try discriminate.
  - destruct (isNaN m) eqn:E; [discriminate |]. intros [= <-]. exact E.
  - destruct (isNaN (parseFloat _)) eqn:E; [discriminate |]. intros [= <-]. exact E.
Qed.

Lemma check_amount_value payload a ea wa :
  Normalizer.check_amount payload = (Some a, ea, wa) ->
  Normalizer.parseNumber (Normalizer.extractField payload "amount") = Some a.
Proof.
  unfold Normalizer.check_amount.
  destruct (Normalizer.extractField payload "amount") as [| b | m | s | items | props];
    try discriminate;
    match goal with
    | |- context [Normalizer.parseNumber ?v] =>
        destruct (Normalizer.parseNumber v);
        [intros [= <- _ _]; reflexivity | destruct (ToString v); discriminate]
    end.
Qed.

Lemma normalize_amount h rawEvent d :
  Normalizer.data (Normalizer.normalize h rawEvent) = Some d ->
  Normalizer.parseNumber
    (Normalizer.extractField (Normalizer.payload_of rawEvent) "amount")
  = Some (Normalizer.amount d).
Proof.
  destruct (normalize_ways h rawEvent) as [(message & warnings & ->) | (_ & _ & ->)];
    [discriminate |].
  normalize_cases h rawEvent.
  destruct Hcases as [(c' & m' & a' & _ & _ & -> & _ & _ & _ & Hd) | (_ & Hd & _)];
    rewrite Hd; [| discriminate].
  intros [= <-]. exact (check_amount_value _ _ _ _ Ha).
Qed.

(** C9 (counterexample): a negative amount is accepted, committed and
    stored: the request for a refund of 5 is answered 201 and leaves a
    NormalizedEvent whose amount is below zero. *)
Lemma negative_amount_is_stored :
  match EventService.ingestEvent Examples.strict_host Examples.refundEvent false
          EventService.init with
  | (Return r, st') =>
      EventService.status r = 201
      /\ Exists (fun ne => ne_amount ne = Dec (-5) 0 /\ nonneg (ne_amount ne) = false)
                (norms st')
  | (Throw _, _) => False
  end.
Proof. vm_compute. split; [reflexivity | constructor; split; reflexivity]. Qed.

(** C9 (amended): Every NormalizedEvent row created by the pipeline holds, as
    its amount, the number [parseNumber] made of the payload's amount field:
    a number other than NaN, of either sign.  [ingestEvent] always returns,
    and it preserves the invariant that all stored amounts are such numbers. *)
Theorem stored_amounts_are_numbers :
  forall h rawEvent simulateFailure st,
    idle st ->
    Forall amount_is_number (norms st) ->
    exists r st',
      EventService.ingestEvent h rawEvent simulateFailure st = (Return r, st')
      /\ idle st'
      /\ Forall amount_is_number (norms st')
      /\ (forall ne, In ne (norms st') ->
            In ne (norms st)
            \/ Normalizer.parseNumber
                 (Normalizer.extractField (Normalizer.payload_of rawEvent) "amount")
               = Some (ne_amount ne)).
Proof.
  intros h rawEvent sim st Hidle Hinv.
  destruct (raw_for (IdempotencyHandler.generateEventHash rawEvent) st) as [re |] eqn:Hraw.
  - destruct (ingestEvent_hit h rawEvent sim st re Hidle Hraw) as (st' & E & I & S).
    destruct S as (_ & N & _).
    eexists. exists st'. split; [exact E |]. split; [exact I |].
    rewrite N. split; [exact Hinv | auto].
  - destruct (Normalizer.success (Normalizer.normalize h rawEvent)) eqn:Hok.
    + destruct (normalize_success h rawEvent Hok) as (d & Hd & _).
      destruct sim.
      * destruct (ingestEvent_simulated h rawEvent st d Hidle Hraw Hok Hd)
          as (st' & E & I & _ & N & _).
        eexists. exists st'. split; [exact E |]. split; [exact I |].
        rewrite N. split; [exact Hinv | auto].
      * destruct (ingestEvent_created h rawEvent st d Hidle Hraw Hok Hd)
          as (st' & E & I & _ & N & _).
        pose proof (normalize_amount h rawEvent d Hd) as Ha.
        eexists. exists st'. split; [exact E |]. split; [exact I |].
        rewrite N. split.
        -- apply Forall_app. split; [exact Hinv |].
           constructor; [| constructor].
           unfold amount_is_number. simpl. eapply parseNumber_is_number. exact Ha.
        -- intros ne Hin. apply in_app_or in Hin. destruct Hin as [Hin | [<- | []]].
           ++ left. exact Hin.
           ++ right. exact Ha.
    + destruct (ingestEvent_invalid h rawEvent sim st Hidle Hraw Hok)
        as (st' & E & I & _ & N & _).
      eexists. exists st'. split; [exact E |]. split; [exact I |].
      rewrite N. split; [exact Hinv | auto].
Qed.

Lemma stored_amounts_are_numbers_witness :
  exists r st',
    EventService.ingestEvent Examples.strict_host Examples.refundEvent false
      EventService.init = (Return r, st')
    /\ idle st'
    /\ Forall amount_is_number (norms st')
    /\ (forall ne, In ne (norms st') ->
          In ne (norms EventService.init)
          \/ Normalizer.parseNumber
               (Normalizer.extractField (Normalizer.payload_of Examples.refundEvent)
                  "amount")
             = Some (ne_amount ne)).
Proof.
  apply (stored_amounts_are_numbers Examples.strict_host Examples.refundEvent false
           EventService.init).
  - split; reflexivity.
  - constructor.
Defined.

(** ** What [normalize] reports of the amount and timestamp checks *)


Lemma normalize_reports_timestamp h rawEvent t et wt :
  rawEvent <> VNull ->
  Normalizer.check_timestamp h (Normalizer.payload_of rawEvent) = (t, et, wt) ->
  let r := Normalizer.normalize h rawEvent in
  (forall d, Normalizer.data r = Some d ->
             Normalizer.timestamp d = t /\ incl wt (Normalizer.warnings r))
  /\ (et <> [] -> Normalizer.success r = false /\ Normalizer.data r = None)
  /\ (Normalizer.thrown h rawEvent = None ->
      incl wt (Normalizer.warnings r) /\ incl et (Normalizer.errors r)).
Proof.
  intros Hnn Htime.
  assert (Hfields :
            let r := Normalizer.normalize_fields h rawEvent in
            incl wt (Normalizer.warnings r)
            /\ (forall d, Normalizer.data r = Some d -> Normalizer.timestamp d = t)
            /\ (et <> [] -> Normalizer.success r = false /\ Normalizer.data r = None
                            /\ incl et (Normalizer.errors r))
            /\ (Normalizer.data r = None -> incl et (Normalizer.errors r))).
  { normalize_cases h rawEvent. injection Htime as ? ? ?; subst.
    cbv zeta. split; [| split; [| split]].
    - rewrite Hw. apply incl_appr, incl_appl, incl_refl.
    - destruct Hcases as [(c' & m' & a' & _ & _ & _ & _ & _ & _ & ->) | (_ & -> & _)];
        [intros d [= <-]; reflexivity | discriminate].
    - intros Hne.
      destruct Hcases as [(c' & m' & a' & _ & _ & _ & Hnil & _) | (Hf & Hd & ->)].
      + apply app_eq_nil in Hnil. destruct Hnil as [_ Hnil].
        apply app_eq_nil in Hnil. destruct Hnil as [_ Hnil].
        apply app_eq_nil in Hnil. destruct Hnil as [_ Hnil]. contradiction.
      + split; [exact Hf |]. split; [exact Hd |].
        apply incl_appr, incl_appr, incl_appr, incl_refl.
    - destruct Hcases as [(c' & m' & a' & _ & _ & _ & _ & _ & _ & ->) | (_ & _ & ->)];
        [discriminate |].
      intros _. apply incl_appr, incl_appr, incl_appr, incl_refl. }
  cbv zeta in *. destruct Hfields as (Hw & Hd & He & Hall).
  destruct (normalize_ways h rawEvent) as [(message & warnings & E) | (_ & Hquiet & E)].
  - rewrite E. split; [intros d; discriminate |].
    split; [intros _; split; reflexivity |].
    intros Hnone. rewrite (normalize_nonnull h rawEvent Hnn Hnone) in E.
    rewrite <- E. split; [exact Hw |]. apply Hall. rewrite E. reflexivity.
  - rewrite E. split; [intros d Hdata; split; [exact (Hd d Hdata) | exact Hw] |].
    split; [intros Hne; destruct (He Hne) as (Hf & Hdn & _); split; assumption |].
    intros _. split; [exact Hw |].
    destruct (Normalizer.data (Normalizer.normalize_fields h rawEvent)) as [d |] eqn:Hdata;
      [| apply Hall; reflexivity].
    destruct et as [| e et']; [apply incl_nil_l |].
    destruct (He ltac:(discriminate)) as (_ & Hdn & _). discriminate.
Qed.

(** ** Amounts *)








(** ** Timestamps *)

Lemma check_timestamp_parsed h payload s parsed :
  Normalizer.extractField payload "timestamp" = VStr s ->
  s <> "" ->
  Normalizer.parseTimestamp h (VStr s) = Some parsed ->
  parsed <> s ->
  Normalizer.check_timestamp h payload =
    (parsed, [],
     ["Timestamp normalized from " ++ dq ++ s ++ dq ++ " to " ++ dq ++ parsed ++ dq]).
Proof.
  unfold Normalizer.check_timestamp. intros -> Hne -> Hdiff.
  apply String.eqb_neq in Hne. apply String.eqb_neq in Hdiff.
  simpl truthy. rewrite Hne, Hdiff. reflexivity.
Qed.

Lemma check_timestamp_invalid h payload s :
  Normalizer.extractField payload "timestamp" = VStr s ->
  s <> "" ->
  Normalizer.parseTimestamp h (VStr s) = None ->
  Normalizer.check_timestamp h payload =
    (toISOString (Date_now h),
     ["Invalid timestamp format: " ++ s],
     ["Using current time due to invalid timestamp"]).
Proof.
  unfold Normalizer.check_timestamp. intros -> Hne ->.
  apply String.eqb_neq in Hne. simpl truthy. rewrite Hne. reflexivity.
Qed.

(** ** The order of strings and [sort] *)

Lemma leb_trans a b c :
  String.leb a b = true -> String.leb b c = true -> String.leb a c = true.
Proof.
  unfold String.leb. revert b c.
  induction a as [| x a IH]; intros [| y b] [| z c]; simpl;
    try reflexivity; try discriminate.
  unfold Ascii.compare.
  destruct (N.compare_spec (N_of_ascii x) (N_of_ascii y)) as [Exy | Lxy | Gxy];
    destruct (N.compare_spec (N_of_ascii y) (N_of_ascii z)) as [Eyz | Lyz | Gyz];
    try discriminate; intros H1 H2.
  - rewrite Exy, Eyz, N.compare_refl. exact (IH b c H1 H2).
  - rewrite Exy. apply N.compare_lt_iff in Lyz. rewrite Lyz. reflexivity.
  - rewrite <- Eyz. apply N.compare_lt_iff in Lxy. rewrite Lxy. reflexivity.
  - assert (L : (N_of_ascii x < N_of_ascii z)%N) by lia.
    apply N.compare_lt_iff in L. rewrite L. reflexivity.
Qed.

Lemma leb_false_flip a b : String.leb a b = false -> String.leb b a = true.
Proof. destruct (String.leb_total a b) as [H | H]; congruence. Qed.

Lemma insert_sorted_comm a b l :
  insert_sorted a (insert_sorted b l) = insert_sorted b (insert_sorted a l).
Proof.
  induction l as [| x l IH]; simpl.
  - destruct (String.leb a b) eqn:Eab, (String.leb b a) eqn:Eba; try reflexivity.
    + rewrite (String.leb_antisym a b Eab Eba). reflexivity.
    + apply leb_false_flip in Eab. congruence.
  - destruct (String.leb b x) eqn:Ebx, (String.leb a x) eqn:Eax; simpl;
      rewrite ?Ebx, ?Eax.
    + destruct (String.leb a b) eqn:Eab, (String.leb b a) eqn:Eba; try reflexivity.
      * rewrite (String.leb_antisym a b Eab Eba). reflexivity.
      * apply leb_false_flip in Eab. congruence.
    + destruct (String.leb a b) eqn:Eab; [| reflexivity].
      rewrite (leb_trans a b x Eab Ebx) in Eax. discriminate.
    + destruct (String.leb b a) eqn:Eba; [| reflexivity].
      rewrite (leb_trans b a x Eba Eax) in Ebx. discriminate.
    + rewrite IH. reflexivity.
Qed.

Lemma sort_permutation l l' : Permutation l l' -> sort l = sort l'.
Proof.
  induction 1 as [| x l l' _ IH | x y l | l l' l'' _ IH1 _ IH2]; simpl.
  - reflexivity.
  - rewrite IH. reflexivity.
  - apply insert_sorted_comm.
  - congruence.
Qed.

Lemma in_insert_sorted k a l : In k (insert_sorted a l) <-> k = a \/ In k l.
Proof.
  induction l as [| x l IH]; simpl.
  - intuition.
  - destruct (String.leb a x); simpl; [intuition | rewrite IH; intuition].
Qed.

Lemma in_sort k l : In k (sort l) <-> In k l.
Proof.
  induction l as [| x l IH]; simpl; [reflexivity |].
  rewrite in_insert_sorted, IH. intuition.
Qed.

(** ** Strings under [trim] and [toLowerCase] *)

Lemma trimEnd_snoc c s :
  is_whitespace c = true -> trimEnd (s ++ String c EmptyString) = trimEnd s.
Proof.
  intros Hc. induction s as [| x s IH]; simpl.
  - rewrite Hc. reflexivity.
  - rewrite IH. reflexivity.
Qed.

Lemma trimStart_snoc c s :
  is_whitespace c = true ->
  trimStart (s ++ String c EmptyString) =
    match trimStart s with
    | EmptyString => EmptyString
    | t => t ++ String c EmptyString
    end.
Proof.
  intros Hc. induction s as [| x s IH]; simpl.
  - rewrite Hc. reflexivity.
  - destruct (is_whitespace x); [exact IH | reflexivity].
Qed.

Lemma trim_leading c s : is_whitespace c = true -> trim (String c s) = trim s.
Proof. intros Hc. unfold trim. simpl. rewrite Hc. reflexivity. Qed.

Lemma trim_trailing c s :
  is_whitespace c = true -> trim (s ++ String c EmptyString) = trim s.
Proof.
  intros Hc. unfold trim. rewrite (trimStart_snoc c s Hc).
  destruct (trimStart s) as [| x t] eqn:E; [reflexivity |].
  apply (trimEnd_snoc c (String x t) Hc).
Qed.

Lemma is_whitespace_lower c : is_whitespace (lower_char c) = is_whitespace c.
Proof. destruct c as [[] [] [] [] [] [] [] []]; reflexivity. Qed.

Lemma toLowerCase_trimStart s : toLowerCase (trimStart s) = trimStart (toLowerCase s).
Proof.
  induction s as [| c s IH]; simpl; [reflexivity |].
  rewrite is_whitespace_lower. destruct (is_whitespace c); [exact IH | reflexivity].
Qed.

Lemma toLowerCase_trimEnd s : toLowerCase (trimEnd s) = trimEnd (toLowerCase s).
Proof.
  induction s as [| c s IH]; simpl; [reflexivity |].
  rewrite <- IH, is_whitespace_lower.
  destruct (trimEnd s); simpl; [destruct (is_whitespace c) |]; reflexivity.
Qed.

Lemma toLowerCase_trim s : toLowerCase (trim s) = trim (toLowerCase s).
Proof. unfold trim. rewrite toLowerCase_trimEnd, toLowerCase_trimStart. reflexivity. Qed.

Lemma toLowerCase_app s1 s2 : toLowerCase (s1 ++ s2) = toLowerCase s1 ++ toLowerCase s2.
Proof. induction s1 as [| c s1 IH]; simpl; [| rewrite IH]; reflexivity. Qed.

(** ** Objects rebuilt by [normalizeForHashing] *)

Lemma assoc_map_values {A B : Type} (f : A -> B) k (l : list (string * A)) :
  assoc k (map (fun kv : string * A => let (k', x) := kv in (k', f x)) l)
  = option_map f (assoc k l).
Proof.
  induction l as [| [k' x] l IH]; simpl; [reflexivity |].
  destruct (k' =? k)%string; [reflexivity | exact IH].
Qed.

Lemma assoc_swap {A : Type} k (pre : list (string * A)) k1 v1 k2 v2 post :
  k1 <> k2 ->
  assoc k (pre ++ (k1, v1) :: (k2, v2) :: post)
  = assoc k (pre ++ (k2, v2) :: (k1, v1) :: post).
Proof.
  intros Hne. induction pre as [| [k' x] pre IH]; simpl.
  - destruct (k1 =? k)%string eqn:E1, (k2 =? k)%string eqn:E2; try reflexivity.
    apply String.eqb_eq in E1, E2. congruence.
  - destruct (k' =? k)%string; [reflexivity | exact IH].
Qed.

Lemma assoc_skip {A : Type} k (pre : list (string * A)) k' v post :
  k' <> k -> assoc k (pre ++ (k', v) :: post) = assoc k (pre ++ post).
Proof.
  intros Hne. induction pre as [| [k0 x] pre IH]; simpl.
  - apply String.eqb_neq in Hne. rewrite Hne. reflexivity.
  - destruct (k0 =? k)%string; [reflexivity | exact IH].
Qed.

Lemma fold_left_pointwise {A B : Type} (f g : A -> B -> A) (l : list B) (a : A) :
  (forall a b, f a b = g a b) -> fold_left f l a = fold_left g l a.
Proof.
  intros H. revert a. induction l as [| b l IH]; intros a; simpl; [reflexivity |].
  rewrite H. apply IH.
Qed.

Lemma fold_left_insert_skipped {A : Type} (f : A -> string -> A) k l a :
  (forall a, f a k = a) -> fold_left f (insert_sorted k l) a = fold_left f l a.
Proof.
  intros H. revert a. induction l as [| x l IH]; intros a; simpl.
  - apply H.
  - destruct (String.leb k x); simpl; [rewrite H; reflexivity | apply IH].
Qed.

Lemma rebuild_pointwise keys values values' :
  (forall k, IdempotencyHandler.is_receipt_metadata k = false ->
             assoc k values = assoc k values') ->
  IdempotencyHandler.rebuild keys values = IdempotencyHandler.rebuild keys values'.
Proof.
  intros H. unfold IdempotencyHandler.rebuild. apply fold_left_pointwise.
  intros sorted key. unfold IdempotencyHandler.copy_key.
  destruct (IdempotencyHandler.is_receipt_metadata key) eqn:E; [reflexivity |].
  rewrite (H key E). reflexivity.
Qed.

Lemma rebuild_permutation keys keys' values :
  Permutation keys keys' ->
  IdempotencyHandler.rebuild keys values = IdempotencyHandler.rebuild keys' values.
Proof.
  intros H. unfold IdempotencyHandler.rebuild. rewrite (sort_permutation _ _ H).
  reflexivity.
Qed.

Lemma rebuild_metadata pre k post values :
  IdempotencyHandler.is_receipt_metadata k = true ->
  IdempotencyHandler.rebuild (pre ++ k :: post) values
  = IdempotencyHandler.rebuild (pre ++ post) values.
Proof.
  intros Hk.
  rewrite (rebuild_permutation (pre ++ k :: post) (k :: pre ++ post))
    by (symmetry; apply Permutation_middle).
  unfold IdempotencyHandler.rebuild. simpl. apply fold_left_insert_skipped.
  intros sorted. unfold IdempotencyHandler.copy_key. rewrite Hk. reflexivity.
Qed.

(** ** Payloads with the same content have the same fingerprint *)

Lemma edit_normalizeForHashing x y :
  Content.edit x y ->
  IdempotencyHandler.normalizeForHashing x = IdempotencyHandler.normalizeForHashing y.
Proof.
  induction 1 as [pre k1 v1 k2 v2 post Hne | c s Hc | c s Hc | s1 c c' s2 Hcase
                  | pre k v post Hk | pre x y post _ IH | pre k x y post _ IH].
  - cbn [IdempotencyHandler.normalizeForHashing]. f_equal.
    rewrite (rebuild_permutation
               (map fst (pre ++ (k1, v1) :: (k2, v2) :: post))
               (map fst (pre ++ (k2, v2) :: (k1, v1) :: post)))
      by (rewrite !map_app; apply Permutation_app_head; simpl; apply perm_swap).
    apply rebuild_pointwise. intros k _.
    rewrite !assoc_map_values. f_equal. apply assoc_swap. exact Hne.
  - cbn [IdempotencyHandler.normalizeForHashing]. rewrite (trim_leading c s Hc).
    reflexivity.
  - cbn [IdempotencyHandler.normalizeForHashing]. rewrite (trim_trailing c s Hc).
    reflexivity.
  - cbn [IdempotencyHandler.normalizeForHashing]. rewrite !toLowerCase_trim.
    rewrite !toLowerCase_app. simpl. rewrite Hcase. reflexivity.
  - cbn [IdempotencyHandler.normalizeForHashing]. f_equal.
    replace (map fst (pre ++ (k, v) :: post)) with (map fst pre ++ k :: map fst post)%list
      by (rewrite !map_app; reflexivity).
    rewrite (rebuild_metadata (map fst pre) k (map fst post)) by exact Hk.
    rewrite <- map_app.
    apply rebuild_pointwise. intros k' Hk'.
    rewrite !assoc_map_values. f_equal.
    symmetry. apply assoc_skip. intros ->. congruence.
  - cbn [IdempotencyHandler.normalizeForHashing]. rewrite !map_app. simpl.
    rewrite IH. reflexivity.
  - cbn [IdempotencyHandler.normalizeForHashing]. rewrite !map_app. simpl.
    rewrite IH. reflexivity.
Qed.



(** Letters and white space beyond ASCII: [CAFÉ] and [café] followed by a
    no-break space differ only in letter case and in white space at an end,
    and have the same fingerprint. *)
Remark accented_letters_same_fingerprint :
  Content.same_content (VObj [("name", VStr Examples.upperCafe)])
                       (VObj [("name", VStr Examples.lowerCafe)])
  /\ IdempotencyHandler.generateEventHash (VObj [("name", VStr Examples.upperCafe)])
     = IdempotencyHandler.generateEventHash (VObj [("name", VStr Examples.lowerCafe)]).
Proof.
  assert (H : Content.same_content (VObj [("name", VStr Examples.upperCafe)])
                                   (VObj [("name", VStr Examples.lowerCafe)])).
  { unfold Content.same_content, Examples.upperCafe, Examples.lowerCafe.
    pose (E := String (ascii_of_nat 201) EmptyString).
    pose (e := String (ascii_of_nat 233) EmptyString).
    eapply rst_trans.
    { apply rst_step.
      exact (Content.edit_in_object [] "name" _ _ []
               (Content.edit_letter_case "" "C" "c" ("AF" ++ E) eq_refl)). }
    eapply rst_trans.
    { apply rst_step.
      exact (Content.edit_in_object [] "name" _ _ []
               (Content.edit_letter_case "c" "A" "a" ("F" ++ E) eq_refl)). }
    eapply rst_trans.
    { apply rst_step.
      exact (Content.edit_in_object [] "name" _ _ []
               (Content.edit_letter_case "ca" "F" "f" E eq_refl)). }
    eapply rst_trans.
    { apply rst_step.
      exact (Content.edit_in_object [] "name" _ _ []
               (Content.edit_letter_case "caf" (ascii_of_nat 201) (ascii_of_nat 233) ""
                  eq_refl)). }
    apply rst_step.
    exact (Content.edit_in_object [] "name" _ _ []
             (Content.edit_trailing_space (ascii_of_nat 160) ("caf" ++ e) eq_refl)). }
  split; [exact H |].
  unfold IdempotencyHandler.generateEventHash.
  assert (E : IdempotencyHandler.normalizeForHashing (VObj [("name", VStr Examples.upperCafe)])
              = IdempotencyHandler.normalizeForHashing
                  (VObj [("name", VStr Examples.lowerCafe)]))
    by (vm_compute; reflexivity).
  rewrite E. reflexivity.
Qed.

(** ** Aliases and the fingerprint *)

Lemma assoc_replace_prop k k' v o :
  assoc k' o <> None ->
  assoc k (replace_prop k' v o) = if (k' =? k)%string then Some v else assoc k o.
Proof.
  induction o as [| [k0 v0] o IH]; simpl; [congruence |].
  destruct (k0 =? k')%string eqn:E0.
  - apply String.eqb_eq in E0. subst k0. intros _. simpl.
    destruct (k' =? k)%string; reflexivity.
  - intros H. simpl. rewrite (IH H).
    destruct (k0 =? k)%string eqn:E1; [| reflexivity].
    apply String.eqb_eq in E1. subst k0. rewrite String.eqb_sym, E0. reflexivity.
Qed.

Lemma assoc_insert_index k n k' v o :
  assoc k' o = None ->
  assoc k (insert_index n k' v o) = if (k' =? k)%string then Some v else assoc k o.
Proof.
  induction o as [| [k0 v0] o IH]; simpl; [reflexivity |].
  destruct (k0 =? k')%string eqn:E0; [discriminate |]. intros H.
  destruct (array_index k0) as [n0 |]; [destruct (n0 <? n) |]; simpl;
    try reflexivity.
  rewrite (IH H). destruct (k0 =? k)%string eqn:E1; [| reflexivity].
  apply String.eqb_eq in E1. subst k0. rewrite String.eqb_sym, E0. reflexivity.
Qed.

Lemma assoc_app_last k k' v (o : list (string * value)) :
  assoc k (o ++ [(k', v)]) =
    match assoc k o with
    | Some x => Some x
    | None => if (k' =? k)%string then Some v else None
    end.
Proof.
  induction o as [| [k0 v0] o IH]; simpl; [reflexivity |].
  destruct (k0 =? k)%string; [reflexivity | exact IH].
Qed.

Lemma assoc_set_prop k k' v o :
  assoc k (set_prop o k' v) = if (k' =? k)%string then Some v else assoc k o.
Proof.
  unfold set_prop. destruct (assoc k' o) as [x |] eqn:E.
  - apply assoc_replace_prop. congruence.
  - destruct (array_index k') as [n |].
    + apply assoc_insert_index. exact E.
    + rewrite assoc_app_last. destruct (k' =? k)%string eqn:Ek.
      * apply String.eqb_eq in Ek. subst k'. rewrite E. reflexivity.
      * destruct (assoc k o); reflexivity.
Qed.

Lemma assoc_copy_key_other values sorted key k :
  key <> k ->
  assoc k (IdempotencyHandler.copy_key values sorted key) = assoc k sorted.
Proof.
  intros Hne. unfold IdempotencyHandler.copy_key, assign.
  destruct (IdempotencyHandler.is_receipt_metadata key); [reflexivity |].
  destruct (assoc key values); [| reflexivity].
  destruct (key =? "__proto__")%string; [reflexivity |].
  rewrite assoc_set_prop. apply String.eqb_neq in Hne. rewrite Hne. reflexivity.
Qed.

Lemma assoc_copy_key_same values sorted k v :
  IdempotencyHandler.is_receipt_metadata k = false ->
  k <> "__proto__" ->
  assoc k values = Some v ->
  assoc k (IdempotencyHandler.copy_key values sorted k) = Some v.
Proof.
  intros Hm Hp Hv. unfold IdempotencyHandler.copy_key, assign.
  rewrite Hm, Hv. apply String.eqb_neq in Hp. rewrite Hp.
  rewrite assoc_set_prop, String.eqb_refl. reflexivity.
Qed.

Lemma assoc_fold_absent values keys sorted k :
  ~ In k keys ->
  assoc k (fold_left (IdempotencyHandler.copy_key values) keys sorted) = assoc k sorted.
Proof.
  revert sorted. induction keys as [| key keys IH]; intros sorted Hn; simpl;
    [reflexivity |].
  rewrite IH by (intros H; apply Hn; right; exact H).
  apply assoc_copy_key_other. intros ->. apply Hn. left. reflexivity.
Qed.

Lemma assoc_fold_present values keys sorted k v :
  IdempotencyHandler.is_receipt_metadata k = false ->
  k <> "__proto__" ->
  assoc k values = Some v ->
  In k keys ->
  assoc k (fold_left (IdempotencyHandler.copy_key values) keys sorted) = Some v.
Proof.
  intros Hm Hp Hv. revert sorted.
  induction keys as [| key keys IH]; intros sorted Hin; simpl; [destruct Hin |].
  destruct (in_dec string_dec k keys) as [Hk | Hk]; [apply IH; exact Hk |].
  destruct Hin as [-> | Hin]; [| contradiction].
  rewrite assoc_fold_absent by exact Hk.
  apply assoc_copy_key_same; assumption.
Qed.

Lemma assoc_in_keys {A : Type} k (l : list (string * A)) x :
  assoc k l = Some x -> In k (map fst l).
Proof.
  induction l as [| [k0 v0] l IH]; simpl; [discriminate |].
  destruct (k0 =? k)%string eqn:E; [apply String.eqb_eq in E; auto | auto].
Qed.

Lemma assoc_not_in_keys {A : Type} k (l : list (string * A)) :
  assoc k l = None <-> ~ In k (map fst l).
Proof.
  induction l as [| [k0 v0] l IH]; simpl; [intuition |].
  destruct (k0 =? k)%string eqn:E.
  - apply String.eqb_eq in E. split; [discriminate | intros H; elim H; auto].
  - apply String.eqb_neq in E. rewrite IH. intuition.
Qed.

(** Every key of an object other than [received_at], [created_at], [id] and
    [__proto__] is kept under its own name, with its normalized value. *)
Lemma get_normalizeForHashing props k :
  IdempotencyHandler.is_receipt_metadata k = false ->
  k <> "__proto__" ->
  get (IdempotencyHandler.normalizeForHashing (VObj props)) k
  = option_map IdempotencyHandler.normalizeForHashing (assoc k props).
Proof.
  intros Hm Hp. cbn [IdempotencyHandler.normalizeForHashing get].
  unfold IdempotencyHandler.rebuild.
  destruct (assoc k props) as [x |] eqn:E; simpl.
  - apply assoc_fold_present; try assumption.
    + rewrite assoc_map_values, E. reflexivity.
    + apply in_sort. eapply assoc_in_keys. exact E.
  - rewrite assoc_fold_absent; [reflexivity |].
    rewrite in_sort. apply assoc_not_in_keys. exact E.
Qed.

Lemma assoc_middle {A : Type} k (pre : list (string * A)) v post :
  ~ In k (map fst pre) -> assoc k (pre ++ (k, v) :: post) = Some v.
Proof.
  induction pre as [| [k0 v0] pre IH]; simpl; intros Hn.
  - rewrite String.eqb_refl. reflexivity.
  - destruct (k0 =? k)%string eqn:E.
    + apply String.eqb_eq in E. elim Hn. auto.
    + apply IH. intros H. apply Hn. auto.
Qed.

Lemma alias_is_business_key canonicalName names a :
  Normalizer.fieldMappings canonicalName = Some names ->
  In a names ->
  a <> "__proto__"
  /\ (IdempotencyHandler.is_receipt_metadata a = true -> a = "created_at").
Proof.
  unfold Normalizer.fieldMappings.
  repeat (destruct (canonicalName =? _)%string;
          [intros [= <-]; simpl; intros H;
           repeat (destruct H as [<- | H]; [split; [discriminate | intros Hm; try discriminate Hm; reflexivity] |]);
           destruct H |]).
  discriminate.
Qed.

(** C4 (counterexample): the fingerprint depends on the names used for
    the fields: [amount] against [value], [source] against [client_id]. *)
Lemma alias_choice_changes_fingerprint :
  IdempotencyHandler.generateEventHash
    (VObj [("source", VStr "client_A");
           ("payload", VObj [("metric", VStr "revenue"); ("amount", VNum (Dec 1 2))])])
  <> IdempotencyHandler.generateEventHash
    (VObj [("source", VStr "client_A");
           ("payload", VObj [("metric", VStr "revenue"); ("value", VNum (Dec 1 2))])])
  /\ IdempotencyHandler.generateEventHash Examples.testEvent
     <> IdempotencyHandler.generateEventHash Examples.aliasedEvent.
Proof. split; vm_compute; discriminate. Qed.

(** ** The two hosts side by side

    The payload without amount on a new database: the FailedEvent is stored
    when [export()] keeps the connection, and is not when it reopens it. *)
Example failed_event_on_both_hosts :
  List.length (fails (Examples.after Examples.strict_host Examples.noAmountEvent false
                        EventService.init)) = 1%nat
  /\ List.length (fails (Examples.after Examples.reopening_host Examples.noAmountEvent false
                           EventService.init)) = 0%nat
  /\ List.length (raws (Examples.after Examples.reopening_host Examples.noAmountEvent false
                          EventService.init)) = 1%nat.
Proof. vm_compute. repeat split. Qed.

(** * Further properties of the normalizer *)

(** ** The outcome of [normalize] *)

Lemma check_client_shape h rawEvent :
  Normalizer.thrown h rawEvent = None ->
  (exists c, Normalizer.check_client rawEvent = (Some c, []))
  \/ Normalizer.check_client rawEvent
     = (None, ["Missing required field: client_id (or equivalent)"]).
Proof.
  unfold Normalizer.thrown, Normalizer.check_client, Normalizer.unconvertible.
  destruct (truthy (Normalizer.extractField rawEvent "client_id"));
    [| intros _; right; reflexivity].
  destruct (ToString (Normalizer.extractField rawEvent "client_id")) as [c |];
    [intros _; left; exists c; reflexivity | discriminate].
Qed.

Lemma check_metric_shape h rawEvent :
  Normalizer.thrown h rawEvent = None ->
  (exists m, Normalizer.check_metric (Normalizer.payload_of rawEvent) = (Some m, []))
  \/ Normalizer.check_metric (Normalizer.payload_of rawEvent)
     = (None, ["Missing required field: metric (or equivalent)"]).
Proof.
  unfold Normalizer.thrown, Normalizer.check_metric, Normalizer.unconvertible.
  destruct (truthy (Normalizer.extractField rawEvent "client_id")
            && match ToString (Normalizer.extractField rawEvent "client_id") with
               | Some _ => false
               | None => true
               end); [discriminate |].
  destruct (truthy (Normalizer.extractField (Normalizer.payload_of rawEvent) "metric"));
    [| intros _; right; reflexivity].
  destruct (ToString (Normalizer.extractField (Normalizer.payload_of rawEvent) "metric"))
    as [m |]; [intros _; left; exists m; reflexivity | discriminate].
Qed.

Lemma check_amount_shape h rawEvent :
  Normalizer.thrown h rawEvent = None ->
  (exists a wa,
     Normalizer.check_amount (Normalizer.payload_of rawEvent) = (Some a, [], wa))
  \/ (exists e, Normalizer.check_amount (Normalizer.payload_of rawEvent) = (None, [e], [])).
Proof.
  intros Hquiet.
  destruct (Normalizer.extractField (Normalizer.payload_of rawEvent) "amount")
    as [| b | n | s | items | props] eqn:Hfield.
  1: right; unfold Normalizer.check_amount; rewrite Hfield; eexists; reflexivity.
  all: match goal with
       | H : Normalizer.extractField _ "amount" = ?v |- _ =>
           destruct (Normalizer.parseNumber v) as [a |] eqn:Hparse;
           [left; unfold Normalizer.check_amount; rewrite H, Hparse;
            eexists; eexists; reflexivity
           | right; destruct (ToString v) as [text |] eqn:Htext;
             [unfold Normalizer.check_amount; rewrite H, Hparse, Htext;
              eexists; reflexivity
             | exfalso;
               exact (thrown_amount h rawEvent v H ltac:(discriminate) Hparse Htext
                        Hquiet)]]
       end.
Qed.

Lemma check_timestamp_shape h payload :
  exists t wt,
    Normalizer.check_timestamp h payload = (t, [], wt)
    \/ (exists e, Normalizer.check_timestamp h payload = (t, [e], wt)).
Proof.
  unfold Normalizer.check_timestamp.
  destruct (negb (truthy _)); [eexists; eexists; left; reflexivity |].
  destruct (Normalizer.parseTimestamp h _);
    [eexists; eexists; left; reflexivity |].
  destruct (ToString _); eexists; eexists; [right; eexists | left]; reflexivity.
Qed.

(** X1: [normalize] has two outcomes only.  Either it succeeds, and then the
    canonical record is there and the error list is empty; or it fails, and
    then there is no record and the error list is not empty. *)
Theorem normalize_outcomes :
  forall h rawEvent,
    let r := Normalizer.normalize h rawEvent in
    (Normalizer.success r = true /\ Normalizer.errors r = []
     /\ exists d, Normalizer.data r = Some d)
    \/ (Normalizer.success r = false /\ Normalizer.errors r <> []
        /\ Normalizer.data r = None).
Proof.
  intros h rawEvent r. subst r.
  destruct (normalize_ways h rawEvent) as [(message & warnings & E) | (_ & Hquiet & E)];
    rewrite E; [right; repeat split; discriminate |].
  unfold Normalizer.normalize_fields.
  destruct (check_client_shape h rawEvent Hquiet) as [[c ->] | ->];
    destruct (check_metric_shape h rawEvent Hquiet) as [[m ->] | ->];
    destruct (check_amount_shape h rawEvent Hquiet) as [(a & wa & ->) | (e & ->)];
    destruct (check_timestamp_shape h (Normalizer.payload_of rawEvent))
      as (t & wt & [-> | (e' & ->)]);
    cbn [app];
    solve [left; repeat split; eexists; reflexivity
          | right; repeat split; discriminate].
Qed.

(** ** Fields the normalizer does not know *)

Lemma first_present_ext obj obj' names :
  truthy obj' = truthy obj ->
  (forall name, In name names -> get obj' name = get obj name) ->
  Normalizer.first_present obj' names = Normalizer.first_present obj names.
Proof.
  intros Ht Hget. induction names as [| name names IH]; simpl; [reflexivity |].
  unfold Normalizer.present. rewrite Ht, (Hget name) by (left; reflexivity).
  rewrite IH by (intros n Hn; apply Hget; right; exact Hn). reflexivity.
Qed.

Lemma has_false_neq set key name :
  Normalizer.has set key = false -> In name set -> name <> key.
Proof.
  unfold Normalizer.has. intros H Hin ->.
  assert (existsb (fun k => (k =? key)%string) set = true)
    by (apply existsb_exists; exists key; split; [exact Hin | apply String.eqb_refl]).
  congruence.
Qed.

Lemma get_app_other props k v name :
  name <> k -> get (VObj (props ++ [(k, v)])) name = get (VObj props) name.
Proof.
  intros Hne. simpl. rewrite assoc_app_last.
  apply not_eq_sym in Hne. apply String.eqb_neq in Hne. rewrite Hne.
  destruct (assoc name props); reflexivity.
Qed.

(** X2: a field the normalizer does not know never changes the outcome.
    Adding to the root object a key that is neither an alias nor [payload]
    leaves success, canonical record and errors as they were, and the block
    ends in its [catch] with the new key exactly when it did without; where
    it does not, the key is reported by a warning. *)
Theorem unknown_root_field_is_harmless :
  forall h props k v,
    Normalizer.has Normalizer.knownFields k = false ->
    Normalizer.has Normalizer.payloadKnownFields k = false ->
    let r := Normalizer.normalize h (VObj props) in
    let r' := Normalizer.normalize h (VObj (props ++ [(k, v)])) in
    Normalizer.success r' = Normalizer.success r
    /\ Normalizer.data r' = Normalizer.data r
    /\ Normalizer.errors r' = Normalizer.errors r
    /\ Normalizer.thrown h (VObj (props ++ [(k, v)])) = Normalizer.thrown h (VObj props)
    /\ (Normalizer.thrown h (VObj props) = None ->
        In ("Unknown field at root level: " ++ k) (Normalizer.warnings r')).
Proof.
  intros h props k v Hroot Hpay r r'. subst r r'.
  set (raw := VObj props). set (raw' := VObj (props ++ [(k, v)])).
  assert (Hget : forall name,
             In name Normalizer.knownFields \/ In name Normalizer.payloadKnownFields ->
             get raw' name = get raw name).
  { intros name [H | H]; apply get_app_other;
      [exact (has_false_neq _ _ _ Hroot H) | exact (has_false_neq _ _ _ Hpay H)]. }
  assert (Hfield : forall c names,
             Normalizer.fieldMappings c = Some names ->
             incl names Normalizer.knownFields \/ incl names Normalizer.payloadKnownFields ->
             Normalizer.extractField raw' c = Normalizer.extractField raw c).
  { intros c names Hc Hincl. unfold Normalizer.extractField. rewrite Hc.
    apply first_present_ext; [reflexivity |].
    intros name Hin. apply Hget. destruct Hincl as [Hi | Hi]; [left | right]; auto. }
  assert (Hid : Normalizer.extractField raw' "client_id"
                = Normalizer.extractField raw "client_id").
  { apply (Hfield "client_id" _ eq_refl). left. intros x Hx. simpl in *. intuition. }
  assert (Hclient : Normalizer.check_client raw' = Normalizer.check_client raw).
  { unfold Normalizer.check_client. rewrite Hid. reflexivity. }
  assert (Hpayload : (Normalizer.payload_of raw' = Normalizer.payload_of raw)
                     \/ (Normalizer.payload_of raw' = raw'
                         /\ Normalizer.payload_of raw = raw)).
  { unfold Normalizer.payload_of.
    rewrite (Hget "payload") by (left; simpl; intuition).
    destruct (get raw "payload") as [p |]; [destruct (truthy p) |]; auto. }
  assert (Hfields :
            Normalizer.extractField (Normalizer.payload_of raw') "metric"
              = Normalizer.extractField (Normalizer.payload_of raw) "metric"
            /\ Normalizer.extractField (Normalizer.payload_of raw') "amount"
               = Normalizer.extractField (Normalizer.payload_of raw) "amount"
            /\ Normalizer.extractField (Normalizer.payload_of raw') "timestamp"
               = Normalizer.extractField (Normalizer.payload_of raw) "timestamp").
  { destruct Hpayload as [-> | [-> ->]]; [repeat split |].
    rewrite (Hfield "metric" _ eq_refl)
      by (right; intros x Hx; simpl in *; intuition).
    rewrite (Hfield "amount" _ eq_refl)
      by (right; intros x Hx; simpl in *; intuition).
    rewrite (Hfield "timestamp" _ eq_refl)
      by (right; intros x Hx; simpl in *; intuition).
    repeat split. }
  destruct Hfields as (Hfm & Hfa & Hft).
  assert (Hm : Normalizer.check_metric (Normalizer.payload_of raw')
               = Normalizer.check_metric (Normalizer.payload_of raw))
    by (unfold Normalizer.check_metric; rewrite Hfm; reflexivity).
  assert (Ha : Normalizer.check_amount (Normalizer.payload_of raw')
               = Normalizer.check_amount (Normalizer.payload_of raw))
    by (unfold Normalizer.check_amount; rewrite Hfa; reflexivity).
  assert (Ht : Normalizer.check_timestamp h (Normalizer.payload_of raw')
               = Normalizer.check_timestamp h (Normalizer.payload_of raw))
    by (unfold Normalizer.check_timestamp; rewrite Hft; reflexivity).
  assert (Hthrown : Normalizer.thrown h raw' = Normalizer.thrown h raw)
    by (unfold Normalizer.thrown; rewrite Hid, Hfm, Hfa, Hft, Ha; reflexivity).
  assert (Hsame : Normalizer.success (Normalizer.normalize h raw')
                  = Normalizer.success (Normalizer.normalize h raw)
                  /\ Normalizer.data (Normalizer.normalize h raw')
                     = Normalizer.data (Normalizer.normalize h raw)
                  /\ Normalizer.errors (Normalizer.normalize h raw')
                     = Normalizer.errors (Normalizer.normalize h raw)).
  { destruct (Normalizer.thrown h raw) as [[message warnings] |] eqn:E.
    - rewrite (normalize_thrown h raw' message warnings ltac:(discriminate) Hthrown).
      rewrite (normalize_thrown h raw message warnings ltac:(discriminate) E).
      repeat split.
    - rewrite (normalize_nonnull h raw' ltac:(discriminate) Hthrown).
      rewrite (normalize_nonnull h raw ltac:(discriminate) E).
      unfold Normalizer.normalize_fields; rewrite Hclient, Hm, Ha, Ht;
        clear Hclient Hm Ha Ht;
        destruct (Normalizer.check_client raw) as [c ec];
        destruct (Normalizer.check_metric (Normalizer.payload_of raw)) as [m em];
        destruct (Normalizer.check_amount (Normalizer.payload_of raw)) as [[a ea] wa];
        destruct (Normalizer.check_timestamp h (Normalizer.payload_of raw))
          as [[t et] wt];
        destruct (ec ++ em ++ ea ++ et)%list, c, m, a; repeat split. }
  destruct Hsame as (Hs & Hd & He).
  split; [exact Hs |]. split; [exact Hd |]. split; [exact He |].
  split; [exact Hthrown |].
  intros Hquiet. rewrite <- Hthrown in Hquiet.
  rewrite (normalize_nonnull h raw' ltac:(discriminate) Hquiet).
  normalize_cases h raw'. rewrite Hw.
  apply in_or_app; right. apply in_or_app; right. apply in_or_app; left.
  unfold Normalizer.unknown. apply in_map. apply filter_In. split.
  - unfold raw'. simpl. rewrite map_app. apply in_or_app. right. left. reflexivity.
  - fold (Normalizer.has Normalizer.knownFields k). rewrite Hroot. reflexivity.
Qed.

(** ** The timestamp is optional *)

(** X3: a payload without timestamp is not in error.  When the client id,
    the metric and the amount pass their checks, the normalization succeeds,
    the current instant stands for the timestamp and a warning says so. *)
Theorem missing_timestamp_is_substituted :
  forall h rawEvent c m a wa,
    rawEvent <> VNull ->
    truthy (Normalizer.extractField (Normalizer.payload_of rawEvent) "timestamp") = false ->
    Normalizer.check_client rawEvent = (Some c, []) ->
    Normalizer.check_metric (Normalizer.payload_of rawEvent) = (Some m, []) ->
    Normalizer.check_amount (Normalizer.payload_of rawEvent) = (Some a, [], wa) ->
    let r := Normalizer.normalize h rawEvent in
    Normalizer.success r = true
    /\ Normalizer.data r =
         Some {| Normalizer.client_id := c; Normalizer.metric := m;
                 Normalizer.amount := a;
                 Normalizer.timestamp := toISOString (Date_now h) |}
    /\ In "Missing timestamp field, using current time as fallback"
          (Normalizer.warnings r).
Proof.
  intros h rawEvent c m a wa Hnn Hts Hc Hm Ha r. subst r.
  rewrite (normalize_nonnull h rawEvent Hnn)
    by (apply (thrown_checked h rawEvent c [] m [] a [] wa Hc Hm Ha);
        rewrite Hts; reflexivity).
  assert (Ht : Normalizer.check_timestamp h (Normalizer.payload_of rawEvent)
               = (toISOString (Date_now h), [],
                  ["Missing timestamp field, using current time as fallback"])).
  { unfold Normalizer.check_timestamp. rewrite Hts. reflexivity. }
  unfold Normalizer.normalize_fields. rewrite Hc, Hm, Ha, Ht. cbn.
  repeat split. apply in_or_app. right. left. reflexivity.
Qed.

Lemma missing_timestamp_is_substituted_witness :
  let rawEvent := VObj [("client", VStr "client_A"); ("type", VStr "signup");
                        ("quantity", VNum (Dec 5 0))] in
  let r := Normalizer.normalize Examples.strict_host rawEvent in
  Normalizer.success r = true
  /\ Normalizer.data r =
       Some {| Normalizer.client_id := "client_A"; Normalizer.metric := "signup";
               Normalizer.amount := Dec 5 0;
               Normalizer.timestamp := toISOString (Date_now Examples.strict_host) |}
  /\ In "Missing timestamp field, using current time as fallback"
        (Normalizer.warnings r).
Proof.
  intros rawEvent.
  apply (missing_timestamp_is_substituted Examples.strict_host rawEvent
           "client_A" "signup" (Dec 5 0) []).
  - discriminate.
  - reflexivity.
  - reflexivity.
  - reflexivity.
  - reflexivity.
Defined.

Lemma unknown_root_field_is_harmless_witness :
  let r := Normalizer.normalize Examples.strict_host Examples.testEvent in
  let r' := Normalizer.normalize Examples.strict_host
              (VObj [("source", VStr "client_A");
                     ("payload", VObj [("metric", VStr "revenue");
                                       ("amount", VStr "1200");
                                       ("timestamp", VStr "2024/01/01")]);
                     ("region", VStr "EU")]) in
  Normalizer.success r' = Normalizer.success r
  /\ Normalizer.data r' = Normalizer.data r
  /\ Normalizer.errors r' = Normalizer.errors r
  /\ In ("Unknown field at root level: " ++ "region") (Normalizer.warnings r').
Proof.
  destruct (unknown_root_field_is_harmless Examples.strict_host
              [("source", VStr "client_A");
               ("payload", VObj [("metric", VStr "revenue");
                                 ("amount", VStr "1200");
                                 ("timestamp", VStr "2024/01/01")])]
              "region" (VStr "EU")) as (Hs & Hd & He & _ & Hw).
  - reflexivity.
  - reflexivity.
  - split; [exact Hs |]. split; [exact Hd |]. split; [exact He |].
    apply Hw. reflexivity.
Defined.

(** ** Which alias [extractField] takes *)

Lemma present_value obj name :
  Normalizer.present obj name = true ->
  exists v, get obj name = Some v /\ v <> VNull /\ v <> VStr "".
Proof.
  unfold Normalizer.present. destruct (truthy obj); [| discriminate]. simpl.
  destruct (get obj name) as [[| b | n | s | items | props] |]; try discriminate;
    intros H; eexists; (split; [reflexivity | split; try discriminate]).
  intros [= ->]. discriminate.
Qed.

(** X4: [extractField] takes the first alias, in the order of the table, whose
    value is there and is neither [null] nor the empty string; later aliases
    are not looked at.  It answers [null] exactly when no alias has such a
    value, and never the empty string. *)
Theorem extractField_takes_first_present_alias :
  forall obj canonicalName names,
    Normalizer.fieldMappings canonicalName = Some names ->
    (Normalizer.extractField obj canonicalName = VNull
     /\ Forall (fun name => Normalizer.present obj name = false) names)
    \/ (exists before alias after v,
          names = (before ++ alias :: after)%list
          /\ Forall (fun name => Normalizer.present obj name = false) before
          /\ get obj alias = Some v
          /\ v <> VNull /\ v <> VStr ""
          /\ Normalizer.extractField obj canonicalName = v).
Proof.
  intros obj c names Hc. unfold Normalizer.extractField. rewrite Hc. clear Hc.
  induction names as [| name names IH]; simpl.
  - left. split; [reflexivity | constructor].
  - destruct (Normalizer.present obj name) eqn:Hp.
    + right. destruct (present_value obj name Hp) as (v & Hv & Hn & He).
      exists [], name, names, v. rewrite Hv.
      repeat split; try assumption. constructor.
    + destruct IH as [(Hnull & Hall) | (before & alias & after & v & -> & Hb & Hrest)].
      * left. split; [exact Hnull | constructor; assumption].
      * right. exists (name :: before), alias, after, v.
        split; [reflexivity |]. split; [constructor; assumption | exact Hrest].
Qed.

Lemma extractField_takes_first_present_alias_witness :
  let obj := VObj [("client_id", VStr "second"); ("client", VStr "");
                   ("source", VNull); ("sender", VStr "last")] in
  (Normalizer.extractField obj "client_id" = VNull
   /\ Forall (fun name => Normalizer.present obj name = false)
        ["source"; "client"; "client_id"; "clientId"; "sender"])
  \/ (exists before alias after v,
        ["source"; "client"; "client_id"; "clientId"; "sender"]
          = (before ++ alias :: after)%list
        /\ Forall (fun name => Normalizer.present obj name = false) before
        /\ get obj alias = Some v
        /\ v <> VNull /\ v <> VStr ""
        /\ Normalizer.extractField obj "client_id" = v).
Proof.
  intros obj.
  apply (extractField_takes_first_present_alias obj "client_id").
  reflexivity.
Defined.

(** ** Amounts with text after the number *)

Lemma trimEnd_keeps c r :
  is_whitespace c = false -> trimEnd (String c r) = String c (trimEnd r).
Proof. intros H. simpl. rewrite H. destruct (trimEnd r); reflexivity. Qed.

Lemma trimEnd_cons_nonempty c r t :
  trimEnd r = t -> t <> EmptyString -> trimEnd (String c r) = String c t.
Proof. intros <- H. simpl. destruct (trimEnd r); [contradiction | reflexivity]. Qed.

Lemma digit_facts c :
  is_digit c = true ->
  is_whitespace c = false
  /\ ((code c =? 44) || (code c =? 36)) = false
  /\ (code c =? 45) = false /\ (code c =? 43) = false /\ (code c =? 73) = false.
Proof.
  unfold is_digit, is_whitespace. intros H.
  apply andb_true_iff in H. destruct H as [H1 H2].
  apply Z.leb_le in H1, H2.
  repeat split;
    repeat match goal with
           | |- (_ || _) = false => apply orb_false_iff; split
           | |- (_ && _) = false => apply andb_false_iff
           end;
    try (apply Z.eqb_neq; lia).
  right. apply Z.leb_gt. lia.
Qed.

Lemma span_digits_prefix ds c rest :
  Forall (fun d => is_digit d = true) ds ->
  is_digit c = false ->
  span_digits (string_of_list_ascii ds ++ String c rest) = (ds, String c rest).
Proof.
  intros Hds Hc. induction Hds as [| d ds Hd _ IH]; simpl.
  - rewrite Hc. reflexivity.
  - rewrite Hd, IH. reflexivity.
Qed.

Lemma remove_separators_digits ds s :
  Forall (fun d => is_digit d = true) ds ->
  remove_separators (string_of_list_ascii ds ++ s)
  = string_of_list_ascii ds ++ remove_separators s.
Proof.
  intros Hds. induction Hds as [| d ds Hd _ IH]; simpl; [reflexivity |].
  destruct (digit_facts d Hd) as (_ & -> & _). rewrite IH. reflexivity.
Qed.

Lemma trimEnd_digits ds c r :
  Forall (fun d => is_digit d = true) ds ->
  is_whitespace c = false ->
  trimEnd (string_of_list_ascii ds ++ String c r)
  = string_of_list_ascii ds ++ String c (trimEnd r).
Proof.
  intros Hds Hc. induction Hds as [| d ds Hd _ IH]; simpl app.
  - apply trimEnd_keeps. exact Hc.
  - simpl string_of_list_ascii. simpl append.
    destruct (digit_facts d Hd) as (Hw & _).
    rewrite (trimEnd_keeps d _ Hw), IH. reflexivity.
Qed.

(** X5: [parseNumber] reads the number at the head of a string and ignores
    what follows it.  A non-empty run of digits that spells an integer up to
    2^53 (which binary64 holds exactly), followed by any text that starts
    with a character other than a digit, [.], [e], [E], [,], [$] or white
    space, is accepted as the number the digits spell. *)
Theorem parseNumber_ignores_trailing_text :
  forall ds c rest,
    ds <> [] ->
    Forall (fun d => is_digit d = true) ds ->
    digits_value ds <= 9007199254740992 ->
    is_digit c = false ->
    is_whitespace c = false ->
    (code c =? 46) = false ->
    ((code c =? 101) || (code c =? 69)) = false ->
    ((code c =? 44) || (code c =? 36)) = false ->
    Normalizer.parseNumber (VStr (string_of_list_ascii ds ++ String c rest))
    = Some (mkDec (digits_value ds) 0).
Proof.
  intros ds c rest Hne Hds _ Hc Hw Hdot Hexp Hsep.
  unfold Normalizer.parseNumber.
  rewrite (remove_separators_digits ds _ Hds). simpl remove_separators. rewrite Hsep.
  destruct ds as [| d ds]; [contradiction |].
  inversion Hds as [| d' ds' Hd Hds']; subst.
  destruct (digit_facts d Hd) as (Hdw & _ & Hminus & Hplus & HI).
  assert (Htrim : trim (string_of_list_ascii (d :: ds) ++ String c (remove_separators rest))
                  = string_of_list_ascii (d :: ds)
                    ++ String c (trimEnd (remove_separators rest))).
  { unfold trim. simpl string_of_list_ascii. simpl append. simpl trimStart.
    rewrite Hdw.
    apply (trimEnd_digits (d :: ds) c _ Hds Hw). }
  rewrite Htrim. clear Htrim.
  set (tail := String c (trimEnd (remove_separators rest))).
  assert (Hparse : parseFloat (string_of_list_ascii (d :: ds) ++ tail)
                   = mkDec (digits_value (d :: ds)) 0).
  { unfold parseFloat. simpl string_of_list_ascii. simpl append. simpl trimStart.
    rewrite Hdw, Hminus, Hplus.
    assert (Hinf : prefix "Infinity" (String d (string_of_list_ascii ds ++ tail)) = false).
    { cbn [prefix]. destruct (ascii_dec "I" d) as [<- | _];
        [discriminate HI | reflexivity]. }
    rewrite Hinf.
    change (String d (string_of_list_ascii ds ++ tail))
      with (string_of_list_ascii (d :: ds) ++ tail).
    unfold tail. rewrite (span_digits_prefix (d :: ds) c _ Hds Hc).
    rewrite Hdot. rewrite app_nil_r. unfold exponent_part. rewrite Hexp.
    simpl. reflexivity. }
  rewrite Hparse.
  destruct (mkDec (digits_value (d :: ds)) 0) eqn:E; try reflexivity.
  unfold mkDec in E. destruct (strip_zeros _ _ _). discriminate.
Qed.

Lemma parseNumber_ignores_trailing_text_witness :
  Normalizer.parseNumber (VStr "1200abc") = Some (Dec 12 2).
Proof.
  apply (parseNumber_ignores_trailing_text
           ["1"; "2"; "0"; "0"]%char "a"%char "bc").
  - discriminate.
  - repeat constructor.
  - vm_compute. discriminate.
  - reflexivity.
  - reflexivity.
  - reflexivity.
  - reflexivity.
  - reflexivity.
Defined.

(** ** Extending the alias table *)

Lemma read_initial name :
  Normalizer.fieldMappings name =
    match Registry.read Registry.initial name with
    | Registry.Own names => Some names
    | _ => None
    end.
Proof.
  unfold Normalizer.fieldMappings, Registry.read, Registry.initial.
  cbn [assoc].
  destruct (String.eqb_spec name "client_id") as [-> | H1]; [reflexivity |].
  rewrite (proj2 (String.eqb_neq _ _) (not_eq_sym H1)).
  destruct (String.eqb_spec name "metric") as [-> | H2]; [reflexivity |].
  rewrite (proj2 (String.eqb_neq _ _) (not_eq_sym H2)).
  destruct (String.eqb_spec name "amount") as [-> | H3]; [reflexivity |].
  rewrite (proj2 (String.eqb_neq _ _) (not_eq_sym H3)).
  destruct (String.eqb_spec name "timestamp") as [-> | H4]; [reflexivity |].
  rewrite (proj2 (String.eqb_neq _ _) (not_eq_sym H4)).
  destruct (existsb (String.eqb name) Registry.inherited); reflexivity.
Qed.

Lemma assoc_push_same t c f names :
  assoc c t = Some names -> assoc c (Registry.push t c f) = Some (names ++ [f])%list.
Proof.
  induction t as [| [c0 n0] t IH]; simpl; [discriminate |].
  destruct (c0 =? c)%string eqn:E; simpl; rewrite E; [intros [= ->]; reflexivity | exact IH].
Qed.

Lemma assoc_push_other t c f c' :
  c' <> c -> assoc c' (Registry.push t c f) = assoc c' t.
Proof.
  intros Hne. induction t as [| [c0 n0] t IH]; simpl; [reflexivity |].
  destruct (c0 =? c)%string eqn:E; simpl.
  - apply String.eqb_eq in E. subst c0.
    apply not_eq_sym in Hne. apply String.eqb_neq in Hne. rewrite Hne. reflexivity.
  - rewrite IH. reflexivity.
Qed.

Lemma first_present_app obj l1 l2 :
  Normalizer.first_present obj (l1 ++ l2) =
    if existsb (Normalizer.present obj) l1 then Normalizer.first_present obj l1
    else Normalizer.first_present obj l2.
Proof.
  induction l1 as [| name l1 IH]; simpl; [reflexivity |].
  destruct (Normalizer.present obj name); [reflexivity | exact IH].
Qed.

Lemma first_present_null obj l :
  Normalizer.first_present obj l = VNull <-> existsb (Normalizer.present obj) l = false.
Proof.
  induction l as [| name l IH]; simpl; [split; reflexivity |].
  destruct (Normalizer.present obj name) eqn:Hp; [| exact IH].
  destruct (present_value obj name Hp) as (v & -> & Hn & _).
  split; [intros H; contradiction | discriminate].
Qed.

(** X6: [addFieldMapping] on a canonical name of the table gives the new
    alias the last place.  Every object that resolved before resolves to the
    same value; the new alias is used when no earlier alias has a value;
    other canonical names are not touched; adding the alias again changes
    nothing. *)
Theorem addFieldMapping_appends_alias :
  forall t canonicalName fieldName names,
    Registry.read t canonicalName = Registry.Own names ->
    exists t',
      Registry.addFieldMapping t canonicalName fieldName = Some t'
      /\ (forall obj v,
            Registry.extractFieldWith t obj canonicalName = Some v -> v <> VNull ->
            Registry.extractFieldWith t' obj canonicalName = Some v)
      /\ (forall obj,
            Registry.extractFieldWith t obj canonicalName = Some VNull ->
            Registry.extractFieldWith t' obj canonicalName
            = Some (Normalizer.first_present obj [fieldName]))
      /\ (forall obj other,
            other <> canonicalName ->
            Registry.extractFieldWith t' obj other = Registry.extractFieldWith t obj other)
      /\ Registry.addFieldMapping t' canonicalName fieldName = Some t'.
Proof.
  intros t c f names Hread.
  assert (Hassoc : assoc c t = Some names).
  { unfold Registry.read in Hread. destruct (assoc c t); [congruence |].
    destruct (existsb _ _); discriminate. }
  unfold Registry.addFieldMapping. rewrite Hread.
  destruct (existsb (String.eqb f) names) eqn:Hin.
  - exists t. split; [reflexivity |]. split; [auto |]. split; [| split; [auto |]].
    + intros obj Hnull. unfold Registry.extractFieldWith in *. rewrite Hread in *.
      injection Hnull as Hnull. f_equal. rewrite Hnull.
      apply first_present_null in Hnull. simpl.
      destruct (Normalizer.present obj f) eqn:Hp; [| reflexivity].
      assert (existsb (Normalizer.present obj) names = true); [| congruence].
      apply existsb_exists in Hin. destruct Hin as (x & Hx & Hfx).
      apply String.eqb_eq in Hfx. subst x.
      apply existsb_exists. exists f. split; assumption.
    + rewrite Hread, Hin. reflexivity.
  - exists (Registry.push t c f).
    assert (Hread' : Registry.read (Registry.push t c f) c
                     = Registry.Own (names ++ [f])%list).
    { unfold Registry.read. rewrite (assoc_push_same t c f names Hassoc). reflexivity. }
    split; [reflexivity |]. split; [| split; [| split]].
    + intros obj v Hv Hn. unfold Registry.extractFieldWith in *.
      rewrite Hread in Hv. rewrite Hread'. injection Hv as <-. f_equal.
      rewrite first_present_app.
      destruct (existsb (Normalizer.present obj) names) eqn:E; [reflexivity |].
      apply first_present_null in E. contradiction.
    + intros obj Hnull. unfold Registry.extractFieldWith in *.
      rewrite Hread in Hnull. rewrite Hread'. injection Hnull as Hnull. f_equal.
      rewrite first_present_app. apply first_present_null in Hnull. rewrite Hnull.
      reflexivity.
    + intros obj other Hne. unfold Registry.extractFieldWith, Registry.read.
      rewrite (assoc_push_other t c f other Hne). reflexivity.
    + rewrite Hread'. rewrite existsb_app. simpl. rewrite String.eqb_refl.
      rewrite orb_true_r. reflexivity.
Qed.

Lemma addFieldMapping_appends_alias_witness :
  exists t',
    Registry.addFieldMapping Registry.initial "amount" "price" = Some t'
    /\ (forall obj v,
          Registry.extractFieldWith Registry.initial obj "amount" = Some v -> v <> VNull ->
          Registry.extractFieldWith t' obj "amount" = Some v)
    /\ (forall obj,
          Registry.extractFieldWith Registry.initial obj "amount" = Some VNull ->
          Registry.extractFieldWith t' obj "amount"
          = Some (Normalizer.first_present obj ["price"]))
    /\ (forall obj other,
          other <> "amount" ->
          Registry.extractFieldWith t' obj other
          = Registry.extractFieldWith Registry.initial obj other)
    /\ Registry.addFieldMapping t' "amount" "price" = Some t'.
Proof.
  apply (addFieldMapping_appends_alias Registry.initial "amount" "price"
           ["amount"; "value"; "quantity"; "total"; "sum"]).
  reflexivity.
Defined.

(** X7: on a canonical name the table does not have, [extractField] looks
    the name itself up; once [addFieldMapping] has given it a first alias,
    only that alias is looked up: an object that has the field under the
    canonical name and not under the alias is no longer resolved. *)
Theorem addFieldMapping_replaces_default_name :
  forall t canonicalName fieldName,
    Registry.read t canonicalName = Registry.Absent ->
    exists t',
      Registry.addFieldMapping t canonicalName fieldName = Some t'
      /\ (forall obj,
            Registry.extractFieldWith t obj canonicalName
            = Some (Normalizer.first_present obj [canonicalName]))
      /\ (forall obj,
            Registry.extractFieldWith t' obj canonicalName
            = Some (Normalizer.first_present obj [fieldName]))
      /\ (forall obj,
            Normalizer.present obj canonicalName = true ->
            Normalizer.present obj fieldName = false ->
            Registry.extractFieldWith t obj canonicalName <> Some VNull
            /\ Registry.extractFieldWith t' obj canonicalName = Some VNull).
Proof.
  intros t c f Hread.
  assert (Hassoc : assoc c t = None).
  { unfold Registry.read in Hread. destruct (assoc c t); [discriminate | reflexivity]. }
  assert (Hread' : Registry.read (t ++ [(c, [f])])%list c = Registry.Own [f]).
  { unfold Registry.read.
    assert (H : forall (l : Registry.mappings),
               assoc c l = None -> assoc c (l ++ [(c, [f])])%list = Some [f]).
    { induction l as [| [c0 n0] l IH]; simpl.
      - rewrite String.eqb_refl. reflexivity.
      - destruct (c0 =? c)%string; [discriminate | exact IH]. }
    rewrite (H t Hassoc). reflexivity. }
  unfold Registry.addFieldMapping. rewrite Hread.
  eexists. split; [reflexivity |].
  unfold Registry.extractFieldWith. rewrite Hread, Hread'.
  split; [reflexivity |]. split; [reflexivity |].
  intros obj Hc Hf. simpl. rewrite Hc, Hf. split; [| reflexivity].
  destruct (present_value obj c Hc) as (v & -> & Hn & _). congruence.
Qed.

Lemma addFieldMapping_replaces_default_name_witness :
  exists t',
    Registry.addFieldMapping Registry.initial "region" "area" = Some t'
    /\ (forall obj,
          Registry.extractFieldWith Registry.initial obj "region"
          = Some (Normalizer.first_present obj ["region"]))
    /\ (forall obj,
          Registry.extractFieldWith t' obj "region"
          = Some (Normalizer.first_present obj ["area"]))
    /\ (forall obj,
          Normalizer.present obj "region" = true ->
          Normalizer.present obj "area" = false ->
          Registry.extractFieldWith Registry.initial obj "region" <> Some VNull
          /\ Registry.extractFieldWith t' obj "region" = Some VNull).
Proof.
  apply (addFieldMapping_replaces_default_name Registry.initial "region" "area").
  reflexivity.
Defined.

(** * Further properties of the store and of the service *)

Import Audit.

(** ** Steps of the manager, with the log and the file *)

Lemma logProcessing_audit h e a s m st :
  idle st ->
  exists st', IdempotencyHandler.logProcessing h e a s m st = (Return tt, st')
              /\ logs st' = (logs st ++ [new_log h e a s m st])%list
              /\ saved st'.
Proof.
  destruct st as [[c j l] i f]. unfold idle, logs, saved, new_log. simpl. intros [-> ->].
  unfold IdempotencyHandler.logProcessing, run, bind, on_db, db_run, save, export, ret.
  simpl. destruct (export_reopens h); simpl;
    (eexists; split; [reflexivity | split; reflexivity]).
Qed.

Lemma recordFailure_audit h e raw msg ty st :
  idle st ->
  raw_for e st = None ->
  exists st',
    EventService.recordFailure h e raw msg ty st = (Return tt, st')
    /\ logs st' = logs st /\ saved st'.
Proof.
  intros Hidle Hmiss. apply raw_for_none_existsb in Hmiss.
  destruct st as [[c j l] i f]. unfold idle, raws, logs, saved in *.
  simpl in *. destruct Hidle as [-> ->].
  unfold EventService.recordFailure, IdempotencyHandler.storeRawEvent,
    IdempotencyHandler.storeFailedEvent, run, try_catch, bind, on_db, save, export,
    db_run, throw, ret.
  cbn -[includes JSON_stringify next_rowid]. rewrite Hmiss.
  destruct (export_reopens h); cbn -[includes JSON_stringify next_rowid].
  - eexists. split; [reflexivity |]. cbn. split; reflexivity.
  - rewrite next_rowid_nonzero. cbn -[includes JSON_stringify next_rowid].
    eexists. split; [reflexivity |]. cbn -[JSON_stringify next_rowid]. split; reflexivity.
Qed.

Lemma processTransaction_audit h sim e raw d st :
  idle st ->
  raw_for e st = None ->
  exists r st',
    EventService.processTransaction h sim e raw d st = (r, st')
    /\ logs st' = logs st /\ file st' = file st.
Proof.
  intros Hidle Hmiss. apply raw_for_none_existsb in Hmiss.
  destruct st as [[c j l] i f]. unfold idle, raws, logs in *. simpl in *.
  destruct Hidle as [-> ->].
  unfold EventService.processTransaction, transaction, IdempotencyHandler.storeRawEvent,
    IdempotencyHandler.storeNormalizedEvent,
    run, try_catch, bind, on_db, set_inTransaction, save, db_run, BEGIN, COMMIT, ROLLBACK,
    throw, ret.
  cbn -[includes JSON_stringify next_rowid]. rewrite Hmiss.
  cbn -[includes JSON_stringify next_rowid]. rewrite next_rowid_nonzero.
  destruct sim; cbn -[JSON_stringify next_rowid];
    (eexists; eexists; split; [reflexivity | split; reflexivity]).
Qed.

(** Two results of the same computation are the same: [E'] is rewritten
    with [E] and its variables are replaced by those of [E]. *)
Ltac same_state E E' := rewrite E in E'; injection E' as <-.
Ltac same_result E E' := rewrite E in E'; injection E' as <- <-.

(** ** The four ways through [ingestEvent], with the log and the file *)

Lemma ingestEvent_audit h rawEvent (simulateFailure : bool) st :
  idle st ->
  let eh := IdempotencyHandler.generateEventHash rawEvent in
  let r := Normalizer.normalize h rawEvent in
  let outcome :=
    match raw_for eh st with
    | Some _ => ("ingest", "duplicate", Some "Event already processed")
    | None =>
        if Normalizer.success r then
          if simulateFailure
          then ("persist", "failed", Some "Simulated database failure")
          else ("ingest", "success", Some "Event processed successfully")
        else ("normalize", "failed", Some (join "; " (Normalizer.errors r)))
    end in
  exists res st' first second,
    EventService.ingestEvent h rawEvent simulateFailure st = (res, st')
    /\ logs st' = (logs st ++ [first; second])%list
    /\ first = new_log h eh "ingest" "started" None st
    /\ le_event_hash second = eh
    /\ (le_action second, le_status second, le_message second) = outcome
    /\ saved st'.
Proof.
  intros Hidle eh r outcome. subst outcome.
  destruct (logProcessing_idle h eh "ingest" "started" None st Hidle)
    as (st1 & E1 & I1 & S1).
  destruct (logProcessing_audit h eh "ingest" "started" None st Hidle)
    as (st1' & E1' & L1 & _).
  same_state E1 E1'.
  destruct (raw_for eh st) as [re |] eqn:Hraw.
  - (* duplicate *)
    assert (Hraw1 : raw_for eh st1 = Some re)
      by (rewrite (raw_for_same st st1); assumption).
    destruct (logProcessing_audit h eh "ingest" "duplicate"
                (Some "Event already processed") st1 I1) as (st2 & E2 & L2 & F2).
    eexists. exists st2. eexists. eexists. split.
    + unfold EventService.ingestEvent. fold eh. first_step E1. unfold try_catch.
      first_step (checkDuplicate_hit eh st1 re Hraw1). first_step E2. reflexivity.
    + rewrite L2, L1, <- app_assoc. repeat split; try reflexivity. exact F2.
  - assert (Hmiss1 : raw_for eh st1 = None)
      by (rewrite (raw_for_same st st1); assumption).
    destruct (Normalizer.success r) eqn:Hok.
    + destruct (normalize_success h rawEvent Hok) as (d & Hd & _). fold r in Hd.
      destruct simulateFailure.
      * (* injected fault *)
        destruct (processTransaction_simulated h eh rawEvent d st1 I1 Hmiss1)
          as (st2 & E2 & I2 & C2).
        destruct (processTransaction_audit h true eh rawEvent d st1 I1 Hmiss1)
          as (res2 & st2' & E2' & L2 & F2).
        same_result E2 E2'.
        assert (S2 : same_events st1 st2)
          by (unfold same_events, raws, norms, fails; rewrite C2; repeat split).
        destruct (logProcessing_idle h eh "persist" "failed"
                    (Some "Simulated database failure") st2 I2)
          as (st3 & E3 & I3 & S3).
        destruct (logProcessing_audit h eh "persist" "failed"
                    (Some "Simulated database failure") st2 I2) as (st3' & E3' & L3 & _).
        same_state E3 E3'.
        assert (Hmiss3 : raw_for eh st3 = None).
        { rewrite (raw_for_same st2 st3) by assumption.
          rewrite (raw_for_same st1 st2) by assumption. assumption. }
        destruct (recordFailure_audit h eh rawEvent "Simulated database failure"
                    "persistence_error" st3 I3 Hmiss3) as (st4 & E4 & L4 & F4).
        eexists. exists st4. eexists. eexists. split.
        -- unfold EventService.ingestEvent. fold eh. fold r. first_step E1.
           unfold try_catch at 1. first_step (checkDuplicate_miss eh st1 Hmiss1).
           rewrite Hok, Hd. unfold try_catch at 1. first_step E2.
           cbn [Database.message]. first_step E3. unfold bind at 1, try_catch.
           rewrite E4. reflexivity.
        -- rewrite L4, L3, L2, L1, <- app_assoc.
           repeat split; try reflexivity. exact F4.
      * (* committed *)
        destruct (processTransaction_commits h eh rawEvent d st1 I1 Hmiss1)
          as (st2 & E2 & I2 & _).
        destruct (processTransaction_audit h false eh rawEvent d st1 I1 Hmiss1)
          as (res2 & st2' & E2' & L2 & F2).
        same_result E2 E2'.
        destruct (logProcessing_audit h eh "ingest" "success"
                    (Some "Event processed successfully") st2 I2)
          as (st3 & E3 & L3 & F3).
        eexists. exists st3. eexists. eexists. split.
        -- unfold EventService.ingestEvent. fold eh. fold r. first_step E1.
           unfold try_catch at 1. first_step (checkDuplicate_miss eh st1 Hmiss1).
           rewrite Hok, Hd. unfold try_catch at 1. first_step E2. first_step E3.
           reflexivity.
        -- rewrite L3, L2, L1, <- app_assoc.
           repeat split; try reflexivity. exact F3.
    + (* validation failure *)
      destruct (recordFailure_fresh h eh rawEvent (join "; " (Normalizer.errors r))
                  "validation_error" st1 I1 Hmiss1) as (st2 & E2 & I2 & _).
      destruct (recordFailure_audit h eh rawEvent (join "; " (Normalizer.errors r))
                  "validation_error" st1 I1 Hmiss1) as (st2' & E2' & L2 & _).
      same_state E2 E2'.
      destruct (logProcessing_audit h eh "normalize" "failed"
                  (Some (join "; " (Normalizer.errors r))) st2 I2)
        as (st3 & E3 & L3 & F3).
      eexists. exists st3. eexists. eexists. split.
      * unfold EventService.ingestEvent. fold eh. fold r. first_step E1.
        unfold try_catch. first_step (checkDuplicate_miss eh st1 Hmiss1).
        rewrite Hok. first_step E2. first_step E3. reflexivity.
      * rewrite L3, L2, L1, <- app_assoc.
        repeat split; try reflexivity. exact F3.
Qed.

(** X8: every request leaves exactly two entries in the processing log, both
    under its fingerprint: [ingest/started] first, then the one that names
    how the request ended ([ingest/duplicate], [normalize/failed] with the
    errors, [persist/failed] with the error text, or [ingest/success]).
    Earlier entries are kept. *)
Theorem every_request_is_logged_twice :
  forall h rawEvent (simulateFailure : bool) st,
    idle st ->
    let eh := IdempotencyHandler.generateEventHash rawEvent in
    let r := Normalizer.normalize h rawEvent in
    exists first second,
      logs (snd (EventService.ingestEvent h rawEvent simulateFailure st))
        = (logs st ++ [first; second])%list
      /\ (le_event_hash first, le_action first, le_status first, le_message first)
         = (eh, "ingest", "started", None)
      /\ le_event_hash second = eh
      /\ (le_action second, le_status second, le_message second) =
         match raw_for eh st with
         | Some _ => ("ingest", "duplicate", Some "Event already processed")
         | None =>
             if Normalizer.success r then
               if simulateFailure
               then ("persist", "failed", Some "Simulated database failure")
               else ("ingest", "success", Some "Event processed successfully")
             else ("normalize", "failed", Some (join "; " (Normalizer.errors r)))
         end.
Proof.
  intros h rawEvent sim st Hidle eh r.
  destruct (ingestEvent_audit h rawEvent sim st Hidle)
    as (res & st' & first & second & E & L & F & H2 & O & _).
  exists first, second. rewrite E. simpl snd.
  split; [exact L |]. split; [rewrite F; reflexivity |]. split; assumption.
Qed.

Lemma every_request_is_logged_twice_witness :
  exists first second,
    logs (snd (EventService.ingestEvent Examples.strict_host Examples.testEvent true
                 EventService.init))
      = (logs EventService.init ++ [first; second])%list
    /\ (le_event_hash first, le_action first, le_status first, le_message first)
       = (IdempotencyHandler.generateEventHash Examples.testEvent,
          "ingest", "started", None)
    /\ le_event_hash second = IdempotencyHandler.generateEventHash Examples.testEvent
    /\ (le_action second, le_status second, le_message second) =
       match raw_for (IdempotencyHandler.generateEventHash Examples.testEvent)
               EventService.init with
       | Some _ => ("ingest", "duplicate", Some "Event already processed")
       | None =>
           if Normalizer.success
                (Normalizer.normalize Examples.strict_host Examples.testEvent) then
             if true
             then ("persist", "failed", Some "Simulated database failure")
             else ("ingest", "success", Some "Event processed successfully")
           else ("normalize", "failed",
                 Some (join "; " (Normalizer.errors
                         (Normalizer.normalize Examples.strict_host Examples.testEvent))))
       end.
Proof.
  apply (every_request_is_logged_twice Examples.strict_host Examples.testEvent true
           EventService.init).
  split; reflexivity.
Defined.

(** X9: when [ingestEvent] returns, the database file holds the contents of
    the database, whichever way the request went: the last statement of
    every path runs outside the transaction and is followed by [save()]. *)
Theorem file_holds_database_after_request :
  forall h rawEvent simulateFailure st,
    idle st ->
    saved (snd (EventService.ingestEvent h rawEvent simulateFailure st)).
Proof.
  intros h rawEvent sim st Hidle.
  destruct (ingestEvent_audit h rawEvent sim st Hidle)
    as (res & st' & first & second & E & _ & _ & _ & _ & F).
  rewrite E. exact F.
Qed.

Lemma file_holds_database_after_request_witness :
  saved (snd (EventService.ingestEvent Examples.strict_host Examples.testEvent false
                EventService.init)).
Proof.
  apply (file_holds_database_after_request Examples.strict_host Examples.testEvent false
           EventService.init).
  split; reflexivity.
Defined.

(** X10: [transaction] itself does not write a committed unit to the file:
    its [save()] runs while [inTransaction] is still [true].  After the
    persist unit has committed, the database holds the new RawEvent and the
    file is the one from before. *)
Theorem committed_unit_is_not_saved_by_transaction :
  forall h e raw d st,
    idle st ->
    raw_for e st = None ->
    exists ids st',
      EventService.processTransaction h false e raw d st = (Return ids, st')
      /\ raws st' = (raws st ++ [new_raw h e raw st])%list
      /\ file st' = file st
      /\ (saved st -> content (db st') <> file st').
Proof.
  intros h e raw d st Hidle Hmiss.
  destruct (processTransaction_commits h e raw d st Hidle Hmiss)
    as (st' & E & _ & R & _).
  destruct (processTransaction_audit h false e raw d st Hidle Hmiss)
    as (res' & st'' & E' & _ & F).
  same_result E E'.
  eexists. exists st'. split; [exact E |]. split; [exact R |]. split; [exact F |].
  intros Hs Heq. rewrite F, Hs in Heq. unfold raws in R. rewrite Heq in R.
  apply (f_equal (@List.length raw_event)) in R. rewrite length_app in R.
  simpl in R. lia.
Qed.

Lemma committed_unit_is_not_saved_by_transaction_witness :
  exists ids st',
    EventService.processTransaction Examples.strict_host false "fingerprint"
      Examples.testEvent
      {| Normalizer.client_id := "client_A"; Normalizer.metric := "revenue";
         Normalizer.amount := Dec 12 2;
         Normalizer.timestamp := "2024-01-01T00:00:00.000Z" |}
      EventService.init = (Return ids, st')
    /\ raws st' = (raws EventService.init
                   ++ [new_raw Examples.strict_host "fingerprint" Examples.testEvent
                         EventService.init])%list
    /\ file st' = file EventService.init
    /\ (saved EventService.init -> content (db st') <> file st').
Proof.
  apply (committed_unit_is_not_saved_by_transaction Examples.strict_host "fingerprint"
           Examples.testEvent _ EventService.init).
  - split; reflexivity.
  - reflexivity.
Defined.

(** ** The raw insert when the fingerprint is already stored *)

Lemma raw_for_some_existsb e st re :
  raw_for e st = Some re ->
  existsb (fun r => (re_event_hash r =? e)%string) (raws st) = true.
Proof.
  unfold raw_for. intros H. apply find_some in H. apply existsb_exists.
  exists re. exact H.
Qed.

(** X11: [storeRawEvent] does not throw on a fingerprint that is already
    stored: the UNIQUE violation is turned into [null], and nothing is
    written, neither to the database nor to the file. *)
Theorem storeRawEvent_refuses_stored_fingerprint :
  forall h e rawData st re,
    raw_for e st = Some re ->
    IdempotencyHandler.storeRawEvent h e rawData st = (Return None, st).
Proof.
  intros h e rawData st re Hhit. apply raw_for_some_existsb in Hhit.
  destruct st as [[c j l] i f]. unfold raws in Hhit. simpl in Hhit.
  unfold IdempotencyHandler.storeRawEvent, run, try_catch, bind, on_db, db_run, ret.
  cbn -[includes JSON_stringify next_rowid]. rewrite Hhit.
  cbn -[includes]. rewrite includes_unique. reflexivity.
Qed.

Lemma storeRawEvent_refuses_stored_fingerprint_witness :
  let st := Examples.after Examples.strict_host Examples.testEvent false EventService.init in
  IdempotencyHandler.storeRawEvent Examples.strict_host
    (IdempotencyHandler.generateEventHash Examples.testEvent) Examples.testEvent st
  = (Return None, st).
Proof.
  intros st.
  apply (storeRawEvent_refuses_stored_fingerprint Examples.strict_host _ _ st
           (new_raw Examples.strict_host
              (IdempotencyHandler.generateEventHash Examples.testEvent)
              Examples.testEvent EventService.init)).
  vm_compute. reflexivity.
Defined.

(** X12: the race the persist unit guards against.  If the fingerprint is
    stored by the time the unit runs its raw insert, the unit throws
    [Failed to store raw event (possible race condition)], with or without
    the injected fault, and leaves the contents as they were. *)
Theorem persist_unit_fails_on_stored_fingerprint :
  forall h simulateFailure e raw d st re,
    journal (db st) = None ->
    raw_for e st = Some re ->
    exists st',
      EventService.processTransaction h simulateFailure e raw d st =
        (Throw (mkError "Failed to store raw event (possible race condition)"), st')
      /\ content (db st') = content (db st)
      /\ journal (db st') = None /\ inTransaction st' = false.
Proof.
  intros h sim e raw d st re Hj Hhit. apply raw_for_some_existsb in Hhit.
  destruct st as [[c j l] i f]. unfold raws in Hhit. simpl in *. subst j.
  unfold EventService.processTransaction, transaction, IdempotencyHandler.storeRawEvent,
    run, try_catch, bind, on_db, set_inTransaction, save, db_run, BEGIN, ROLLBACK,
    throw, ret.
  cbn -[includes JSON_stringify next_rowid]. rewrite Hhit.
  cbn -[includes]. rewrite includes_unique. cbn.
  eexists. split; [reflexivity |]. repeat split.
Qed.

Lemma persist_unit_fails_on_stored_fingerprint_witness :
  let st := Examples.after Examples.strict_host Examples.testEvent false EventService.init in
  exists st',
    EventService.processTransaction Examples.strict_host false
      (IdempotencyHandler.generateEventHash Examples.testEvent) Examples.testEvent
      {| Normalizer.client_id := "client_A"; Normalizer.metric := "revenue";
         Normalizer.amount := Dec 12 2;
         Normalizer.timestamp := "2024-01-01T00:00:00.000Z" |} st =
      (Throw (mkError "Failed to store raw event (possible race condition)"), st')
    /\ content (db st') = content (db st)
    /\ journal (db st') = None /\ inTransaction st' = false.
Proof.
  intros st.
  apply (persist_unit_fails_on_stored_fingerprint Examples.strict_host false _ _ _ st
           (new_raw Examples.strict_host
              (IdempotencyHandler.generateEventHash Examples.testEvent)
              Examples.testEvent EventService.init)).
  - vm_compute. reflexivity.
  - vm_compute. reflexivity.
Defined.

(** ** The four ways a request ends *)

Lemma ingestEvent_cases h rawEvent (simulateFailure : bool) st :
  idle st ->
  let eh := IdempotencyHandler.generateEventHash rawEvent in
  let r := Normalizer.normalize h rawEvent in
  exists res st',
    EventService.ingestEvent h rawEvent simulateFailure st = (Return res, st')
    /\ idle st'
    /\ match raw_for eh st with
       | Some re =>
           res = EventService.Duplicate eh (re_received_at re)
                   match normalized_for re st with
                   | Some ne => if ne_id ne =? 0 then None else Some (canonical_of ne)
                   | None => None
                   end
           /\ same_events st st'
       | None =>
           raws st' = (raws st ++ [new_raw h eh rawEvent st])%list
           /\ if Normalizer.success r then
                exists d, Normalizer.data r = Some d
                  /\ if simulateFailure then
                       res = EventService.DatabaseError "Simulated database failure" eh
                       /\ norms st' = norms st
                       /\ fails st' =
                          (if export_reopens h then fails st
                           else (fails st ++
                                 [new_failed h (re_id (new_raw h eh rawEvent st)) eh rawEvent
                                    "Simulated database failure" "persistence_error" st])%list)
                     else
                       res = EventService.Created eh
                               (re_id (new_raw h eh rawEvent st))
                               (ne_id (new_normalized h (re_id (new_raw h eh rawEvent st)) d st))
                               d (Normalizer.warnings r)
                       /\ norms st' =
                          (norms st ++
                           [new_normalized h (re_id (new_raw h eh rawEvent st)) d st])%list
                       /\ fails st' = fails st
              else
                res = EventService.ValidationFailed
                        (Normalizer.errors r) (Normalizer.warnings r) eh
                /\ norms st' = norms st
                /\ fails st' =
                   (if export_reopens h then fails st
                    else (fails st ++
                          [new_failed h (re_id (new_raw h eh rawEvent st)) eh rawEvent
                             (join "; " (Normalizer.errors r)) "validation_error" st])%list)
       end.
Proof.
  intros Hidle eh r.
  destruct (raw_for eh st) as [re |] eqn:Hraw.
  - destruct (ingestEvent_hit h rawEvent simulateFailure st re Hidle Hraw)
      as (st' & E & I & S).
    eexists. exists st'. split; [exact E |]. split; [exact I |]. split; [reflexivity | exact S].
  - destruct (Normalizer.success r) eqn:Hok.
    + destruct (normalize_success h rawEvent Hok) as (d & Hd & _).
      destruct simulateFailure.
      * destruct (ingestEvent_simulated h rawEvent st d Hidle Hraw Hok Hd)
          as (st' & E & I & R & N & F).
        eexists. exists st'. split; [exact E |]. split; [exact I |]. split; [exact R |].
        exists d. split; [exact Hd |]. split; [reflexivity |]. split; assumption.
      * destruct (ingestEvent_created h rawEvent st d Hidle Hraw Hok Hd)
          as (st' & E & I & R & N & F).
        eexists. exists st'. split; [exact E |]. split; [exact I |]. split; [exact R |].
        exists d. split; [exact Hd |]. split; [reflexivity |]. split; assumption.
    + destruct (ingestEvent_invalid h rawEvent simulateFailure st Hidle Hraw Hok)
        as (st' & E & I & R & N & F).
      eexists. exists st'. split; [exact E |]. split; [exact I |]. split; [exact R |].
      split; [reflexivity |]. split; assumption.
Qed.

(** X13: how a request is answered.  [ingestEvent] never rejects: it
    resolves to 200 when the fingerprint is stored, else 400 when
    normalization fails, else 500 (retryable) under the injected fault,
    else 201; the catch-all answer [Unexpected error occurred] is never
    given.  The fingerprint is checked before the content is validated and
    before the fault is injected. *)
Theorem ingestEvent_status :
  forall h rawEvent (simulateFailure : bool) st,
    idle st ->
    exists res st',
      EventService.ingestEvent h rawEvent simulateFailure st = (Return res, st')
      /\ EventService.status res =
         match raw_for (IdempotencyHandler.generateEventHash rawEvent) st with
         | Some _ => 200
         | None =>
             if Normalizer.success (Normalizer.normalize h rawEvent)
             then if simulateFailure then 500 else 201
             else 400
         end
      /\ EventService.retryable res =
         match raw_for (IdempotencyHandler.generateEventHash rawEvent) st with
         | Some _ => false
         | None => Normalizer.success (Normalizer.normalize h rawEvent) && simulateFailure
         end
      /\ EventService.message res <> "Unexpected error occurred".
Proof.
  intros h rawEvent sim st Hidle.
  destruct (ingestEvent_cases h rawEvent sim st Hidle) as (res & st' & E & _ & C).
  exists res, st'. split; [exact E |].
  destruct (raw_for _ st) as [re |].
  - destruct C as [-> _]. repeat split. discriminate.
  - destruct C as [_ C]. destruct (Normalizer.success _).
    + destruct C as (d & _ & C). destruct sim; destruct C as (-> & _);
        (repeat split; discriminate).
    + destruct C as (-> & _). repeat split. discriminate.
Qed.

Lemma ingestEvent_status_witness :
  exists res st',
    EventService.ingestEvent Examples.strict_host Examples.noAmountEvent true
      EventService.init = (Return res, st')
    /\ EventService.status res = 400
    /\ EventService.retryable res = false
    /\ EventService.message res <> "Unexpected error occurred".
Proof.
  apply (ingestEvent_status Examples.strict_host Examples.noAmountEvent true
           EventService.init).
  split; reflexivity.
Defined.

(** ** What the tables keep *)

Lemma fold_max_bounds (ids : list Z) (a x : Z) :
  In x ids -> x <= fold_left Z.max ids a.
Proof.
  revert a. induction ids as [| y ids IH]; intros a; [intros [] |].
  intros [-> | Hin]; simpl.
  - pose proof (fold_max_ge ids (Z.max a x)). lia.
  - apply IH. exact Hin.
Qed.

Lemma next_rowid_fresh seq ids : ~ In (next_rowid seq ids) ids.
Proof.
  intros Hin. apply (fold_max_bounds ids (Z.max seq 0)) in Hin.
  unfold next_rowid in Hin. lia.
Qed.

Lemma NoDup_snoc {A : Type} (l : list A) (x : A) :
  NoDup l -> ~ In x l -> NoDup (l ++ [x]).
Proof.
  induction 1 as [| y l Hy Hl IH]; intros Hx; simpl.
  - constructor; [intros [] | constructor].
  - constructor.
    + rewrite in_app_iff. intros [H | [H | []]]; [exact (Hy H) |].
      apply Hx. left. symmetry. exact H.
    + apply IH. intros H. apply Hx. right. exact H.
Qed.

Lemma raw_for_none_not_in e st :
  raw_for e st = None -> ~ In e (map re_event_hash (raws st)).
Proof.
  unfold raw_for. intros Hnone Hin. apply in_map_iff in Hin.
  destruct Hin as (re & <- & Hin).
  apply (find_none _ _ Hnone) in Hin. rewrite String.eqb_refl in Hin. discriminate.
Qed.

Lemma consistent_init : consistent EventService.init.
Proof.
  unfold consistent. cbn. repeat split; constructor.
Qed.

Lemma consistent_step h rawEvent (simulateFailure : bool) st :
  consistent st ->
  consistent (snd (EventService.ingestEvent h rawEvent simulateFailure st)).
Proof.
  intros (Hidle & Hh & Hi & Hn & Hne & Hfe).
  destruct (ingestEvent_cases h rawEvent simulateFailure st Hidle)
    as (res & st' & E & I & C).
  rewrite E. simpl snd. unfold consistent. split; [exact I |].
  set (eh := IdempotencyHandler.generateEventHash rawEvent) in *.
  destruct (raw_for eh st) as [re |] eqn:Hraw.
  - destruct C as (_ & R & N & F & _). rewrite R, N, F. repeat split; assumption.
  - destruct C as (R & C). rewrite R.
    assert (Hfresh : ~ In (re_id (new_raw h eh rawEvent st)) (map re_id (raws st)))
      by apply next_rowid_fresh.
    assert (Hraws : forall id, In id (map re_id (raws st)) ->
                      In id (map re_id (raws st ++ [new_raw h eh rawEvent st])%list))
      by (intros id Hin; rewrite map_app; apply in_or_app; left; exact Hin).
    assert (Hnew : In (re_id (new_raw h eh rawEvent st))
                      (map re_id (raws st ++ [new_raw h eh rawEvent st])%list))
      by (rewrite map_app; apply in_or_app; right; left; reflexivity).
    assert (Hne' : Forall (fun ne =>
                     In (ne_raw_event_id ne)
                        (map re_id (raws st ++ [new_raw h eh rawEvent st])%list)
                     /\ ne_id ne <> 0) (norms st))
      by (eapply Forall_impl; [| exact Hne]; intros ne [H1 H2]; split;
          [apply Hraws; exact H1 | exact H2]).
    assert (Hfe' : Forall (fun fe => exists id, fe_raw_event_id fe = Some id
                     /\ In id (map re_id (raws st ++ [new_raw h eh rawEvent st])%list))
                     (fails st))
      by (eapply Forall_impl; [| exact Hfe]; intros fe (id & H1 & H2); exists id; split;
          [exact H1 | apply Hraws; exact H2]).
    assert (Hfe'' : Forall (fun fe => exists id, fe_raw_event_id fe = Some id
                     /\ In id (map re_id (raws st ++ [new_raw h eh rawEvent st])%list))
                     (fails st) ->
                   forall msg ty,
                   Forall (fun fe => exists id, fe_raw_event_id fe = Some id
                     /\ In id (map re_id (raws st ++ [new_raw h eh rawEvent st])%list))
                     (if export_reopens h then fails st
                      else (fails st ++
                            [new_failed h (re_id (new_raw h eh rawEvent st)) eh rawEvent
                               msg ty st])%list)).
    { intros H msg ty. destruct (export_reopens h); [exact H |].
      apply Forall_app. split; [exact H |]. constructor; [| constructor].
      eexists. split; [reflexivity | exact Hnew]. }
    split.
    { rewrite map_app. apply NoDup_snoc; [exact Hh |].
      apply raw_for_none_not_in. exact Hraw. }
    split.
    { rewrite map_app. apply NoDup_snoc; [exact Hi | exact Hfresh]. }
    destruct (Normalizer.success (Normalizer.normalize h rawEvent)).
    + destruct C as (d & _ & C). destruct simulateFailure.
      * destruct C as (_ & N & F). rewrite N, F.
        split; [exact Hn |]. split; [exact Hne' |]. apply Hfe''. exact Hfe'.
      * destruct C as (_ & N & F). rewrite N, F. split.
        { rewrite map_app. apply NoDup_snoc; [exact Hn |]. simpl.
          intros Hin. apply Hfresh. apply in_map_iff in Hin.
          destruct Hin as (ne & Heq & Hin).
          rewrite Forall_forall in Hne. destruct (Hne ne Hin) as [H1 _].
          rewrite Heq in H1. exact H1. }
        split; [| exact Hfe'].
        apply Forall_app. split; [exact Hne' |]. constructor; [| constructor].
        split; [exact Hnew |]. simpl.
        pose proof (next_rowid_positive
                      (seq_normalized_events (sqlite_sequence (content (db st))))
                      (map ne_id (norms st))). lia.
    + destruct C as (_ & N & F). rewrite N, F.
      split; [exact Hn |]. split; [exact Hne' |]. apply Hfe''. exact Hfe'.
Qed.

Lemma later_consistent hosts st st' : consistent st -> later hosts st st' -> consistent st'.
Proof.
  intros Hc. induction 1 as [| h rawEvent sim st' _ _ IH]; [exact Hc |].
  apply consistent_step. exact IH.
Qed.

Lemma reachable_consistent st : reachable st -> consistent st.
Proof. apply later_consistent. exact consistent_init. Qed.

(** X14: the data model holds in every state the service reaches from a new
    database, whatever the requests were and however they ended: no two
    RawEvents share a fingerprint or a key, no RawEvent has two
    NormalizedEvents, and every NormalizedEvent and FailedEvent points to a
    RawEvent that is stored. *)
Theorem data_model_is_kept :
  forall st, reachable st -> consistent st.
Proof.
  exact reachable_consistent.
Qed.

Lemma data_model_is_kept_witness :
  consistent
    (Examples.after Examples.strict_host Examples.testEvent false
       (Examples.after Examples.strict_host Examples.noAmountEvent true
          EventService.init)).
Proof.
  apply (data_model_is_kept
           (Examples.after Examples.strict_host Examples.testEvent false
              (Examples.after Examples.strict_host Examples.noAmountEvent true
                 EventService.init))).
  apply later_step; [exact I |]. apply later_step; [exact I |]. apply later_now.
Defined.

(** ** A stored fingerprint is answered the same way ever after *)

Lemma find_app_found {A : Type} (p : A -> bool) (l l' : list A) (x : A) :
  find p l = Some x -> find p (l ++ l') = Some x.
Proof.
  induction l as [| y l IH]; simpl; [discriminate |].
  destruct (p y); [auto | exact IH].
Qed.

Lemma find_app_skip {A : Type} (p : A -> bool) (l : list A) (x : A) :
  p x = false -> find p (l ++ [x]) = find p l.
Proof.
  intros Hx. induction l as [| y l IH]; simpl.
  - rewrite Hx. reflexivity.
  - destruct (p y); [reflexivity | exact IH].
Qed.

Lemma raw_for_in e st re : raw_for e st = Some re -> In re (raws st).
Proof. unfold raw_for. intros H. apply find_some in H. apply H. Qed.

(** One more request changes neither the RawEvent found for a stored
    fingerprint nor the NormalizedEvent attached to it. *)
Lemma stored_answer_step h rawEvent (simulateFailure : bool) st e re :
  consistent st ->
  raw_for e st = Some re ->
  let st' := snd (EventService.ingestEvent h rawEvent simulateFailure st) in
  raw_for e st' = Some re /\ normalized_for re st' = normalized_for re st.
Proof.
  intros (Hidle & _ & _ & _ & _ & _) Hraw st'. subst st'.
  destruct (ingestEvent_cases h rawEvent simulateFailure st Hidle)
    as (res & st' & E & _ & C).
  rewrite E. simpl snd.
  set (eh := IdempotencyHandler.generateEventHash rawEvent) in *.
  destruct (raw_for eh st) as [re' |] eqn:Hraw'.
  - destruct C as (_ & S). split.
    + rewrite (raw_for_same st st' e S). exact Hraw.
    + apply normalized_for_same. exact S.
  - destruct C as (R & C).
    assert (Hfound : raw_for e st' = Some re)
      by (unfold raw_for in *; rewrite R; apply find_app_found; exact Hraw).
    split; [exact Hfound |].
    assert (Hne : (next_rowid (seq_raw_events (sqlite_sequence (content (db st))))
                     (map re_id (raws st)) =? re_id re) = false).
    { apply Z.eqb_neq. intros Heq.
      apply (next_rowid_fresh (seq_raw_events (sqlite_sequence (content (db st))))
               (map re_id (raws st))).
      rewrite Heq. apply in_map. apply (raw_for_in e). exact Hraw. }
    destruct (Normalizer.success (Normalizer.normalize h rawEvent)).
    + destruct C as (d & _ & C). destruct simulateFailure.
      * destruct C as (_ & N & _). unfold normalized_for. rewrite N. reflexivity.
      * destruct C as (_ & N & _). unfold normalized_for. rewrite N.
        apply find_app_skip. simpl. exact Hne.
    + destruct C as (_ & N & _). unfold normalized_for. rewrite N. reflexivity.
Qed.

Lemma stored_answer_later hosts st st' e re :
  consistent st ->
  raw_for e st = Some re ->
  later hosts st st' ->
  raw_for e st' = Some re /\ normalized_for re st' = normalized_for re st.
Proof.
  intros Hc Hraw. induction 1 as [| h rawEvent sim st' _ Hl [IH1 IH2]].
  - split; [exact Hraw | reflexivity].
  - destruct (stored_answer_step h rawEvent sim st' e re
                (later_consistent hosts st st' Hc Hl) IH1) as [H1 H2].
    split; [exact H1 |]. rewrite H2. exact IH2.
Qed.

Lemma canonical_of_new h id d st : canonical_of (new_normalized h id d st) = d.
Proof. destruct d. reflexivity. Qed.

(** X15: the first result is the one returned ever after.  Once an event
    has been accepted, with canonical data [d], on a host whose clock read
    [CURRENT_TIMESTAMP h], every later submission of an event with the same
    fingerprint (the same event or another one), after any number of other
    requests, on any host and with or without the injected fault, is
    answered as a duplicate carrying [d] and that first time, and leaves the
    three event tables as they are. *)
Theorem first_result_is_returned_ever_after :
  forall h rawEvent d st hosts st2 h2 rawEvent' (simulateFailure : bool),
    let eh := IdempotencyHandler.generateEventHash rawEvent in
    consistent st ->
    raw_for eh st = None ->
    Normalizer.data (Normalizer.normalize h rawEvent) = Some d ->
    Normalizer.success (Normalizer.normalize h rawEvent) = true ->
    later hosts (snd (EventService.ingestEvent h rawEvent false st)) st2 ->
    IdempotencyHandler.generateEventHash rawEvent' = eh ->
    exists st3,
      EventService.ingestEvent h2 rawEvent' simulateFailure st2 =
        (Return (EventService.Duplicate eh (CURRENT_TIMESTAMP h) (Some d)), st3)
      /\ same_events st2 st3.
Proof.
  intros h rawEvent d st hosts st2 h2 rawEvent' sim eh Hc Hmiss Hd Hok Hl Hsame.
  pose proof (consistent_step h rawEvent false st Hc) as Hc1.
  destruct Hc as (Hidle & _ & _ & _ & Hne & _).
  destruct (ingestEvent_created h rawEvent st d Hidle Hmiss Hok Hd)
    as (st1 & E & I1 & R & N & F).
  rewrite E in Hl, Hc1. simpl snd in Hl, Hc1. fold eh in R, N.
  set (re := new_raw h eh rawEvent st) in *.
  assert (Hraw1 : raw_for eh st1 = Some re) by (apply raw_for_new; assumption).
  assert (Hnorm1 : normalized_for re st1 = Some (new_normalized h (re_id re) d st)).
  { unfold normalized_for. rewrite N. apply find_app_new; [| apply Z.eqb_refl].
    destruct (find _ (norms st)) as [ne |] eqn:Hf; [| reflexivity].
    apply find_some in Hf. destruct Hf as [Hin Heq]. apply Z.eqb_eq in Heq.
    rewrite Forall_forall in Hne. destruct (Hne ne Hin) as [Hin' _].
    rewrite Heq in Hin'. exfalso.
    exact (next_rowid_fresh _ _ Hin'). }
  destruct (stored_answer_later hosts st1 st2 eh re Hc1 Hraw1 Hl) as [Hraw2 Hnorm2].
  destruct (later_consistent hosts st1 st2 Hc1 Hl) as (I2 & _).
  rewrite <- Hsame in Hraw2.
  destruct (ingestEvent_hit h2 rawEvent' sim st2 re I2 Hraw2) as (st3 & E3 & _ & S3).
  exists st3. split; [| exact S3]. rewrite E3. rewrite Hsame, Hnorm2, Hnorm1.
  rewrite canonical_of_new.
  replace (ne_id (new_normalized h (re_id re) d st) =? 0) with false
    by (symmetry; apply next_rowid_nonzero).
  reflexivity.
Qed.

(** The event of test.js is accepted; after another request, its rewriting
    by another client is answered with the first result. *)
Lemma first_result_is_returned_ever_after_witness :
  exists st3,
    EventService.ingestEvent Examples.reopening_host Examples.rewrittenEvent true
      (Examples.after Examples.strict_host Examples.noAmountEvent false
         (Examples.after Examples.strict_host Examples.testEvent false
            EventService.init)) =
      (Return (EventService.Duplicate
                 (IdempotencyHandler.generateEventHash Examples.testEvent)
                 (CURRENT_TIMESTAMP Examples.strict_host)
                 (Some {| Normalizer.client_id := "client_A";
                          Normalizer.metric := "revenue";
                          Normalizer.amount := Dec 12 2;
                          Normalizer.timestamp := "2024-01-01T00:00:00.000Z" |})), st3)
      /\ same_events
           (Examples.after Examples.strict_host Examples.noAmountEvent false
              (Examples.after Examples.strict_host Examples.testEvent false
                 EventService.init)) st3.
Proof.
  apply (first_result_is_returned_ever_after Examples.strict_host Examples.testEvent
           _ EventService.init any_host _ Examples.reopening_host
           Examples.rewrittenEvent true).
  - unfold consistent. cbn. repeat split; constructor.
  - reflexivity.
  - vm_compute. reflexivity.
  - vm_compute. reflexivity.
  - apply later_step; [exact I |]. apply later_now.
  - vm_compute. reflexivity.
Defined.

(** ** No event is counted twice *)

(** Two stored RawEvents with the same fingerprint are the same row. *)
Lemma fingerprint_names_one_row (rows : list raw_event) (r1 r2 : raw_event) :
  NoDup (map re_event_hash rows) ->
  In r1 rows -> In r2 rows -> re_event_hash r1 = re_event_hash r2 -> r1 = r2.
Proof.
  induction rows as [| r rows IH]; [intros _ [] |].
  cbn [map In]. intros Hnd H1 H2 Heq.
  apply NoDup_cons_iff in Hnd. destruct Hnd as [Hfresh Hnd].
  destruct H1 as [E1 | H1], H2 as [E2 | H2].
  - congruence.
  - subst r1. contradict Hfresh. rewrite Heq. exact (in_map re_event_hash rows r2 H2).
  - subst r2. contradict Hfresh. rewrite <- Heq. exact (in_map re_event_hash rows r1 H1).
  - exact (IH Hnd H1 H2 Heq).
Qed.

(** A selection of NormalizedEvents still has one row per RawEvent at most. *)
Lemma selection_keeps_one_per_raw (keep : normalized_event -> bool)
                                  (rows : list normalized_event) :
  NoDup (map ne_raw_event_id rows) ->
  NoDup (map ne_raw_event_id (filter keep rows)).
Proof.
  induction rows as [| ne rows IH]; cbn [map filter]; [trivial |].
  intros Hnd. apply NoDup_cons_iff in Hnd. destruct Hnd as [Hfresh Hnd].
  destruct (keep ne); [| exact (IH Hnd)].
  cbn [map]. apply NoDup_cons; [| exact (IH Hnd)].
  contradict Hfresh. apply in_map_iff in Hfresh.
  destruct Hfresh as (other & Hid & Hin). rewrite <- Hid.
  apply in_map. apply filter_In in Hin. exact (proj1 Hin).
Qed.

Lemma normalized_with_key e st ne :
  In ne (normalized_with e st) ->
  exists re, In re (raws st) /\ re_event_hash re = e /\ re_id re = ne_raw_event_id ne.
Proof.
  unfold normalized_with. intros Hin. apply filter_In in Hin. destruct Hin as [_ Hex].
  apply existsb_exists in Hex. destruct Hex as (re & Hre & Hb).
  apply andb_true_iff in Hb. destruct Hb as [Hh Hi].
  exists re. split; [exact Hre |]. split; [apply String.eqb_eq | apply Z.eqb_eq]; assumption.
Qed.

Lemma consistent_counts_once e st :
  consistent st -> (List.length (normalized_with e st) <= 1)%nat.
Proof.
  intros (_ & Hh & _ & Hn & _ & _).
  pose proof (selection_keeps_one_per_raw
                (fun ne => existsb (fun re => (re_event_hash re =? e)%string
                                              && (re_id re =? ne_raw_event_id ne))
                                   (raws st)) (norms st) Hn) as Hnd.
  fold (normalized_with e st) in Hnd.
  destruct (normalized_with e st) as [| a [| b l]] eqn:Hl; simpl; [lia | lia |].
  exfalso.
  destruct (normalized_with_key e st a) as (ra & Ha & Hha & Hia);
    [rewrite Hl; left; reflexivity |].
  destruct (normalized_with_key e st b) as (rb & Hb & Hhb & Hib);
    [rewrite Hl; right; left; reflexivity |].
  assert (ra = rb)
    by (apply (fingerprint_names_one_row (raws st)); [assumption .. | congruence]).
  subst rb. simpl in Hnd. inversion Hnd as [| ? ? Hnotin _]; subst.
  apply Hnotin. left. congruence.
Qed.

(** X16: no event is counted twice.  In every state the service reaches
    from a new database, the join of NormalizedEvents with RawEvents that
    the listings and aggregations read has at most one row per fingerprint,
    however often and in whatever form the event was submitted. *)
Theorem one_normalized_event_per_fingerprint :
  forall st eventHash,
    reachable st -> (List.length (normalized_with eventHash st) <= 1)%nat.
Proof.
  intros st e Hr. apply consistent_counts_once. apply reachable_consistent. exact Hr.
Qed.

Lemma one_normalized_event_per_fingerprint_witness :
  (List.length
     (normalized_with (IdempotencyHandler.generateEventHash Examples.testEvent)
        (Examples.after Examples.strict_host Examples.rewrittenEvent false
           (Examples.after Examples.strict_host Examples.testEvent false
              EventService.init))) <= 1)%nat.
Proof.
  apply (one_normalized_event_per_fingerprint
           (Examples.after Examples.strict_host Examples.rewrittenEvent false
              (Examples.after Examples.strict_host Examples.testEvent false
                 EventService.init))).
  apply later_step; [exact I |]. apply later_step; [exact I |]. apply later_now.
Defined.

(** ** [getStats] *)

(** X17: a duplicate moves no statistic: [getStats] returns after the
    request what it returned before it. *)
Theorem duplicate_changes_no_statistic :
  forall h rawEvent simulateFailure st re,
    idle st ->
    raw_for (IdempotencyHandler.generateEventHash rawEvent) st = Some re ->
    Stats.getStats (snd (EventService.ingestEvent h rawEvent simulateFailure st))
    = Stats.getStats st.
Proof.
  intros h rawEvent sim st re Hidle Hraw.
  destruct (ingestEvent_hit h rawEvent sim st re Hidle Hraw) as (st' & E & _ & S).
  rewrite E. simpl snd. destruct S as (R & N & F & _).
  unfold Stats.getStats. rewrite R, N, F. reflexivity.
Qed.

Lemma duplicate_changes_no_statistic_witness :
  let st := Examples.after Examples.strict_host Examples.testEvent false EventService.init in
  Stats.getStats (snd (EventService.ingestEvent Examples.strict_host
                         Examples.rewrittenEvent false st))
  = Stats.getStats st.
Proof.
  intros st.
  apply (duplicate_changes_no_statistic Examples.strict_host Examples.rewrittenEvent
           false st
           (new_raw Examples.strict_host
              (IdempotencyHandler.generateEventHash Examples.testEvent)
              Examples.testEvent EventService.init)).
  - split; reflexivity.
  - vm_compute. reflexivity.
Defined.

(** X18: [duplicateCount] does not count duplicates.  It is computed as
    [totalRaw - totalProcessed - totalFailed].  A duplicate leaves it as it
    is, and so does a first submission that is accepted.  A first submission
    that fails, by validation or by the injected fault, leaves it as it is
    where [export()] keeps the connection, and raises it by one where
    [export()] reopens the connection, since the RawEvent is then stored
    without a FailedEvent. *)
Theorem duplicateCount_counts_failures_not_duplicates :
  forall h rawEvent (simulateFailure : bool) st,
    idle st ->
    let eh := IdempotencyHandler.generateEventHash rawEvent in
    let st' := snd (EventService.ingestEvent h rawEvent simulateFailure st) in
    let accepted :=
      Normalizer.success (Normalizer.normalize h rawEvent) && negb simulateFailure in
    Stats.duplicateCount (Stats.getStats st')
    = Stats.duplicateCount (Stats.getStats st)
      + match raw_for eh st with
        | Some _ => 0
        | None => if negb accepted && export_reopens h then 1 else 0
        end.
Proof.
  intros h rawEvent sim st Hidle eh st' accepted. subst st' accepted.
  destruct (ingestEvent_cases h rawEvent sim st Hidle) as (res & st' & E & _ & C).
  rewrite E. simpl snd. fold eh in C. unfold Stats.getStats. simpl.
  destruct (raw_for eh st) as [re |].
  - destruct C as (_ & R & N & F & _). rewrite R, N, F. lia.
  - destruct C as (R & C). rewrite R.
    destruct (Normalizer.success _).
    + destruct C as (d & _ & C). destruct sim;
        destruct C as (_ & N & F); rewrite N, F; destruct (export_reopens h);
        rewrite ?length_app; simpl; lia.
    + destruct C as (_ & N & F). rewrite N, F. destruct (export_reopens h);
        rewrite ?length_app; simpl; lia.
Qed.

(** With [export()] reopening the connection, the payload without amount
    makes [duplicateCount] 1 on a new database, where nothing was sent
    twice. *)
Lemma duplicateCount_counts_failures_not_duplicates_witness :
  Stats.duplicateCount
    (Stats.getStats (snd (EventService.ingestEvent Examples.reopening_host
                            Examples.noAmountEvent false EventService.init)))
  = Stats.duplicateCount (Stats.getStats EventService.init) + 1.
Proof.
  etransitivity.
  - apply (duplicateCount_counts_failures_not_duplicates Examples.reopening_host
             Examples.noAmountEvent false EventService.init).
    split; reflexivity.
  - vm_compute. reflexivity.
Defined.

(** ** The two ends of a first submission *)

(** X19: an accepted event.  A first submission that passes normalization,
    without the injected fault, is answered 201 with the canonical data, and
    the two keys in the answer are those of the rows it stored: one RawEvent
    holding the fingerprint and the JSON text of the event as received, and
    one NormalizedEvent attached to it, with status [processed] and the
    canonical fields.  Both keys are new and positive; no FailedEvent is
    written. *)
Theorem accepted_event_is_stored :
  forall h rawEvent st,
    let eh := IdempotencyHandler.generateEventHash rawEvent in
    let r := Normalizer.normalize h rawEvent in
    idle st ->
    raw_for eh st = None ->
    Normalizer.success r = true ->
    exists d rawEventId normalizedEventId re ne st',
      Normalizer.data r = Some d
      /\ EventService.ingestEvent h rawEvent false st =
           (Return (EventService.Created eh rawEventId normalizedEventId d
                      (Normalizer.warnings r)), st')
      /\ raws st' = (raws st ++ [re])%list
      /\ norms st' = (norms st ++ [ne])%list
      /\ fails st' = fails st
      /\ (re_id re, re_event_hash re, re_raw_data re)
         = (rawEventId, eh, JSON_stringify rawEvent)
      /\ (ne_id ne, ne_raw_event_id ne, ne_status ne, canonical_of ne)
         = (normalizedEventId, rawEventId, "processed", d)
      /\ 0 < rawEventId /\ ~ In rawEventId (map re_id (raws st))
      /\ 0 < normalizedEventId /\ ~ In normalizedEventId (map ne_id (norms st)).
Proof.
  intros h rawEvent st eh r Hidle Hmiss Hok.
  destruct (normalize_success h rawEvent Hok) as (d & Hd & _).
  destruct (ingestEvent_created h rawEvent st d Hidle Hmiss Hok Hd)
    as (st' & E & _ & R & N & F).
  exists d. eexists. eexists. eexists. eexists. exists st'.
  split; [exact Hd |]. split; [exact E |]. split; [exact R |]. split; [exact N |].
  split; [exact F |]. split; [reflexivity |].
  split; [rewrite canonical_of_new; reflexivity |].
  split; [simpl; pose proof (next_rowid_positive
                               (seq_raw_events (sqlite_sequence (content (db st))))
                               (map re_id (raws st))); lia |].
  split; [apply next_rowid_fresh |].
  split; [simpl; pose proof (next_rowid_positive
                               (seq_normalized_events (sqlite_sequence (content (db st))))
                               (map ne_id (norms st))); lia |].
  apply next_rowid_fresh.
Qed.

Lemma accepted_event_is_stored_witness :
  exists d rawEventId normalizedEventId re ne st',
    Normalizer.data (Normalizer.normalize Examples.strict_host Examples.refundEvent)
      = Some d
    /\ EventService.ingestEvent Examples.strict_host Examples.refundEvent false
         EventService.init =
         (Return (EventService.Created
                    (IdempotencyHandler.generateEventHash Examples.refundEvent)
                    rawEventId normalizedEventId d
                    (Normalizer.warnings
                       (Normalizer.normalize Examples.strict_host Examples.refundEvent))),
          st')
    /\ raws st' = (raws EventService.init ++ [re])%list
    /\ norms st' = (norms EventService.init ++ [ne])%list
    /\ fails st' = fails EventService.init
    /\ (re_id re, re_event_hash re, re_raw_data re)
       = (rawEventId, IdempotencyHandler.generateEventHash Examples.refundEvent,
          JSON_stringify Examples.refundEvent)
    /\ (ne_id ne, ne_raw_event_id ne, ne_status ne, canonical_of ne)
       = (normalizedEventId, rawEventId, "processed", d)
    /\ 0 < rawEventId /\ ~ In rawEventId (map re_id (raws EventService.init))
    /\ 0 < normalizedEventId
    /\ ~ In normalizedEventId (map ne_id (norms EventService.init)).
Proof.
  apply (accepted_event_is_stored Examples.strict_host Examples.refundEvent
           EventService.init).
  - split; reflexivity.
  - reflexivity.
  - vm_compute. reflexivity.
Defined.

(** X20: a failure that leaves no FailedEvent.  [run] asks for
    [last_insert_rowid()] after [save()]; on a host whose [export()] closes
    and reopens the connection the answer is [0] outside a transaction, so
    for a first submission that fails, by validation or by the injected
    fault, the RawEvent is stored and the [if (rawEventId)] guard skips the
    FailedEvent. *)
Theorem failure_leaves_no_FailedEvent_when_export_reopens :
  forall h rawEvent (simulateFailure : bool) st,
    let eh := IdempotencyHandler.generateEventHash rawEvent in
    idle st ->
    export_reopens h = true ->
    raw_for eh st = None ->
    Normalizer.success (Normalizer.normalize h rawEvent) && negb simulateFailure = false ->
    let st' := snd (EventService.ingestEvent h rawEvent simulateFailure st) in
    raws st' = (raws st ++ [new_raw h eh rawEvent st])%list
    /\ norms st' = norms st
    /\ fails st' = fails st.
Proof.
  intros h rawEvent sim st eh Hidle Hh Hmiss Hfail st'. subst st'.
  destruct (ingestEvent_cases h rawEvent sim st Hidle) as (res & st' & E & _ & C).
  rewrite E. simpl snd. fold eh in C. rewrite Hmiss, Hh in C.
  destruct C as (R & C). split; [exact R |].
  destruct (Normalizer.success _).
  - destruct sim; [| discriminate]. destruct C as (d & _ & _ & N & F). split; assumption.
  - destruct C as (_ & N & F). split; assumption.
Qed.

Lemma failure_leaves_no_FailedEvent_when_export_reopens_witness :
  let st' := snd (EventService.ingestEvent Examples.reopening_host Examples.noAmountEvent
                    false EventService.init) in
  raws st' = (raws EventService.init ++
              [new_raw Examples.reopening_host
                 (IdempotencyHandler.generateEventHash Examples.noAmountEvent)
                 Examples.noAmountEvent EventService.init])%list
  /\ norms st' = norms EventService.init
  /\ fails st' = fails EventService.init.
Proof.
  apply (failure_leaves_no_FailedEvent_when_export_reopens Examples.reopening_host
           Examples.noAmountEvent false EventService.init).
  - split; reflexivity.
  - reflexivity.
  - reflexivity.
  - vm_compute. reflexivity.
Defined.

(** X21: a failed persist.  A first submission that passes normalization
    and meets the injected fault is answered with the database error; the
    RawEvent stays, with the fingerprint and the JSON text of the event as
    received, and no NormalizedEvent is written.  Where [export()] reopens
    the connection no FailedEvent is written either; where it keeps the
    connection, one FailedEvent is attached to the RawEvent, of type
    [persistence_error], with the text of the error and the JSON text of the
    event. *)
Theorem persistence_failure_outcome :
  forall h rawEvent st,
    let eh := IdempotencyHandler.generateEventHash rawEvent in
    idle st ->
    raw_for eh st = None ->
    Normalizer.success (Normalizer.normalize h rawEvent) = true ->
    exists re st',
      EventService.ingestEvent h rawEvent true st =
        (Return (EventService.DatabaseError "Simulated database failure" eh), st')
      /\ raws st' = (raws st ++ [re])%list
      /\ norms st' = norms st
      /\ (re_event_hash re, re_raw_data re) = (eh, JSON_stringify rawEvent)
      /\ if export_reopens h then fails st' = fails st
         else exists fe,
                fails st' = (fails st ++ [fe])%list
                /\ (fe_raw_event_id fe, fe_event_hash fe, fe_raw_data fe)
                   = (Some (re_id re), eh, JSON_stringify rawEvent)
                /\ (fe_error_type fe, fe_error_message fe)
                   = ("persistence_error", "Simulated database failure").
Proof.
  intros h rawEvent st eh Hidle Hmiss Hok.
  destruct (normalize_success h rawEvent Hok) as (d & Hd & _).
  destruct (ingestEvent_simulated h rawEvent st d Hidle Hmiss Hok Hd)
    as (st' & E & _ & R & N & F).
  eexists. exists st'.
  split; [exact E |]. split; [exact R |]. split; [exact N |]. split; [reflexivity |].
  destruct (export_reopens h); [exact F |].
  eexists. split; [exact F |]. split; reflexivity.
Qed.

Lemma persistence_failure_outcome_witness :
  exists re st',
    EventService.ingestEvent Examples.reopening_host Examples.refundEvent true
      EventService.init =
      (Return (EventService.DatabaseError "Simulated database failure"
                 (IdempotencyHandler.generateEventHash Examples.refundEvent)), st')
    /\ raws st' = (raws EventService.init ++ [re])%list
    /\ norms st' = norms EventService.init
    /\ (re_event_hash re, re_raw_data re)
       = (IdempotencyHandler.generateEventHash Examples.refundEvent,
          JSON_stringify Examples.refundEvent)
    /\ fails st' = fails EventService.init.
Proof.
  apply (persistence_failure_outcome Examples.reopening_host Examples.refundEvent
           EventService.init).
  - split; reflexivity.
  - reflexivity.
  - vm_compute. reflexivity.
Defined.

(** * Further properties of dates and fingerprints *)

Import Calendar.

(** ** The calendar behind [Date] *)

Lemma year_of_era doe :
  0 <= doe <= 146096 ->
  let yoe := (doe - doe / 1460 + doe / 36524 - doe / 146096) / 365 in
  let doy := doe - (365 * yoe + yoe / 4 - yoe / 100) in
  0 <= yoe <= 399
  /\ 0 <= doy <= 365
  /\ (doy = 365 ->
      (yoe + 1) mod 4 = 0 /\ ((yoe + 1) mod 100 <> 0 \/ (yoe + 1) mod 400 = 0)).
Proof.
  intros H yoe doy. subst doy yoe. Z.div_mod_to_equations. lia.
Qed.

Lemma is_leap_era y era : is_leap (y + era * 400) = is_leap y.
Proof.
  unfold is_leap.
  replace ((y + era * 400) mod 4) with (y mod 4)
    by (replace (era * 400) with (era * 100 * 4) by ring; symmetry; apply Z.mod_add; lia).
  replace ((y + era * 400) mod 100) with (y mod 100)
    by (replace (era * 400) with (era * 4 * 100) by ring; symmetry; apply Z.mod_add; lia).
  rewrite Z.mod_add by lia. reflexivity.
Qed.

(** The civil date found for a day is a date of the calendar, and it leads
    back to the day. *)
Lemma civil_from_days_spec z :
  let '(y, m, d) := civil_from_days z in
  days_from_civil y m d = z /\ 1 <= m <= 12 /\ 1 <= d <= days_in_month y m.
Proof.
  unfold civil_from_days.
  set (era := (z + 719468) / 146097).
  set (doe := z + 719468 - era * 146097).
  assert (Hdoe : 0 <= doe <= 146096)
    by (subst doe era; Z.div_mod_to_equations; lia).
  destruct (year_of_era doe Hdoe) as (Hyoe & Hdoy & Hleap).
  assert (Ez : z = era * 146097 + doe - 719468) by (subst doe; lia).
  clearbody doe. clearbody era.
  set (yoe := (doe - doe / 1460 + doe / 36524 - doe / 146096) / 365) in *.
  set (doy := doe - (365 * yoe + yoe / 4 - yoe / 100)) in *.
  assert (Edoy : doe = 365 * yoe + yoe / 4 - yoe / 100 + doy) by (subst doy; lia).
  clearbody doy. clearbody yoe.
  set (mp := (5 * doy + 2) / 153).
  assert (Hmp : 0 <= mp <= 11) by (subst mp; Z.div_mod_to_equations; lia).
  assert (Hd : 1 <= doy - (153 * mp + 2) / 5 + 1 <= 31)
    by (subst mp; Z.div_mod_to_equations; lia).
  assert (Hera : (yoe + era * 400) / 400 = era)
    by (rewrite Z.div_add by lia; rewrite Z.div_small by lia; lia).
  destruct (mp <? 10) eqn:Hlt.
  - apply Z.ltb_lt in Hlt.
    replace (mp + 3 <=? 2) with false by (symmetry; apply Z.leb_gt; lia).
    split; [| split; [lia |]].
    + unfold days_from_civil.
      replace (mp + 3 <=? 2) with false by (symmetry; apply Z.leb_gt; lia).
      replace (2 <? mp + 3) with true by (symmetry; apply Z.ltb_lt; lia).
      rewrite Hera.
      replace (mp + 3 - 3) with mp by lia.
      replace (yoe + era * 400 - era * 400) with yoe by lia.
      lia.
    + split; [lia |]. unfold days_in_month.
      replace (mp + 3 =? 2) with false by (symmetry; apply Z.eqb_neq; lia).
      assert (mp = 0 \/ mp = 1 \/ mp = 2 \/ mp = 3 \/ mp = 4 \/ mp = 5 \/ mp = 6
              \/ mp = 7 \/ mp = 8 \/ mp = 9) as Hcase by lia.
      clear Hd. subst mp.
      destruct Hcase as [H | [H | [H | [H | [H | [H | [H | [H | [H | H]]]]]]]]];
        rewrite H; simpl; Z.div_mod_to_equations; lia.
  - apply Z.ltb_ge in Hlt.
    replace (mp - 9 <=? 2) with true by (symmetry; apply Z.leb_le; lia).
    split; [| split; [lia |]].
    + unfold days_from_civil.
      replace (mp - 9 <=? 2) with true by (symmetry; apply Z.leb_le; lia).
      replace (2 <? mp - 9) with false by (symmetry; apply Z.ltb_ge; lia).
      replace (yoe + era * 400 + 1 - 1) with (yoe + era * 400) by lia.
      rewrite Hera.
      replace (mp - 9 + 9) with mp by lia.
      replace (yoe + era * 400 - era * 400) with yoe by lia.
      lia.
    + split; [lia |]. unfold days_in_month.
      assert (mp = 10 \/ mp = 11) as Hcase by lia.
      clear Hd.
      destruct Hcase as [H | H].
      * rewrite H. simpl. subst mp. Z.div_mod_to_equations. lia.
      * rewrite H. simpl.
        replace (yoe + era * 400 + 1) with (yoe + 1 + era * 400) by lia.
        rewrite is_leap_era. unfold is_leap.
        destruct (Z.eq_dec doy 365) as [E | E].
        -- destruct (Hleap E) as [H4 H100]. rewrite H4. simpl.
           destruct H100 as [H100 | H400].
           ++ apply Z.eqb_neq in H100. rewrite H100. simpl.
              Z.div_mod_to_equations. lia.
           ++ rewrite H400. rewrite orb_true_r. Z.div_mod_to_equations. lia.
        -- assert (doy - (153 * 11 + 2) / 5 + 1 <= 28)
             by (Z.div_mod_to_equations; lia).
           destruct (_ || _); Z.div_mod_to_equations; lia.
Qed.

(** The days of the years 0 to 9999. *)
Lemma civil_year_range z :
  -719528 <= z <= 2932896 ->
  let '(y, m, d) := civil_from_days z in 0 <= y <= 9999.
Proof.
  intros Hz. unfold civil_from_days.
  set (era := (z + 719468) / 146097).
  set (doe := z + 719468 - era * 146097).
  assert (Hdoe : 0 <= doe <= 146096)
    by (subst doe era; Z.div_mod_to_equations; lia).
  assert (Hera : -1 <= era <= 24 /\ (era = -1 -> 146037 <= doe)
                 /\ (era = 24 -> doe <= 146036))
    by (subst doe era; Z.div_mod_to_equations; lia).
  clearbody doe. clearbody era.
  set (yoe := (doe - doe / 1460 + doe / 36524 - doe / 146096) / 365).
  set (doy := doe - (365 * yoe + yoe / 4 - yoe / 100)).
  set (mp := (5 * doy + 2) / 153).
  assert (H : 0 <= yoe <= 399 /\ 0 <= mp <= 11
              /\ (146037 <= doe -> yoe = 399 /\ 10 <= mp)
              /\ (doe <= 146036 -> yoe = 399 -> mp < 10))
    by (subst mp doy yoe; Z.div_mod_to_equations; lia).
  clearbody mp. clearbody yoe.
  destruct (mp <? 10) eqn:Hlt.
  - apply Z.ltb_lt in Hlt. destruct (mp + 3 <=? 2) eqn:Hm.
    + apply Z.leb_le in Hm. lia.
    + lia.
  - apply Z.ltb_ge in Hlt. destruct (mp - 9 <=? 2) eqn:Hm.
    + lia.
    + apply Z.leb_gt in Hm. lia.
Qed.

(** The day found for a date of the calendar leads back to the date. *)
Lemma days_from_civil_spec y m d :
  1 <= m <= 12 -> 1 <= d <= days_in_month y m ->
  civil_from_days (days_from_civil y m d) = (y, m, d).
Proof.
  intros Hm Hd. unfold days_from_civil.
  set (y' := if m <=? 2 then y - 1 else y).
  set (mp := if 2 <? m then m - 3 else m + 9).
  assert (Hmp : 0 <= mp <= 11 /\ (m = if mp <? 10 then mp + 3 else mp - 9)
                /\ y = if m <=? 2 then y' + 1 else y').
  { subst mp y'. destruct (2 <? m) eqn:H2.
    - apply Z.ltb_lt in H2. replace (m <=? 2) with false by (symmetry; apply Z.leb_gt; lia).
      replace (m - 3 <? 10) with true by (symmetry; apply Z.ltb_lt; lia). lia.
    - apply Z.ltb_ge in H2. replace (m <=? 2) with true by (symmetry; apply Z.leb_le; lia).
      replace (m + 9 <? 10) with false by (symmetry; apply Z.ltb_ge; lia). lia. }
  assert (Hlen : (d <= (153 * (mp + 1) + 2) / 5 - (153 * mp + 2) / 5 /\ d <= 31
                  /\ (mp = 11 -> d <= 29))
                 /\ (mp = 11 -> d = 29 ->
                     (y' + 1) mod 4 = 0
                     /\ ((y' + 1) mod 100 <> 0 \/ (y' + 1) mod 400 = 0))).
  { unfold days_in_month, is_leap in Hd. subst mp y'.
    assert (m = 1 \/ m = 2 \/ m = 3 \/ m = 4 \/ m = 5 \/ m = 6 \/ m = 7 \/ m = 8
            \/ m = 9 \/ m = 10 \/ m = 11 \/ m = 12) as Hcase by lia.
    destruct Hcase as [H | [H | [H | [H | [H | [H | [H | [H | [H | [H | [H | H]]]]]]]]]]];
      subst m; simpl in *; try (split; [lia | intros; lia]).
    replace (y - 1 + 1) with y by lia.
    destruct (y mod 4 =? 0) eqn:E4; destruct (y mod 100 =? 0) eqn:E100;
      destruct (y mod 400 =? 0) eqn:E400; simpl in Hd;
      rewrite ?Z.eqb_eq, ?Z.eqb_neq in *;
      (split; [lia | intros _ ?; try lia]).
    all: Z.div_mod_to_equations; lia. }
  destruct Hmp as (Hmp & Em & Ey). destruct Hlen as (Hlen & Hleap).
  clearbody mp. clearbody y'.
  set (era := y' / 400).
  set (yoe := y' - era * 400).
  assert (Hyoe : 0 <= yoe <= 399) by (subst yoe era; Z.div_mod_to_equations; lia).
  assert (Ey' : y' = yoe + era * 400) by (subst yoe; lia).
  assert (Hleap' : mp = 11 -> d = 29 ->
                   (yoe + 1) mod 4 = 0
                   /\ ((yoe + 1) mod 100 <> 0 \/ (yoe + 1) mod 400 = 0)).
  { intros H1 H2. specialize (Hleap H1 H2). rewrite Ey' in Hleap.
    clear - Hleap. Z.div_mod_to_equations. lia. }
  clearbody yoe. clearbody era. clear Hleap.
  set (doy := (153 * mp + 2) / 5 + d - 1).
  set (doe := yoe * 365 + yoe / 4 - yoe / 100 + doy).
  unfold civil_from_days.
  replace (era * 146097 + doe - 719468 + 719468) with (doe + era * 146097) by lia.
  assert (Hdoy : 0 <= doy <= 365 /\ (5 * doy + 2) / 153 = mp
                 /\ (doy = 365 -> mp = 11 /\ d = 29))
    by (subst doy; Z.div_mod_to_equations; lia).
  assert (Hdoe : 0 <= doe <= 146096
                 /\ (doe - doe / 1460 + doe / 36524 - doe / 146096) / 365 = yoe).
  { destruct Hdoy as (Hdoy & _ & H365).
    assert (doy <= 364 \/ ((yoe + 1) mod 4 = 0
                           /\ ((yoe + 1) mod 100 <> 0 \/ (yoe + 1) mod 400 = 0)))
      as Hbound.
    { destruct (Z.eq_dec doy 365) as [E | E]; [right | left; lia].
      destruct (H365 E). auto. }
    clearbody doy. subst doe. clear - Hyoe Hdoy Hbound.
    Z.div_mod_to_equations. lia. }
  destruct Hdoe as (Hdoe & Eyoe). destruct Hdoy as (_ & Emp & _).
  rewrite Z.div_add by lia. rewrite (Z.div_small doe) by lia. simpl (0 + era).
  replace (doe + era * 146097 - era * 146097) with doe by lia.
  rewrite Eyoe.
  replace (doe - (365 * yoe + yoe / 4 - yoe / 100)) with doy by (subst doe; lia).
  rewrite Emp. rewrite <- Em.
  replace (doy - (153 * mp + 2) / 5 + 1) with d by (subst doy; lia).
  rewrite <- Ey'. rewrite Ey. destruct (m <=? 2); reflexivity.
Qed.

(** ** Printing and reading the digits of a date *)

Lemma holds_from_spec n start f :
  holds_from n start f = true ->
  forall z, start <= z < start + Z.of_nat n -> f z = true.
Proof.
  revert start. induction n as [| n IH]; intros start H z Hz; [lia |].
  simpl in H. apply andb_true_iff in H. destruct H as [H0 H1].
  destruct (Z.eq_dec z start) as [-> | Hne]; [exact H0 |].
  apply (IH (start + 1) H1). lia.
Qed.

Lemma pad4_ok n : 0 <= n < 10000 -> pad_ok 4 n = true.
Proof.
  intros H. apply (holds_from_spec (Z.to_nat 10000) 0); [vm_compute; reflexivity | lia].
Qed.

Lemma pad3_ok n : 0 <= n < 1000 -> pad_ok 3 n = true.
Proof.
  intros H. apply (holds_from_spec (Z.to_nat 1000) 0); [vm_compute; reflexivity | lia].
Qed.

Lemma pad2_ok n : 0 <= n < 100 -> pad_ok 2 n = true.
Proof.
  intros H. apply (holds_from_spec (Z.to_nat 100) 0); [vm_compute; reflexivity | lia].
Qed.


Lemma digit_code c :
  is_digit c = true ->
  (code c =? 45) = false /\ (code c =? 47) = false /\ (code c =? 58) = false.
Proof.
  unfold is_digit. intros H. apply andb_true_iff in H. destruct H as [H1 H2].
  apply Z.leb_le in H1, H2. repeat split; apply Z.eqb_neq; lia.
Qed.

(** Two digits that read [n]. *)
Lemma pad2_shape n :
  0 <= n < 100 ->
  exists a b, pad 2 n = String a (String b "")
              /\ is_digit a = true /\ is_digit b = true /\ digits_value [a; b] = n.
Proof.
  intros H. pose proof (pad2_ok n H) as Hok. unfold pad_ok in Hok.
  destruct (pad 2 n) as [| a [| b [| c s]]]; try discriminate.
  exists a, b. simpl in Hok.
  destruct (is_digit a); [| discriminate]. destruct (is_digit b); [| discriminate].
  simpl in Hok. apply Z.eqb_eq in Hok. repeat split; auto.
Qed.

Lemma pad3_shape n :
  0 <= n < 1000 ->
  exists a b c, pad 3 n = String a (String b (String c ""))
                /\ is_digit a = true /\ is_digit b = true /\ is_digit c = true
                /\ digits_value [a; b; c] = n.
Proof.
  intros H. pose proof (pad3_ok n H) as Hok. unfold pad_ok in Hok.
  destruct (pad 3 n) as [| a [| b [| c [| e s]]]]; try discriminate.
  exists a, b, c. simpl in Hok.
  destruct (is_digit a); [| discriminate]. destruct (is_digit b); [| discriminate].
  destruct (is_digit c); [| discriminate].
  simpl in Hok. apply Z.eqb_eq in Hok. repeat split; auto.
Qed.

Lemma pad4_shape n :
  0 <= n < 10000 ->
  exists a b c e, pad 4 n = String a (String b (String c (String e "")))
                  /\ is_digit a = true /\ is_digit b = true /\ is_digit c = true
                  /\ is_digit e = true /\ digits_value [a; b; c; e] = n.
Proof.
  intros H. pose proof (pad4_ok n H) as Hok. unfold pad_ok in Hok.
  destruct (pad 4 n) as [| a [| b [| c [| e [| g s]]]]]; try discriminate.
  exists a, b, c, e. simpl in Hok.
  destruct (is_digit a); [| discriminate]. destruct (is_digit b); [| discriminate].
  destruct (is_digit c); [| discriminate]. destruct (is_digit e); [| discriminate].
  simpl in Hok. apply Z.eqb_eq in Hok. repeat split; auto.
Qed.

Lemma number_of_pad2 n rest :
  0 <= n < 100 -> number_of 2 (pad 2 n ++ rest) = Some (n, rest).
Proof.
  intros H. destruct (pad2_shape n H) as (a & b & -> & Ha & Hb & Hv).
  unfold number_of. simpl. rewrite Ha, Hb. rewrite Hv. reflexivity.
Qed.

Lemma number_of_pad3 n rest :
  0 <= n < 1000 -> number_of 3 (pad 3 n ++ rest) = Some (n, rest).
Proof.
  intros H. destruct (pad3_shape n H) as (a & b & c & -> & Ha & Hb & Hc & Hv).
  unfold number_of. simpl. rewrite Ha, Hb, Hc. rewrite Hv. reflexivity.
Qed.

Lemma number_of_pad4 n rest :
  0 <= n < 10000 -> number_of 4 (pad 4 n ++ rest) = Some (n, rest).
Proof.
  intros H. destruct (pad4_shape n H) as (a & b & c & e & -> & Ha & Hb & Hc & He & Hv).
  unfold number_of. simpl. rewrite Ha, Hb, Hc, He. rewrite Hv. reflexivity.
Qed.

(** [YYYY-MM-DD] is read as its date. *)
Lemma iso_date_print y m d rest :
  0 <= y < 10000 -> 1 <= m <= 12 -> 1 <= d <= days_in_month y m ->
  iso_date (pad 4 y ++ "-" ++ pad 2 m ++ "-" ++ pad 2 d ++ rest)
  = Some (days_from_civil y m d, rest).
Proof.
  intros Hy Hm Hd.
  assert (d <= 31) by (unfold days_in_month in Hd;
                       repeat (destruct (_ =? _) in Hd; simpl in Hd);
                       destruct (is_leap y); lia).
  unfold iso_date. rewrite number_of_pad4 by lia. cbv beta iota.
  change (expect 45 ("-" ++ pad 2 m ++ "-" ++ pad 2 d ++ rest))
    with (Some (pad 2 m ++ "-" ++ pad 2 d ++ rest)). cbv beta iota.
  rewrite number_of_pad2 by lia. cbv beta iota.
  replace ((1 <=? m) && (m <=? 12)) with true
    by (symmetry; apply andb_true_iff; split; apply Z.leb_le; lia).
  change (expect 45 ("-" ++ pad 2 d ++ rest)) with (Some (pad 2 d ++ rest)). cbv beta iota.
  rewrite number_of_pad2 by lia. cbv beta iota.
  replace ((1 <=? d) && (d <=? days_in_month y m)) with true
    by (symmetry; apply andb_true_iff; split; apply Z.leb_le; lia).
  reflexivity.
Qed.

(** [HH:mm:ss.sss] is read as its time of day. *)
Lemma iso_time_print hh mi ss ms rest :
  0 <= hh <= 23 -> 0 <= mi <= 59 -> 0 <= ss <= 59 -> 0 <= ms <= 999 ->
  iso_time (pad 2 hh ++ ":" ++ pad 2 mi ++ ":" ++ pad 2 ss ++ "." ++ pad 3 ms ++ rest)
  = Some (hh * 3600000 + mi * 60000 + ss * 1000 + ms, rest).
Proof.
  intros Hh Hmi Hs Hms. unfold iso_time. rewrite number_of_pad2 by lia. cbv beta iota.
  change (expect 58 (":" ++ pad 2 mi ++ ":" ++ pad 2 ss ++ "." ++ pad 3 ms ++ rest))
    with (Some (pad 2 mi ++ ":" ++ pad 2 ss ++ "." ++ pad 3 ms ++ rest)). cbv beta iota.
  rewrite number_of_pad2 by lia. cbv beta iota.
  replace ((hh <=? 23) && (mi <=? 59)) with true
    by (symmetry; apply andb_true_iff; split; apply Z.leb_le; lia).
  change (expect 58 (":" ++ pad 2 ss ++ "." ++ pad 3 ms ++ rest))
    with (Some (pad 2 ss ++ "." ++ pad 3 ms ++ rest)). cbv beta iota.
  rewrite number_of_pad2 by lia. cbv beta iota.
  replace (ss <=? 59) with true by (symmetry; apply Z.leb_le; lia).
  change (expect 46 ("." ++ pad 3 ms ++ rest)) with (Some (pad 3 ms ++ rest)). cbv beta iota.
  rewrite number_of_pad3 by lia.
  reflexivity.
Qed.

(** [Date] reads the text of [toISOString] as the time value it was printed
    from, without recourse to the host. *)
Lemma parse_iso_toISOString t :
  first_instant <= t <= last_instant -> parse_iso (toISOString t) = Some t.
Proof.
  unfold first_instant, last_instant. intros Ht. unfold toISOString.
  assert (Hday : -719528 <= t / ms_per_day <= 2932896)
    by (unfold ms_per_day; Z.div_mod_to_equations; lia).
  pose proof (civil_from_days_spec (t / ms_per_day)) as Hspec.
  pose proof (civil_year_range (t / ms_per_day) Hday) as Hyear.
  destruct (civil_from_days (t / ms_per_day)) as [[y m] d].
  destruct Hspec as (Hback & Hm & Hd).
  replace ((0 <=? y) && (y <=? 9999)) with true
    by (symmetry; apply andb_true_iff; split; apply Z.leb_le; lia).
  set (ms := t mod ms_per_day).
  assert (Hms : 0 <= ms < 86400000)
    by (subst ms; unfold ms_per_day; Z.div_mod_to_equations; lia).
  unfold parse_iso. rewrite iso_date_print by lia. cbv beta iota.
  match goal with
  | |- context [ "T" ++ ?r ] => change ("T" ++ r) with (String "T" r)
  end.
  cbv beta iota. change (code "T" =? 84) with true. cbv beta iota.
  rewrite iso_time_print by (Z.div_mod_to_equations; lia). cbv beta iota.
  change (iso_offset "Z") with (Some 0). cbv beta iota.
  f_equal. rewrite Hback. subst ms. unfold ms_per_day in *.
  Z.div_mod_to_equations. lia.
Qed.

Lemma toISOString_not_empty t : (toISOString t =? "")%string = false.
Proof.
  unfold toISOString. destruct (civil_from_days _) as [[y m] d].
  destruct (if (0 <=? y) && (y <=? 9999) then pad 4 y
            else (if y <? 0 then "-" else "+") ++ pad 6 (Z.abs y)); reflexivity.
Qed.

Lemma new_Date_toISOString h t :
  first_instant <= t <= last_instant -> new_Date h (VStr (toISOString t)) = Some t.
Proof.
  intros Ht. unfold new_Date, Date_parse. rewrite parse_iso_toISOString by exact Ht.
  unfold TimeClip. unfold first_instant, last_instant in Ht.
  replace (Z.abs t <=? 8640000000000000) with true by (symmetry; apply Z.leb_le; lia).
  reflexivity.
Qed.

(** X22: a timestamp in canonical form is kept as it is.  On every host,
    the text [toISOString] prints for an instant of the years 0000 to 9999
    is read back by [Date] as that instant, so [parseTimestamp] returns the
    same text and the normalizer adds neither an error nor a warning. *)
Theorem canonical_timestamp_is_kept :
  forall h t,
    first_instant <= t <= last_instant ->
    new_Date h (VStr (toISOString t)) = Some t
    /\ Normalizer.parseTimestamp h (VStr (toISOString t)) = Some (toISOString t)
    /\ (forall payload,
          Normalizer.extractField payload "timestamp" = VStr (toISOString t) ->
          Normalizer.check_timestamp h payload = (toISOString t, [], [])).
Proof.
  intros h t Ht.
  assert (Hparse : Normalizer.parseTimestamp h (VStr (toISOString t))
                   = Some (toISOString t)).
  { unfold Normalizer.parseTimestamp. unfold truthy.
    rewrite toISOString_not_empty. cbv beta iota. simpl negb. cbv iota.
    rewrite new_Date_toISOString by exact Ht. reflexivity. }
  split; [apply new_Date_toISOString; exact Ht |]. split; [exact Hparse |].
  intros payload Hfield. unfold Normalizer.check_timestamp. rewrite Hfield.
  unfold truthy at 1. rewrite toISOString_not_empty. simpl negb. cbv iota.
  rewrite Hparse. rewrite String.eqb_refl. reflexivity.
Qed.

Lemma canonical_timestamp_is_kept_witness :
  new_Date Examples.local_time_host (VStr (toISOString 1704067200123))
    = Some 1704067200123
  /\ Normalizer.parseTimestamp Examples.local_time_host
       (VStr (toISOString 1704067200123)) = Some (toISOString 1704067200123)
  /\ (forall payload,
        Normalizer.extractField payload "timestamp" = VStr (toISOString 1704067200123) ->
        Normalizer.check_timestamp Examples.local_time_host payload
        = (toISOString 1704067200123, [], [])).
Proof.
  apply (canonical_timestamp_is_kept Examples.local_time_host 1704067200123).
  unfold first_instant, last_instant. lia.
Defined.

(** ** Dates written with slashes *)

Lemma days_from_civil_range y m d :
  0 <= y <= 9999 -> 1 <= m <= 12 -> 1 <= d <= 31 ->
  -719528 <= days_from_civil y m d <= 2932927.
Proof.
  intros Hy Hm Hd. unfold days_from_civil.
  destruct (m <=? 2) eqn:H2; destruct (2 <? m) eqn:H3;
    rewrite ?Z.leb_le, ?Z.leb_gt, ?Z.ltb_lt, ?Z.ltb_ge in *; try lia;
    Z.div_mod_to_equations; lia.
Qed.

Lemma days_in_month_max y m : days_in_month y m <= 31.
Proof.
  unfold days_in_month. destruct (m =? 2); [destruct (is_leap y); lia |].
  destruct (_ || _); lia.
Qed.

(** The text rebuilt from the parts of a slash date is read as midnight UTC
    of that date. *)
Lemma new_Date_midnight h y m d :
  0 <= y <= 9999 -> 1 <= m <= 12 -> 1 <= d <= days_in_month y m ->
  new_Date h (VStr (pad 4 y ++ "-" ++ pad 2 m ++ "-" ++ pad 2 d ++ "T00:00:00Z"))
  = Some (days_from_civil y m d * ms_per_day).
Proof.
  intros Hy Hm Hd. pose proof (days_in_month_max y m) as Hmax.
  unfold new_Date, Date_parse, parse_iso. rewrite iso_date_print by lia.
  cbv beta iota. change (code "T" =? 84) with true. cbv beta iota.
  change (iso_time "00:00:00Z") with (Some (0, "Z")). cbv beta iota.
  change (iso_offset "Z") with (Some 0). cbv beta iota.
  replace (days_from_civil y m d * ms_per_day + 0 - 0)
    with (days_from_civil y m d * ms_per_day) by lia.
  unfold TimeClip.
  pose proof (days_from_civil_range y m d Hy Hm ltac:(lia)) as Hr.
  replace (Z.abs (days_from_civil y m d * ms_per_day) <=? 8640000000000000) with true
    by (symmetry; apply Z.leb_le; unfold ms_per_day; lia).
  reflexivity.
Qed.

Lemma toISOString_midnight y m d :
  0 <= y <= 9999 -> 1 <= m <= 12 -> 1 <= d <= days_in_month y m ->
  toISOString (days_from_civil y m d * ms_per_day)
  = pad 4 y ++ "-" ++ pad 2 m ++ "-" ++ pad 2 d ++ "T00:00:00.000Z".
Proof.
  intros Hy Hm Hd. unfold toISOString.
  rewrite Z.div_mul by (unfold ms_per_day; lia).
  rewrite Z.mod_mul by (unfold ms_per_day; lia).
  rewrite days_from_civil_spec by assumption.
  replace ((0 <=? y) && (y <=? 9999)) with true
    by (symmetry; apply andb_true_iff; split; apply Z.leb_le; lia).
  reflexivity.
Qed.

Lemma split_slash_digit c r p ps :
  is_digit c = true -> split_slash r = p :: ps ->
  split_slash (String c r) = String c p :: ps.
Proof.
  intros Hc Hr. destruct (digit_code c Hc) as (_ & H47 & _).
  cbn [split_slash]. rewrite H47, Hr. reflexivity.
Qed.

Lemma split_slash_slash r : split_slash (String "/" r) = "" :: split_slash r.
Proof. reflexivity. Qed.

Lemma dmy_parts d1 d2 m1 m2 y1 y2 y3 y4 :
  is_digit d1 = true -> is_digit d2 = true ->
  is_digit m1 = true -> is_digit m2 = true ->
  is_digit y1 = true -> is_digit y2 = true ->
  is_digit y3 = true -> is_digit y4 = true ->
  let dd := String d1 (String d2 "") in
  let mm := String m1 (String m2 "") in
  let yyyy := String y1 (String y2 (String y3 (String y4 ""))) in
  let s := dd ++ "/" ++ mm ++ "/" ++ yyyy in
  split_slash s = [dd; mm; yyyy]
  /\ Normalizer.test Normalizer.ymd s = false
  /\ Normalizer.test Normalizer.dmy s = true
  /\ parse_iso s = None.
Proof.
  intros Hd1 Hd2 Hm1 Hm2 Hy1 Hy2 Hy3 Hy4. cbn zeta. cbn [append]. repeat split.
  - repeat (apply split_slash_digit; [assumption |]).
    rewrite split_slash_slash. f_equal.
    repeat (apply split_slash_digit; [assumption |]).
    rewrite split_slash_slash. f_equal.
    repeat (apply split_slash_digit; [assumption |]). reflexivity.
  - cbn [Normalizer.test Normalizer.ymd]. rewrite Hd1, Hd2. reflexivity.
  - cbn [Normalizer.test Normalizer.dmy].
    rewrite Hd1, Hd2, Hm1, Hm2, Hy1, Hy2, Hy3, Hy4. reflexivity.
  - unfold parse_iso, iso_date, number_of. cbn [take_digits].
    rewrite Hd1, Hd2. reflexivity.
Qed.

Lemma ymd_parts d1 d2 m1 m2 y1 y2 y3 y4 :
  is_digit d1 = true -> is_digit d2 = true ->
  is_digit m1 = true -> is_digit m2 = true ->
  is_digit y1 = true -> is_digit y2 = true ->
  is_digit y3 = true -> is_digit y4 = true ->
  let dd := String d1 (String d2 "") in
  let mm := String m1 (String m2 "") in
  let yyyy := String y1 (String y2 (String y3 (String y4 ""))) in
  let s := yyyy ++ "/" ++ mm ++ "/" ++ dd in
  split_slash s = [yyyy; mm; dd]
  /\ Normalizer.test Normalizer.ymd s = true
  /\ parse_iso s = None.
Proof.
  intros Hd1 Hd2 Hm1 Hm2 Hy1 Hy2 Hy3 Hy4. cbn zeta. cbn [append]. repeat split.
  - repeat (apply split_slash_digit; [assumption |]).
    rewrite split_slash_slash. f_equal.
    repeat (apply split_slash_digit; [assumption |]).
    rewrite split_slash_slash. f_equal.
    repeat (apply split_slash_digit; [assumption |]). reflexivity.
  - cbn [Normalizer.test Normalizer.ymd].
    rewrite Hd1, Hd2, Hm1, Hm2, Hy1, Hy2, Hy3, Hy4. reflexivity.
  - unfold parse_iso, iso_date, number_of. cbn [take_digits].
    rewrite Hy1, Hy2, Hy3, Hy4. reflexivity.
Qed.

(** X23: a day-first date.  Where the host's [Date] does not read
    [DD/MM/YYYY], the text is taken day first: for a date of the calendar,
    [parseTimestamp] returns midnight UTC of that day. *)
Theorem day_first_date_is_read_day_first :
  forall h y m d,
    0 <= y <= 9999 -> 1 <= m <= 12 -> 1 <= d <= days_in_month y m ->
    date_heuristics h (pad 2 d ++ "/" ++ pad 2 m ++ "/" ++ pad 4 y) = None ->
    Normalizer.parseTimestamp h (VStr (pad 2 d ++ "/" ++ pad 2 m ++ "/" ++ pad 4 y))
    = Some (pad 4 y ++ "-" ++ pad 2 m ++ "-" ++ pad 2 d ++ "T00:00:00.000Z").
Proof.
  intros h y m d Hy Hm Hd Hhost.
  pose proof (days_in_month_max y m) as Hmax.
  pose proof (new_Date_midnight h y m d Hy Hm Hd) as Hnew.
  rewrite <- (toISOString_midnight y m d Hy Hm Hd).
  destruct (pad2_shape d ltac:(lia)) as (d1 & d2 & Ed & Hd1 & Hd2 & _).
  destruct (pad2_shape m ltac:(lia)) as (m1 & m2 & Em & Hm1 & Hm2 & _).
  destruct (pad4_shape y ltac:(lia)) as (y1 & y2 & y3 & y4 & Ey & Hy1 & Hy2 & Hy3 & Hy4 & _).
  rewrite Ed, Em, Ey in *. clear Ed Em Ey.
  destruct (dmy_parts d1 d2 m1 m2 y1 y2 y3 y4 Hd1 Hd2 Hm1 Hm2 Hy1 Hy2 Hy3 Hy4)
    as (Hsplit & Hymd & Hdmy & Hiso).
  unfold Normalizer.parseTimestamp.
  replace (new_Date h (VStr (String d1 (String d2 "") ++ "/" ++ String m1 (String m2 "")
                             ++ "/" ++ String y1 (String y2 (String y3 (String y4 ""))))))
    with (@None Z) by (unfold new_Date, Date_parse; rewrite Hiso, Hhost; reflexivity).
  rewrite Hsplit, Hymd, Hdmy. cbn [nth]. rewrite Hnew. reflexivity.
Qed.

Lemma day_first_date_is_read_day_first_witness :
  Normalizer.parseTimestamp Examples.strict_host
    (VStr (pad 2 25 ++ "/" ++ pad 2 12 ++ "/" ++ pad 4 2024))
  = Some (pad 4 2024 ++ "-" ++ pad 2 12 ++ "-" ++ pad 2 25 ++ "T00:00:00.000Z").
Proof.
  apply (day_first_date_is_read_day_first Examples.strict_host 2024 12 25).
  - lia.
  - lia.
  - vm_compute. split; discriminate.
  - reflexivity.
Defined.

(** A year-first date is first read by the host's [Date]; the pattern of
    [parseTimestamp] is tried only where that gives no date. *)
Lemma parseTimestamp_year_first h y m d :
  0 <= y <= 9999 -> 1 <= m <= 12 -> 1 <= d <= days_in_month y m ->
  let text := pad 4 y ++ "/" ++ pad 2 m ++ "/" ++ pad 2 d in
  new_Date h (VStr text)
  = match date_heuristics h text with Some t => TimeClip t | None => None end
  /\ Normalizer.parseTimestamp h (VStr text)
     = Some match new_Date h (VStr text) with
            | Some t => toISOString t
            | None => pad 4 y ++ "-" ++ pad 2 m ++ "-" ++ pad 2 d ++ "T00:00:00.000Z"
            end.
Proof.
  intros Hy Hm Hd. cbv zeta.
  pose proof (days_in_month_max y m) as Hmax.
  pose proof (new_Date_midnight h y m d Hy Hm Hd) as Hnew.
  rewrite <- (toISOString_midnight y m d Hy Hm Hd).
  destruct (pad2_shape d ltac:(lia)) as (d1 & d2 & Ed & Hd1 & Hd2 & _).
  destruct (pad2_shape m ltac:(lia)) as (m1 & m2 & Em & Hm1 & Hm2 & _).
  destruct (pad4_shape y ltac:(lia)) as (y1 & y2 & y3 & y4 & Ey & Hy1 & Hy2 & Hy3 & Hy4 & _).
  rewrite Ed, Em, Ey in *. clear Ed Em Ey.
  destruct (ymd_parts d1 d2 m1 m2 y1 y2 y3 y4 Hd1 Hd2 Hm1 Hm2 Hy1 Hy2 Hy3 Hy4)
    as (Hsplit & Hymd & Hiso).
  assert (Hfirst :
            new_Date h (VStr (String y1 (String y2 (String y3 (String y4 ""))) ++ "/"
                              ++ String m1 (String m2 "") ++ "/"
                              ++ String d1 (String d2 "")))
            = match date_heuristics h
                      (String y1 (String y2 (String y3 (String y4 ""))) ++ "/"
                       ++ String m1 (String m2 "") ++ "/" ++ String d1 (String d2 ""))
              with Some t => TimeClip t | None => None end).
  { unfold new_Date, Date_parse. rewrite Hiso. reflexivity. }
  split; [exact Hfirst |].
  unfold Normalizer.parseTimestamp.
  destruct (new_Date h (VStr (String y1 (String y2 (String y3 (String y4 ""))) ++ "/"
                              ++ String m1 (String m2 "") ++ "/"
                              ++ String d1 (String d2 "")))) as [t |]; [reflexivity |].
  rewrite Hsplit, Hymd. cbn [nth]. rewrite Hnew. reflexivity.
Qed.

(** X24: a year-first date.  [parseTimestamp] returns what the host's [Date]
    reads in [YYYY/MM/DD], whatever instant that is; only where the host
    reads no date in it does the text count as midnight UTC of that day.
    This holds for every date of the calendar. *)
Theorem year_first_date_is_read_by_the_host_first :
  forall h y m d,
    0 <= y <= 9999 -> 1 <= m <= 12 -> 1 <= d <= days_in_month y m ->
    let text := pad 4 y ++ "/" ++ pad 2 m ++ "/" ++ pad 2 d in
    (forall t, date_heuristics h text = Some t ->
               Z.abs t <= 8640000000000000 ->
               Normalizer.parseTimestamp h (VStr text) = Some (toISOString t))
    /\ (date_heuristics h text = None ->
        Normalizer.parseTimestamp h (VStr text)
        = Some (pad 4 y ++ "-" ++ pad 2 m ++ "-" ++ pad 2 d ++ "T00:00:00.000Z")).
Proof.
  intros h y m d Hy Hm Hd text.
  destruct (parseTimestamp_year_first h y m d Hy Hm Hd) as (Hfirst & Hparse).
  fold text in Hfirst, Hparse. split.
  - intros t Hhost Ht. rewrite Hparse, Hfirst, Hhost. unfold TimeClip.
    replace (Z.abs t <=? 8640000000000000) with true by (symmetry; apply Z.leb_le; lia).
    reflexivity.
  - intros Hhost. rewrite Hparse, Hfirst, Hhost. reflexivity.
Qed.

(** A host five and a half hours east of Greenwich reads ["2024/01/01"] as
    local midnight, which is what [parseTimestamp] returns. *)
Lemma year_first_date_is_read_by_the_host_first_witness :
  Normalizer.parseTimestamp Examples.local_time_host
    (VStr (pad 4 2024 ++ "/" ++ pad 2 1 ++ "/" ++ pad 2 1))
  = Some "2023-12-31T18:30:00.000Z".
Proof.
  destruct (year_first_date_is_read_by_the_host_first Examples.local_time_host 2024 1 1)
    as [Hread _].
  - lia.
  - lia.
  - vm_compute. split; discriminate.
  - apply (Hread 1704047400000).
    + reflexivity.
    + lia.
Defined.

(** ** The timestamps of test.js *)

Lemma thrown_none h rawEvent :
  let payload := Normalizer.payload_of rawEvent in
  truthy (Normalizer.extractField rawEvent "client_id")
  && Normalizer.unconvertible (Normalizer.extractField rawEvent "client_id") = false ->
  truthy (Normalizer.extractField payload "metric")
  && Normalizer.unconvertible (Normalizer.extractField payload "metric") = false ->
  Normalizer.unconvertible (Normalizer.extractField payload "amount") = false ->
  Normalizer.unconvertible (Normalizer.extractField payload "timestamp") = false ->
  Normalizer.thrown h rawEvent = None.
Proof.
  cbv zeta. intros Hc Hm Ha Ht. unfold Normalizer.thrown.
  rewrite Hc, Hm, Ha, Ht, !andb_false_r. reflexivity.
Qed.

Lemma parseTimestamp_not_a_date h :
  date_heuristics h "not-a-date" = None ->
  Normalizer.parseTimestamp h (VStr "not-a-date") = None.
Proof.
  intros H. unfold Normalizer.parseTimestamp, new_Date, Date_parse.
  change (parse_iso "not-a-date") with (@None Z). rewrite H.
  vm_compute. reflexivity.
Qed.

Lemma parseTimestamp_slash_date h t :
  date_heuristics h "2024/01/01" = Some t ->
  first_instant <= t <= last_instant ->
  Normalizer.parseTimestamp h (VStr "2024/01/01") = Some (toISOString t).
Proof.
  intros Hhost Ht. unfold Normalizer.parseTimestamp, new_Date, Date_parse.
  change (parse_iso "2024/01/01") with (@None Z). rewrite Hhost.
  unfold TimeClip. unfold first_instant, last_instant in Ht.
  replace (Z.abs t <=? 8640000000000000) with true by (symmetry; apply Z.leb_le; lia).
  reflexivity.
Qed.

(** C8: Timestamps.  [parseTimestamp] gives ["2024/01/01"] to the host's
    [Date] first, and where that reads an instant [t] in it (of the years 0000
    to 9999) the branch for [YYYY/MM/DD] is not reached: the timestamp of the
    event of test.js is the text of [t], which is
    [2024-01-01T00:00:00.000Z] only if [t] is midnight UTC of that day, and
    the warning tells of the rewriting to the text of [t].  The timestamp
    ["not-a-date"], which the host does not read, gives an error, and the
    current instant is substituted with a warning: the normalization fails,
    and both lists are populated unless an earlier conversion to a string
    has thrown. *)
Theorem slash_date_is_read_by_the_host :
  forall h t,
    date_heuristics h "2024/01/01" = Some t ->
    first_instant <= t <= last_instant ->
    date_heuristics h "not-a-date" = None ->
    Normalizer.parseTimestamp h (VStr "2024/01/01") = Some (toISOString t)
    /\ (toISOString t = "2024-01-01T00:00:00.000Z" <-> t = 1704067200000)
    /\ Normalizer.normalize h Examples.testEvent =
         {| Normalizer.success := true;
            Normalizer.data :=
              Some {| Normalizer.client_id := "client_A";
                      Normalizer.metric := "revenue";
                      Normalizer.amount := Dec 12 2;
                      Normalizer.timestamp := toISOString t |};
            Normalizer.errors := [];
            Normalizer.warnings :=
              ["Amount was provided as string " ++ dq ++ "1200" ++ dq ++
               ", converted to 1200";
               "Timestamp normalized from " ++ dq ++ "2024/01/01" ++ dq ++ " to " ++
               dq ++ toISOString t ++ dq] |}
    /\ (forall rawEvent d,
          rawEvent <> VNull ->
          Normalizer.extractField (Normalizer.payload_of rawEvent) "timestamp"
            = VStr "2024/01/01" ->
          Normalizer.data (Normalizer.normalize h rawEvent) = Some d ->
          Normalizer.timestamp d = toISOString t
          /\ In ("Timestamp normalized from " ++ dq ++ "2024/01/01" ++ dq ++ " to " ++
                 dq ++ toISOString t ++ dq)
               (Normalizer.warnings (Normalizer.normalize h rawEvent)))
    /\ Normalizer.parseTimestamp h (VStr "not-a-date") = None
    /\ Normalizer.normalize h (Examples.event (VStr "1200") (VStr "not-a-date")) =
         {| Normalizer.success := false;
            Normalizer.data := None;
            Normalizer.errors := ["Invalid timestamp format: not-a-date"];
            Normalizer.warnings :=
              ["Amount was provided as string " ++ dq ++ "1200" ++ dq ++
               ", converted to 1200";
               "Using current time due to invalid timestamp"] |}
    /\ (forall rawEvent,
          rawEvent <> VNull ->
          Normalizer.extractField (Normalizer.payload_of rawEvent) "timestamp"
            = VStr "not-a-date" ->
          let r := Normalizer.normalize h rawEvent in
          Normalizer.check_timestamp h (Normalizer.payload_of rawEvent) =
            (toISOString (Date_now h),
             ["Invalid timestamp format: not-a-date"],
             ["Using current time due to invalid timestamp"])
          /\ Normalizer.success r = false
          /\ Normalizer.data r = None
          /\ (Normalizer.thrown h rawEvent = None ->
              In "Invalid timestamp format: not-a-date" (Normalizer.errors r)
              /\ In "Using current time due to invalid timestamp"
                    (Normalizer.warnings r))).
Proof.
  intros h t Hslash Ht Hbad.
  pose proof (parseTimestamp_slash_date h t Hslash Ht) as Hp.
  pose proof (parseTimestamp_not_a_date h Hbad) as Hn.
  pose proof (parse_iso_toISOString t Ht) as Hback.
  assert (Hdiff : toISOString t <> "2024/01/01").
  { intros E. rewrite E in Hback. vm_compute in Hback. discriminate. }
  split; [exact Hp |]. split; [| split; [| split; [| split; [exact Hn |]; split]]].
  - split.
    + intros E. rewrite E in Hback. vm_compute in Hback. congruence.
    + intros ->. vm_compute. reflexivity.
  - assert (Hquiet : Normalizer.thrown h Examples.testEvent = None)
      by (apply thrown_none; reflexivity).
    rewrite (normalize_nonnull h Examples.testEvent ltac:(discriminate) Hquiet).
    unfold Normalizer.normalize_fields, Examples.testEvent.
    assert (Hfield : Normalizer.extractField
                       (Normalizer.payload_of Examples.testEvent) "timestamp"
                     = VStr "2024/01/01") by reflexivity.
    assert (Hcheck := check_timestamp_parsed h _ _ _ Hfield
                        ltac:(discriminate) Hp Hdiff).
    unfold Examples.testEvent in Hcheck.
    change (Normalizer.payload_of _) with
      (VObj [("metric", VStr "revenue"); ("amount", VStr "1200");
             ("timestamp", VStr "2024/01/01")]) in *.
    rewrite Hcheck. reflexivity.
  - intros rawEvent d Hnn Hfield Hdata.
    assert (Hcheck := check_timestamp_parsed h _ _ _ Hfield
                        ltac:(discriminate) Hp Hdiff).
    destruct (normalize_reports_timestamp h rawEvent _ _ _ Hnn Hcheck) as (Hd & _).
    destruct (Hd d Hdata) as [Htime Hw].
    split; [exact Htime | apply Hw; left; reflexivity].
  - assert (Hquiet : Normalizer.thrown h (Examples.event (VStr "1200") (VStr "not-a-date"))
                     = None)
      by (apply thrown_none; reflexivity).
    rewrite (normalize_nonnull h (Examples.event (VStr "1200") (VStr "not-a-date"))
               ltac:(discriminate) Hquiet).
    unfold Normalizer.normalize_fields, Examples.event.
    assert (Hfield : Normalizer.extractField
                       (Normalizer.payload_of
                          (Examples.event (VStr "1200") (VStr "not-a-date"))) "timestamp"
                     = VStr "not-a-date") by reflexivity.
    assert (Hcheck := check_timestamp_invalid h _ _ Hfield ltac:(discriminate) Hn).
    unfold Examples.event in Hcheck.
    change (Normalizer.payload_of _) with
      (VObj [("metric", VStr "revenue"); ("amount", VStr "1200");
             ("timestamp", VStr "not-a-date")]) in *.
    rewrite Hcheck. reflexivity.
  - intros rawEvent Hnn Hfield r.
    assert (Hcheck := check_timestamp_invalid h _ _ Hfield ltac:(discriminate) Hn).
    destruct (normalize_reports_timestamp h rawEvent _ _ _ Hnn Hcheck) as (_ & He & Hin).
    destruct He as (Hf & Hd); [discriminate |].
    split; [exact Hcheck |]. split; [exact Hf |]. split; [exact Hd |].
    intros Hquiet. destruct (Hin Hquiet) as [Hw Herr].
    split; [apply Herr; left; reflexivity | apply Hw; left; reflexivity].
Qed.

(** On a host five and a half hours east of Greenwich that reads
    ["2024/01/01"] as local midnight, the event of test.js is stored with the
    evening before. *)
Lemma slash_date_is_read_by_the_host_witness :
  Normalizer.parseTimestamp Examples.local_time_host (VStr "2024/01/01")
    = Some "2023-12-31T18:30:00.000Z"
  /\ "2023-12-31T18:30:00.000Z" <> "2024-01-01T00:00:00.000Z"
  /\ Normalizer.data (Normalizer.normalize Examples.local_time_host Examples.testEvent)
     = Some {| Normalizer.client_id := "client_A";
               Normalizer.metric := "revenue";
               Normalizer.amount := Dec 12 2;
               Normalizer.timestamp := "2023-12-31T18:30:00.000Z" |}.
Proof.
  destruct (slash_date_is_read_by_the_host Examples.local_time_host 1704047400000)
    as (Hp & _ & Hnormalize & _).
  - reflexivity.
  - unfold first_instant, last_instant. lia.
  - reflexivity.
  - split; [exact Hp |]. split; [discriminate |].
    rewrite Hnormalize. reflexivity.
Defined.

Import Hashing.

(** ** The hashed form is a fixed point *)

Lemma lower_char_idempotent c : lower_char (lower_char c) = lower_char c.
Proof. destruct c as [[] [] [] [] [] [] [] []]; reflexivity. Qed.

Lemma toLowerCase_idempotent s : toLowerCase (toLowerCase s) = toLowerCase s.
Proof.
  induction s as [| c s IH]; simpl; [reflexivity |].
  rewrite lower_char_idempotent, IH. reflexivity.
Qed.

Lemma trimEnd_idempotent s : trimEnd (trimEnd s) = trimEnd s.
Proof.
  induction s as [| c s IH]; simpl; [reflexivity |].
  destruct (trimEnd s) as [| c' t] eqn:E.
  - destruct (is_whitespace c) eqn:Hc; cbn [trimEnd]; [reflexivity |]. rewrite Hc. reflexivity.
  - change (trimEnd (String c (String c' t)) = String c (String c' t)).
    apply trimEnd_cons_nonempty; [exact IH | discriminate].
Qed.

Lemma trimStart_trimEnd s :
  trimStart s = s -> trimStart (trimEnd s) = trimEnd s.
Proof.
  destruct s as [| c r]; [reflexivity |]. intros H.
  destruct (is_whitespace c) eqn:Hc.
  - exfalso. cbn [trimStart] in H. rewrite Hc in H.
    assert (L : (String.length (trimStart r) <= String.length r)%nat).
    { clear. induction r as [| x r IH]; simpl; [lia |].
      destruct (is_whitespace x); simpl; lia. }
    rewrite H in L. simpl in L. lia.
  - rewrite (trimEnd_keeps c r Hc). cbn [trimStart]. rewrite Hc. reflexivity.
Qed.

Lemma trimStart_idempotent s : trimStart (trimStart s) = trimStart s.
Proof.
  induction s as [| c s IH]; simpl; [reflexivity |].
  destruct (is_whitespace c) eqn:Hc; [exact IH |]. cbn [trimStart]. rewrite Hc. reflexivity.
Qed.

Lemma trim_idempotent s : trim (trim s) = trim s.
Proof.
  unfold trim. rewrite (trimStart_trimEnd (trimStart s)) by apply trimStart_idempotent.
  apply trimEnd_idempotent.
Qed.

Lemma hashed_string_fixed s :
  toLowerCase (trim (toLowerCase (trim s))) = toLowerCase (trim s).
Proof.
  rewrite (toLowerCase_trim (toLowerCase (trim s))).
  rewrite toLowerCase_idempotent. rewrite <- toLowerCase_trim.
  rewrite trim_idempotent. reflexivity.
Qed.

Lemma copy_key_skipped values sorted k :
  copied values k = false -> IdempotencyHandler.copy_key values sorted k = sorted.
Proof.
  unfold copied, IdempotencyHandler.copy_key, assign.
  destruct (IdempotencyHandler.is_receipt_metadata k); [reflexivity |].
  destruct (k =? "__proto__")%string; [destruct (assoc k values); reflexivity |].
  destruct (assoc k values); [discriminate | reflexivity].
Qed.

Lemma copy_key_copied values sorted k :
  copied values k = true ->
  exists v, assoc k values = Some v
            /\ IdempotencyHandler.is_receipt_metadata k = false
            /\ k <> "__proto__"
            /\ IdempotencyHandler.copy_key values sorted k = set_prop sorted k v.
Proof.
  unfold copied, IdempotencyHandler.copy_key, assign.
  destruct (IdempotencyHandler.is_receipt_metadata k); [discriminate |].
  destruct (k =? "__proto__")%string eqn:Ep; [discriminate |].
  destruct (assoc k values) as [v |]; [| discriminate].
  intros _. exists v. apply String.eqb_neq in Ep. auto.
Qed.

Lemma fold_copied values keys sorted :
  fold_left (IdempotencyHandler.copy_key values) keys sorted
  = fold_left (IdempotencyHandler.copy_key values) (filter (copied values) keys) sorted.
Proof.
  revert sorted. induction keys as [| k keys IH]; intros sorted; [reflexivity |].
  simpl. destruct (copied values k) eqn:E.
  - simpl. apply IH.
  - rewrite (copy_key_skipped values sorted k E). apply IH.
Qed.

Lemma replace_prop_same k v o : assoc k o = Some v -> replace_prop k v o = o.
Proof.
  induction o as [| [k' v'] o IH]; simpl; [reflexivity |].
  destruct (k' =? k)%string eqn:E.
  - apply String.eqb_eq in E. intros [= ->]. subst k'. reflexivity.
  - intros H. rewrite (IH H). reflexivity.
Qed.

Lemma copy_key_twice values sorted k :
  IdempotencyHandler.copy_key values (IdempotencyHandler.copy_key values sorted k) k
  = IdempotencyHandler.copy_key values sorted k.
Proof.
  destruct (copied values k) eqn:E.
  - destruct (copy_key_copied values sorted k E) as (v & Hv & _ & _ & ->).
    destruct (copy_key_copied values (set_prop sorted k v) k E) as (v' & Hv' & _ & _ & ->).
    rewrite Hv in Hv'. injection Hv' as <-.
    unfold set_prop at 1. rewrite assoc_set_prop, String.eqb_refl.
    apply replace_prop_same. rewrite assoc_set_prop, String.eqb_refl. reflexivity.
  - rewrite !(copy_key_skipped values _ k E). reflexivity.
Qed.

Lemma fold_distinct values keys sorted :
  fold_left (IdempotencyHandler.copy_key values) keys sorted
  = fold_left (IdempotencyHandler.copy_key values) (Stats.distinct keys) sorted.
Proof.
  revert sorted. induction keys as [| k keys IH]; intros sorted; [reflexivity |].
  destruct keys as [| k' keys]; [reflexivity |].
  change (Stats.distinct (k :: k' :: keys))
    with (if (k =? k')%string then Stats.distinct (k' :: keys)
          else k :: Stats.distinct (k' :: keys)).
  destruct (k =? k')%string eqn:E.
  - apply String.eqb_eq in E. subst k'. rewrite <- IH.
    simpl. rewrite copy_key_twice. reflexivity.
  - change (fold_left (IdempotencyHandler.copy_key values) (k' :: keys)
              (IdempotencyHandler.copy_key values sorted k)
            = fold_left (IdempotencyHandler.copy_key values) (Stats.distinct (k' :: keys))
                (IdempotencyHandler.copy_key values sorted k)).
    apply IH.
Qed.

Lemma keys_insert_index n k v o :
  Permutation (map fst (insert_index n k v o)) (k :: map fst o).
Proof.
  induction o as [| [k' v'] o IH]; simpl; [reflexivity |].
  destruct (array_index k') as [n' |]; [| reflexivity].
  destruct (n' <? n); [| reflexivity].
  simpl. rewrite IH. apply perm_swap.
Qed.

Lemma keys_set_prop_new k v o :
  assoc k o = None -> Permutation (map fst (set_prop o k v)) (map fst o ++ [k]).
Proof.
  intros H. unfold set_prop. rewrite H. destruct (array_index k) as [n |].
  - rewrite keys_insert_index. apply Permutation_cons_append.
  - rewrite map_app. reflexivity.
Qed.

Lemma keys_fold values keys sorted :
  NoDup keys ->
  (forall k, In k keys -> copied values k = true /\ assoc k sorted = None) ->
  Permutation (map fst (fold_left (IdempotencyHandler.copy_key values) keys sorted))
              (map fst sorted ++ keys).
Proof.
  revert sorted. induction keys as [| k keys IH]; intros sorted Hnd Hk.
  - simpl. rewrite app_nil_r. reflexivity.
  - inversion Hnd as [| ? ? Hnotin Hnd']; subst. simpl.
    destruct (Hk k (or_introl eq_refl)) as [Hc Hnone].
    destruct (copy_key_copied values sorted k Hc) as (v & _ & _ & _ & ->).
    rewrite IH.
    + rewrite (keys_set_prop_new k v sorted Hnone). rewrite <- app_assoc. reflexivity.
    + exact Hnd'.
    + intros k' Hin. destruct (Hk k' (or_intror Hin)) as [Hc' Hnone'].
      split; [exact Hc' |]. rewrite assoc_set_prop.
      destruct (k =? k')%string eqn:E; [| exact Hnone'].
      apply String.eqb_eq in E. subst k'. contradiction.
Qed.

(** *** What [sort()] returns *)

Lemma insert_sorted_sorted k l :
  StronglySorted ordered l -> StronglySorted ordered (insert_sorted k l).
Proof.
  induction 1 as [| x l Hl IH Hx]; simpl.
  - constructor; constructor.
  - destruct (String.leb k x) eqn:E.
    + constructor; [constructor; assumption |].
      constructor; [exact E |].
      rewrite Forall_forall in *. intros y Hy. exact (leb_trans k x y E (Hx y Hy)).
    + constructor; [exact IH |].
      rewrite Forall_forall in *. intros y Hy. apply in_insert_sorted in Hy.
      destruct Hy as [-> | Hy]; [exact (leb_false_flip k x E) | exact (Hx y Hy)].
Qed.

Lemma sort_sorted l : StronglySorted ordered (sort l).
Proof.
  induction l as [| k l IH]; simpl; [constructor |].
  apply insert_sorted_sorted. exact IH.
Qed.

Lemma filter_sorted (p : string -> bool) l :
  StronglySorted ordered l -> StronglySorted ordered (filter p l).
Proof.
  induction 1 as [| x l Hl IH Hx]; simpl; [constructor |].
  destruct (p x); [| exact IH]. constructor; [exact IH |].
  rewrite Forall_forall in *. intros y Hy. apply filter_In in Hy. apply Hx. apply Hy.
Qed.

Lemma in_distinct k l : In k (Stats.distinct l) <-> In k l.
Proof.
  induction l as [| x l IH]; [reflexivity |].
  destruct l as [| x' l]; [reflexivity |].
  change (Stats.distinct (x :: x' :: l))
    with (if (x =? x')%string then Stats.distinct (x' :: l)
          else x :: Stats.distinct (x' :: l)).
  destruct (x =? x')%string eqn:E.
  - apply String.eqb_eq in E. subst x'. rewrite IH. simpl. tauto.
  - simpl In at 1. rewrite IH. simpl. tauto.
Qed.

Lemma distinct_sorted l :
  StronglySorted ordered l ->
  StronglySorted ordered (Stats.distinct l) /\ NoDup (Stats.distinct l).
Proof.
  induction 1 as [| x l Hl [IHs IHn] Hx]; [split; constructor |].
  destruct l as [| x' l]; [split; repeat constructor; intros [] |].
  change (Stats.distinct (x :: x' :: l))
    with (if (x =? x')%string then Stats.distinct (x' :: l)
          else x :: Stats.distinct (x' :: l)).
  destruct (x =? x')%string eqn:E; [split; assumption |].
  apply String.eqb_neq in E. split.
  - constructor; [exact IHs |]. rewrite Forall_forall in *.
    intros y Hy. apply Hx. apply in_distinct. exact Hy.
  - constructor; [| exact IHn]. intros Hin. apply (proj1 (in_distinct _ _)) in Hin.
    apply E. inversion Hl as [| ? ? _ Hx']; subst.
    rewrite Forall_forall in Hx, Hx'.
    apply String.leb_antisym; [apply Hx; left; reflexivity |].
    destruct (in_inv Hin) as [Heq | Hin']; [exfalso; apply E; symmetry; exact Heq |].
    apply Hx'. exact Hin'.
Qed.

Lemma sort_of_sorted l : StronglySorted ordered l -> sort l = l.
Proof.
  induction 1 as [| x l Hl IH Hx]; [reflexivity |].
  simpl. rewrite IH. destruct l as [| y l]; [reflexivity |].
  simpl. inversion Hx as [| ? ? Hxy _]; subst. unfold ordered in Hxy.
  rewrite Hxy. reflexivity.
Qed.

Lemma fold_agree values values' keys sorted :
  (forall k sorted', In k keys ->
     IdempotencyHandler.copy_key values sorted' k
     = IdempotencyHandler.copy_key values' sorted' k) ->
  fold_left (IdempotencyHandler.copy_key values) keys sorted
  = fold_left (IdempotencyHandler.copy_key values') keys sorted.
Proof.
  revert sorted. induction keys as [| k keys IH]; intros sorted H; [reflexivity |].
  simpl. rewrite (H k sorted (or_introl eq_refl)). apply IH.
  intros k' sorted' Hin. apply H. right. exact Hin.
Qed.

(** The object [normalizeForHashing] builds is rebuilt as itself. *)
Lemma rebuild_fixed keys values :
  let sorted := IdempotencyHandler.rebuild keys values in
  IdempotencyHandler.rebuild (map fst sorted) sorted = sorted.
Proof.
  intros sorted.
  set (copies := Stats.distinct (filter (copied values) (sort keys))).
  assert (Hsorted : StronglySorted ordered copies /\ NoDup copies)
    by (apply distinct_sorted, filter_sorted, sort_sorted).
  destruct Hsorted as [Hsorted Hnodup].
  assert (Hcopied : forall k, In k copies -> copied values k = true /\ In k (sort keys)).
  { intros k Hin. apply (proj1 (in_distinct _ _)) in Hin. apply filter_In in Hin.
    destruct Hin. auto. }
  assert (Efold : sorted = fold_left (IdempotencyHandler.copy_key values) copies []).
  { subst sorted copies. unfold IdempotencyHandler.rebuild.
    rewrite fold_copied. apply fold_distinct. }
  assert (Hkeys : Permutation (map fst sorted) copies).
  { rewrite Efold. rewrite keys_fold; [reflexivity | exact Hnodup |].
    intros k Hin. split; [apply Hcopied; exact Hin | reflexivity]. }
  unfold IdempotencyHandler.rebuild at 1.
  rewrite (sort_permutation _ _ Hkeys). rewrite (sort_of_sorted copies Hsorted).
  rewrite Efold at 2. apply fold_agree.
  intros k sorted' Hin. destruct (Hcopied k Hin) as [Hc Hin'].
  destruct (copy_key_copied values sorted' k Hc) as (v & Hv & Hmeta & Hproto & ->).
  assert (Hfound : assoc k sorted = Some v).
  { subst sorted. unfold IdempotencyHandler.rebuild.
    apply assoc_fold_present; assumption. }
  unfold IdempotencyHandler.copy_key, assign.
  rewrite Hmeta, Hfound. rewrite (proj2 (String.eqb_neq _ _) Hproto). reflexivity.
Qed.

(** The values of the rebuilt object are among the values it was given. *)
Lemma values_set_prop (P : value -> Prop) o k v :
  Forall (fun kv => P (snd kv)) o -> P v -> Forall (fun kv => P (snd kv)) (set_prop o k v).
Proof.
  intros Ho Hv. unfold set_prop. destruct (assoc k o).
  - induction Ho as [| [k' v'] o Hkv Ho IH]; simpl; [constructor |].
    destruct (k' =? k)%string; constructor; assumption.
  - destruct (array_index k) as [n |].
    + induction Ho as [| [k' v'] o Hkv Ho IH]; simpl; [repeat constructor; exact Hv |].
      destruct (array_index k') as [n' |].
      * destruct (n' <? n); repeat constructor; assumption.
      * repeat constructor; assumption.
    + apply Forall_app. split; [exact Ho | repeat constructor; exact Hv].
Qed.

Lemma assoc_value (P : value -> Prop) k (o : list (string * value)) v :
  Forall (fun kv => P (snd kv)) o -> assoc k o = Some v -> P v.
Proof.
  induction 1 as [| [k' v'] o Hkv Ho IH]; simpl; [discriminate |].
  destruct (k' =? k)%string; [intros [= <-]; exact Hkv | exact IH].
Qed.

Lemma values_rebuild (P : value -> Prop) keys values :
  Forall (fun kv => P (snd kv)) values ->
  Forall (fun kv => P (snd kv)) (IdempotencyHandler.rebuild keys values).
Proof.
  intros Hv. unfold IdempotencyHandler.rebuild.
  assert (H : Forall (fun kv : string * value => P (snd kv)) []) by constructor.
  revert H. generalize (@nil (string * value)).
  induction (sort keys) as [| k l IH]; intros sorted Hs; [exact Hs |].
  simpl. apply IH. unfold IdempotencyHandler.copy_key, assign.
  destruct (IdempotencyHandler.is_receipt_metadata k); [exact Hs |].
  destruct (assoc k values) as [v |] eqn:E; [| exact Hs].
  destruct (k =? "__proto__")%string; [exact Hs |].
  apply values_set_prop; [exact Hs |]. exact (assoc_value P k values v Hv E).
Qed.

Lemma map_fixed_values (f : value -> value) (o : list (string * value)) :
  Forall (fun kv => f (snd kv) = snd kv) o ->
  map (fun kv : string * value => let (k, x) := kv in (k, f x)) o = o.
Proof.
  induction 1 as [| [k v] o Hkv Ho IH]; simpl; [reflexivity |].
  simpl in Hkv. rewrite Hkv, IH. reflexivity.
Qed.

Lemma normalizeForHashing_fixed :
  forall v,
    IdempotencyHandler.normalizeForHashing (IdempotencyHandler.normalizeForHashing v)
    = IdempotencyHandler.normalizeForHashing v.
Proof.
  fix normalizeForHashing_fixed 1. intros v.
  destruct v as [| b | n | s | items | props]; try reflexivity.
  - simpl. rewrite hashed_string_fixed. reflexivity.
  - simpl. f_equal. rewrite map_map.
    induction items as [| x items IH]; simpl; [reflexivity |].
    rewrite (normalizeForHashing_fixed x), IH. reflexivity.
  - cbn [IdempotencyHandler.normalizeForHashing]. f_equal.
    set (values := map (fun kv : string * value =>
                          let (k, x) := kv in (k, IdempotencyHandler.normalizeForHashing x))
                       props).
    assert (Hvalues : Forall (fun kv : string * value =>
                                IdempotencyHandler.normalizeForHashing (snd kv) = snd kv)
                             values).
    { subst values. induction props as [| [k x] props IH]; simpl; constructor.
      - simpl. apply normalizeForHashing_fixed.
      - exact IH. }
    rewrite (map_fixed_values IdempotencyHandler.normalizeForHashing
               (IdempotencyHandler.rebuild (map fst props) values))
      by (apply (values_rebuild (fun x => IdempotencyHandler.normalizeForHashing x = x));
          exact Hvalues).
    apply rebuild_fixed.
Qed.

(** X25: the hashed form is a fixed point.  [normalizeForHashing] changes
    nothing in what it has produced, so an event and its hashed form, and
    any event sent in that form, have the same fingerprint. *)
Theorem hashed_form_has_the_same_fingerprint :
  forall rawEvent,
    IdempotencyHandler.normalizeForHashing (IdempotencyHandler.normalizeForHashing rawEvent)
    = IdempotencyHandler.normalizeForHashing rawEvent
    /\ IdempotencyHandler.generateEventHash (IdempotencyHandler.normalizeForHashing rawEvent)
       = IdempotencyHandler.generateEventHash rawEvent.
Proof.
  intros rawEvent. split; [apply normalizeForHashing_fixed |].
  unfold IdempotencyHandler.generateEventHash. rewrite normalizeForHashing_fixed.
  reflexivity.
Qed.

(** ** The hashed text tells the aliases apart *)

Lemma occurrences_app c s1 s2 :
  occurrences c (s1 ++ s2) = occurrences c s1 + occurrences c s2.
Proof. induction s1 as [| x s1 IH]; simpl; [reflexivity | rewrite IH; lia]. Qed.

Lemma occurrences_nonneg c s : 0 <= occurrences c s.
Proof. induction s as [| x s IH]; simpl; [lia | destruct (Ascii.eqb x c); lia]. Qed.

Lemma total_app c l1 l2 : total c (l1 ++ l2) = total c l1 + total c l2.
Proof. induction l1 as [| s l1 IH]; simpl; [reflexivity | rewrite IH; lia]. Qed.

Lemma total_permutation c l l' : Permutation l l' -> total c l = total c l'.
Proof. induction 1; simpl; lia. Qed.

Lemma occurrences_join c sep l :
  occurrences c (join sep l)
  = total c l + occurrences c sep * Z.of_nat (Nat.pred (List.length l)).
Proof.
  unfold join. induction l as [| s l IH]; [simpl; lia |].
  destruct l as [| s' l]; [simpl; lia |].
  change (String.concat sep (s :: s' :: l)) with (s ++ sep ++ String.concat sep (s' :: l)).
  rewrite !occurrences_app, IH. simpl total. simpl List.length.
  rewrite Nat.pred_succ. simpl Nat.pred. lia.
Qed.

Lemma occurrences_object c o :
  occurrences c (JSON_stringify (VObj o))
  = occurrences c "{" + total c (map member o)
    + occurrences c "," * Z.of_nat (Nat.pred (List.length o)) + occurrences c "}".
Proof.
  cbn [JSON_stringify]. fold member.
  rewrite !occurrences_app, occurrences_join, length_map. lia.
Qed.

Lemma occurrences_array c items :
  occurrences c (JSON_stringify (VArr items))
  = occurrences c "[" + total c (map JSON_stringify items)
    + occurrences c "," * Z.of_nat (Nat.pred (List.length items)) + occurrences c "]".
Proof.
  cbn [JSON_stringify].
  rewrite !occurrences_app, occurrences_join, length_map. lia.
Qed.

Lemma occurrences_permuted c o o' :
  Permutation o o' ->
  occurrences c (JSON_stringify (VObj o)) = occurrences c (JSON_stringify (VObj o')).
Proof.
  intros H. rewrite !occurrences_object.
  rewrite (total_permutation c _ _ (Permutation_map member H)).
  rewrite (Permutation_length H). reflexivity.
Qed.

Lemma insert_index_members n k v o : Permutation (insert_index n k v o) ((k, v) :: o).
Proof.
  induction o as [| [k' v'] o IH]; simpl; [reflexivity |].
  destruct (array_index k') as [n' |]; [| reflexivity].
  destruct (n' <? n); [| reflexivity].
  rewrite IH. apply perm_swap.
Qed.

Lemma set_prop_members k v o :
  assoc k o = None -> Permutation (set_prop o k v) (o ++ [(k, v)]).
Proof.
  intros H. unfold set_prop. rewrite H. destruct (array_index k) as [n |].
  - rewrite insert_index_members. apply Permutation_cons_append.
  - reflexivity.
Qed.

Lemma fold_members values keys sorted :
  NoDup keys ->
  (forall k, In k keys -> copied values k = true /\ assoc k sorted = None) ->
  Permutation (fold_left (IdempotencyHandler.copy_key values) keys sorted)
              (sorted ++ map (entry values) keys).
Proof.
  revert sorted. induction keys as [| k keys IH]; intros sorted Hnd Hk.
  - simpl. rewrite app_nil_r. reflexivity.
  - inversion Hnd as [| ? ? Hnotin Hnd']; subst. simpl.
    destruct (Hk k (or_introl eq_refl)) as [Hc Hnone].
    destruct (copy_key_copied values sorted k Hc) as (v & Hv & _ & _ & ->).
    rewrite IH.
    + rewrite (set_prop_members k v sorted Hnone). rewrite <- app_assoc.
      unfold entry at 2. rewrite Hv. reflexivity.
    + exact Hnd'.
    + intros k' Hin. destruct (Hk k' (or_intror Hin)) as [Hc' Hnone'].
      split; [exact Hc' |]. rewrite assoc_set_prop.
      destruct (k =? k')%string eqn:E; [| exact Hnone'].
      apply String.eqb_eq in E. subst k'. contradiction.
Qed.

Lemma copies_spec keys values :
  NoDup (copied_keys keys values)
  /\ forall k, In k (copied_keys keys values) <-> In k keys /\ copied values k = true.
Proof.
  unfold copied_keys. split.
  - apply distinct_sorted, filter_sorted, sort_sorted.
  - intros k. rewrite in_distinct, filter_In, in_sort. reflexivity.
Qed.

Lemma rebuild_members keys values :
  Permutation (IdempotencyHandler.rebuild keys values)
              (map (entry values) (copied_keys keys values)).
Proof.
  destruct (copies_spec keys values) as [Hnd Hin].
  unfold IdempotencyHandler.rebuild. rewrite fold_copied, fold_distinct.
  fold (copied_keys keys values).
  rewrite (fold_members values (copied_keys keys values) [] Hnd); [reflexivity |].
  intros k Hk. split; [apply Hin; exact Hk | reflexivity].
Qed.

(** The text of the hashed form of an object, character by character. *)
Lemma occurrences_hashed c props :
  let values := map (fun kv : string * value =>
                       let (k, x) := kv in (k, IdempotencyHandler.normalizeForHashing x))
                    props in
  let keys := copied_keys (map fst props) values in
  occurrences c (JSON_stringify (IdempotencyHandler.normalizeForHashing (VObj props)))
  = occurrences c "{" + total c (map member (map (entry values) keys))
    + occurrences c "," * Z.of_nat (Nat.pred (List.length keys)) + occurrences c "}".
Proof.
  intros values keys. cbn [IdempotencyHandler.normalizeForHashing]. fold values.
  rewrite (occurrences_permuted c _ _ (rebuild_members (map fst props) values)).
  rewrite occurrences_object, length_map. reflexivity.
Qed.

Lemma total_middle c (f : string -> string) l1 k l2 :
  total c (map f (l1 ++ k :: l2))
  = total c (map f l1) + occurrences c (f k) + total c (map f l2).
Proof. rewrite map_app, total_app. simpl. lia. Qed.

Lemma copied_same values values' k :
  (assoc k values = None <-> assoc k values' = None) ->
  copied values k = copied values' k.
Proof.
  unfold copied. intros [H1 H2].
  destruct (assoc k values), (assoc k values'); try reflexivity.
  - discriminate (H2 eq_refl).
  - discriminate (H1 eq_refl).
Qed.

Lemma copies_same keys values values' :
  (forall k, assoc k values = None <-> assoc k values' = None) ->
  copied_keys keys values = copied_keys keys values'.
Proof.
  intros H. unfold copied_keys. f_equal. apply filter_ext.
  intros k. apply copied_same, H.
Qed.

Lemma hashed_values_middle pre k x post :
  map (fun kv : string * value =>
         let (k, x) := kv in (k, IdempotencyHandler.normalizeForHashing x))
      (pre ++ (k, x) :: post)
  = (map (fun kv : string * value =>
            let (k, x) := kv in (k, IdempotencyHandler.normalizeForHashing x)) pre
     ++ (k, IdempotencyHandler.normalizeForHashing x)
     :: map (fun kv : string * value =>
               let (k, x) := kv in (k, IdempotencyHandler.normalizeForHashing x)) post)%list.
Proof. rewrite map_app. reflexivity. Qed.

Lemma hashed_keys (props : list (string * value)) :
  map fst (map (fun kv : string * value =>
                  let (k, x) := kv in (k, IdempotencyHandler.normalizeForHashing x)) props)
  = map fst props.
Proof.
  rewrite map_map. apply map_ext. intros [k x]. reflexivity.
Qed.

(** Below an element of an array, a difference in the number of some
    character shows in the text of the array. *)
Lemma occurrences_in_array c pre x y post :
  occurrences c (JSON_stringify
                   (IdempotencyHandler.normalizeForHashing (VArr (pre ++ x :: post))))
  - occurrences c (JSON_stringify
                     (IdempotencyHandler.normalizeForHashing (VArr (pre ++ y :: post))))
  = occurrences c (JSON_stringify (IdempotencyHandler.normalizeForHashing x))
    - occurrences c (JSON_stringify (IdempotencyHandler.normalizeForHashing y)).
Proof.
  cbn [IdempotencyHandler.normalizeForHashing]. rewrite !occurrences_array.
  rewrite !map_app. cbn [map]. rewrite !total_app. cbn [total fold_right].
  rewrite !length_app. cbn [List.length]. lia.
Qed.

(** The same below a key of an object that the hash keeps. *)
Lemma occurrences_in_object c pre k x y post :
  IdempotencyHandler.is_receipt_metadata k = false ->
  k <> "__proto__" ->
  ~ In k (map fst pre) ->
  occurrences c (JSON_stringify
                   (IdempotencyHandler.normalizeForHashing (VObj (pre ++ (k, x) :: post))))
  - occurrences c (JSON_stringify
                     (IdempotencyHandler.normalizeForHashing (VObj (pre ++ (k, y) :: post))))
  = occurrences c (JSON_stringify (IdempotencyHandler.normalizeForHashing x))
    - occurrences c (JSON_stringify (IdempotencyHandler.normalizeForHashing y)).
Proof.
  intros Hmeta Hproto Hpre. rewrite !occurrences_hashed. cbv zeta.
  rewrite !hashed_values_middle.
  set (f := fun kv : string * value =>
              let (k, x) := kv in (k, IdempotencyHandler.normalizeForHashing x)).
  set (nx := IdempotencyHandler.normalizeForHashing x).
  set (ny := IdempotencyHandler.normalizeForHashing y).
  assert (Hpre' : ~ In k (map fst (map f pre))) by (subst f; rewrite hashed_keys; exact Hpre).
  assert (Hkeys : map fst (pre ++ (k, x) :: post) = map fst (pre ++ (k, y) :: post))
    by (rewrite !map_app; reflexivity).
  rewrite <- Hkeys.
  set (keys := map fst (pre ++ (k, x) :: post)).
  assert (Hother : forall v k', k' <> k ->
             assoc k' (map f pre ++ (k, v) :: map f post)
             = assoc k' (map f pre ++ map f post))
    by (intros v k' Hne; apply assoc_skip; congruence).
  assert (Hsame : forall k', assoc k' (map f pre ++ (k, nx) :: map f post) = None
                             <-> assoc k' (map f pre ++ (k, ny) :: map f post) = None).
  { intros k'. destruct (string_dec k' k) as [-> | Hne].
    - rewrite !(assoc_middle k (map f pre) _ (map f post) Hpre'). split; discriminate.
    - rewrite !(Hother _ k' Hne). reflexivity. }
  rewrite <- (copies_same keys _ _ Hsame).
  destruct (copies_spec keys (map f pre ++ (k, nx) :: map f post)) as [Hnd Hin].
  assert (Hk : In k (copied_keys keys (map f pre ++ (k, nx) :: map f post))).
  { apply Hin. split.
    - subst keys. rewrite map_app. apply in_or_app. right. left. reflexivity.
    - unfold copied. rewrite Hmeta, (assoc_middle k (map f pre) nx (map f post) Hpre').
      rewrite (proj2 (String.eqb_neq _ _) Hproto). reflexivity. }
  destruct (in_split _ _ Hk) as (l1 & l2 & E). rewrite E in *.
  apply NoDup_remove_2 in Hnd.
  assert (Hl : forall k', In k' (l1 ++ l2) ->
             entry (map f pre ++ (k, nx) :: map f post) k'
             = entry (map f pre ++ (k, ny) :: map f post) k').
  { intros k' Hk'. unfold entry. rewrite !Hother; [reflexivity | |];
      intros ->; contradiction. }
  rewrite !map_map, !total_middle.
  rewrite (map_ext_in _ (fun k' => member (entry (map f pre ++ (k, ny) :: map f post) k')) l1)
    by (intros k' Hk'; rewrite Hl; [reflexivity | apply in_or_app; auto]).
  rewrite (map_ext_in _ (fun k' => member (entry (map f pre ++ (k, ny) :: map f post) k')) l2)
    by (intros k' Hk'; rewrite Hl; [reflexivity | apply in_or_app; auto]).
  unfold entry at 2 5.
  rewrite !(assoc_middle k (map f pre) _ (map f post) Hpre').
  unfold member at 2 5. rewrite !occurrences_app. lia.
Qed.

Lemma aliases_told_apart a b : Content.aliases a b -> told_apart a b = true.
Proof.
  intros (Hab & field & names & Hf & Ha & Hb). revert Hf Ha Hb.
  unfold Normalizer.fieldMappings.
  repeat (destruct (field =? _)%string;
          [intros [= <-]; simpl; intros Ha Hb;
           repeat (destruct Ha as [<- | Ha];
                   [repeat (destruct Hb as [<- | Hb];
                            [first [contradiction Hab; reflexivity
                                   | vm_compute; reflexivity] |]);
                    destruct Hb |]);
           destruct Ha |]).
  discriminate.
Qed.

Lemma told_apart_spec a b :
  told_apart a b = true ->
  exists c, occurrences c (quote a) <> occurrences c (quote b).
Proof.
  unfold told_apart. intros H. apply existsb_exists in H.
  destruct H as (c & _ & Hc). exists c.
  apply negb_true_iff, Z.eqb_neq in Hc. exact Hc.
Qed.

(** The text of the hashed form of an object with one more key that the
    hash keeps. *)
Lemma occurrences_with_key c pre a v post :
  ~ In a (map fst (pre ++ post)) ->
  IdempotencyHandler.is_receipt_metadata a = false ->
  a <> "__proto__" ->
  let values := map (fun kv : string * value =>
                       let (k, x) := kv in (k, IdempotencyHandler.normalizeForHashing x))
                    (pre ++ post) in
  let keys := copied_keys (map fst (pre ++ post)) values in
  occurrences c (JSON_stringify
                   (IdempotencyHandler.normalizeForHashing (VObj (pre ++ (a, v) :: post))))
  = occurrences c "{"
    + (occurrences c (member (a, IdempotencyHandler.normalizeForHashing v))
       + total c (map member (map (entry values) keys)))
    + occurrences c "," * Z.of_nat (List.length keys) + occurrences c "}".
Proof.
  intros Hnew Hmeta Hproto values keys. rewrite occurrences_hashed. cbv zeta.
  rewrite hashed_values_middle.
  set (f := fun kv : string * value =>
              let (k, x) := kv in (k, IdempotencyHandler.normalizeForHashing x)) in *.
  set (nv := IdempotencyHandler.normalizeForHashing v).
  assert (Evalues : values = (map f pre ++ map f post)%list)
    by (subst values; apply map_app).
  assert (Hpre : ~ In a (map fst (map f pre))).
  { subst f. rewrite hashed_keys. intros H. apply Hnew. rewrite map_app.
    apply in_or_app. auto. }
  assert (Hother : forall k, k <> a ->
             assoc k (map f pre ++ (a, nv) :: map f post) = assoc k values)
    by (intros k Hne; rewrite Evalues; apply assoc_skip; congruence).
  set (values_a := (map f pre ++ (a, nv) :: map f post)%list) in *.
  set (keys_a := copied_keys (map fst (pre ++ (a, v) :: post)) values_a).
  destruct (copies_spec (map fst (pre ++ (a, v) :: post)) values_a) as [Hnd_a Hin_a].
  destruct (copies_spec (map fst (pre ++ post)) values) as [Hnd Hin].
  fold keys_a in Hnd_a, Hin_a. fold keys in Hnd, Hin.
  assert (Hfresh : ~ In a keys) by (intros H; apply Hin in H; apply Hnew, H).
  assert (Hperm : Permutation keys_a (a :: keys)).
  { apply NoDup_Permutation; [exact Hnd_a | constructor; assumption |].
    intros k. rewrite Hin_a. simpl. rewrite Hin. rewrite !map_app. simpl.
    rewrite !in_app_iff. simpl. destruct (string_dec k a) as [-> | Hne].
    - split; [auto |]. intros _. split; [auto |].
      unfold copied. rewrite Hmeta. unfold values_a.
      rewrite (assoc_middle a (map f pre) nv (map f post) Hpre).
      rewrite (proj2 (String.eqb_neq _ _) Hproto). reflexivity.
    - unfold copied. rewrite (Hother k Hne). split.
      + intros [[H | [H | H]] Hc]; [right; auto | congruence | right; auto].
      + intros [H | [H Hc]]; [congruence | tauto]. }
  rewrite (total_permutation c _ _
             (Permutation_map member (Permutation_map (entry values_a) Hperm))).
  rewrite (Permutation_length Hperm). cbn [map total fold_right List.length Nat.pred].
  unfold entry at 1. unfold values_a at 1.
  rewrite (assoc_middle a (map f pre) nv (map f post) Hpre).
  rewrite (map_ext_in (entry values_a) (entry values) keys); [reflexivity |].
  intros k Hk. unfold entry. rewrite Hother; [reflexivity |].
  intros ->. contradiction.
Qed.

(** Where two payloads differ by the alias that names a field, some
    character stands in the two hashed texts a different number of times. *)
Lemma occurrences_at_alias pre a b v post :
  Content.aliases a b ->
  ~ In a (map fst (pre ++ post)) ->
  ~ In b (map fst (pre ++ post)) ->
  exists c,
    occurrences c (JSON_stringify
                     (IdempotencyHandler.normalizeForHashing (VObj (pre ++ (a, v) :: post))))
    <> occurrences c (JSON_stringify
                        (IdempotencyHandler.normalizeForHashing
                           (VObj (pre ++ (b, v) :: post)))).
Proof.
  intros Hal Hna Hnb.
  pose proof (aliases_told_apart a b Hal) as Htold.
  destruct Hal as (Hab & field & names & Hf & Ha & Hb).
  destruct (alias_is_business_key field names a Hf Ha) as (Hpa & Hma).
  destruct (alias_is_business_key field names b Hf Hb) as (Hpb & Hmb).
  assert (Hcolon : forall k x, 0 < occurrences ":" (member (k, x))).
  { intros k x. unfold member. rewrite !occurrences_app.
    pose proof (occurrences_nonneg ":" (quote k)).
    pose proof (occurrences_nonneg ":" (JSON_stringify x)).
    change (occurrences ":" ":") with 1. lia. }
  destruct (IdempotencyHandler.is_receipt_metadata a) eqn:Ea;
    destruct (IdempotencyHandler.is_receipt_metadata b) eqn:Eb.
  - rewrite (Hma eq_refl), (Hmb eq_refl) in Hab. congruence.
  - exists ":"%char.
    rewrite <- (edit_normalizeForHashing _ _ (Content.edit_metadata pre a v post Ea)).
    rewrite (occurrences_with_key ":" pre b v post Hnb Eb Hpb).
    rewrite occurrences_hashed. cbv zeta.
    specialize (Hcolon b (IdempotencyHandler.normalizeForHashing v)).
    change (occurrences ":" ",") with 0. lia.
  - exists ":"%char.
    rewrite <- (edit_normalizeForHashing _ _ (Content.edit_metadata pre b v post Eb)).
    rewrite (occurrences_with_key ":" pre a v post Hna Ea Hpa).
    rewrite occurrences_hashed. cbv zeta.
    specialize (Hcolon a (IdempotencyHandler.normalizeForHashing v)).
    change (occurrences ":" ",") with 0. lia.
  - destruct (told_apart_spec a b Htold) as (c & Hc). exists c.
    rewrite (occurrences_with_key c pre a v post Hna Ea Hpa).
    rewrite (occurrences_with_key c pre b v post Hnb Eb Hpb).
    unfold member. rewrite !occurrences_app. lia.
Qed.

Lemma alias_swap_told_apart x y :
  Content.alias_swap x y ->
  exists c,
    occurrences c (JSON_stringify (IdempotencyHandler.normalizeForHashing x))
    <> occurrences c (JSON_stringify (IdempotencyHandler.normalizeForHashing y)).
Proof.
  induction 1 as [pre a b v post Hal Hna Hnb | pre x y post _ [c IH]
                  | pre k x y post _ [c IH] Hm Hp Hn].
  - apply occurrences_at_alias; assumption.
  - exists c. pose proof (occurrences_in_array c pre x y post). lia.
  - exists c. pose proof (occurrences_in_object c pre k x y post Hm Hp Hn). lia.
Qed.

(** C4 (amended): [generateEventHash] maps no alias to its canonical field.
    Two payloads that differ only in the alias that names one field (a field
    that is not below a [received_at], [created_at], [id] or [__proto__] key)
    are hashed from different texts: the JSON texts that [generateEventHash]
    gives to SHA-256 differ, and the two fingerprints are the digests of
    these two texts. *)
Theorem alias_choice_changes_hashed_content :
  forall x y,
    Content.alias_swap x y ->
    let text_x := JSON_stringify (IdempotencyHandler.normalizeForHashing x) in
    let text_y := JSON_stringify (IdempotencyHandler.normalizeForHashing y) in
    text_x <> text_y
    /\ IdempotencyHandler.generateEventHash x = Crypto.sha256_hex text_x
    /\ IdempotencyHandler.generateEventHash y = Crypto.sha256_hex text_y.
Proof.
  intros x y H text_x text_y. split; [| split; reflexivity].
  destruct (alias_swap_told_apart x y H) as (c & Hc).
  intros E. apply Hc. fold text_x text_y. rewrite E. reflexivity.
Qed.

(** [amount] against [value] in the payload of the event of test.js. *)
Lemma alias_choice_changes_hashed_content_witness :
  let x := VObj [("source", VStr "client_A");
                 ("payload", VObj [("metric", VStr "revenue"); ("amount", VStr "1200");
                                   ("timestamp", VStr "2024/01/01")])] in
  let y := VObj [("source", VStr "client_A");
                 ("payload", VObj [("metric", VStr "revenue"); ("value", VStr "1200");
                                   ("timestamp", VStr "2024/01/01")])] in
  JSON_stringify (IdempotencyHandler.normalizeForHashing x)
  <> JSON_stringify (IdempotencyHandler.normalizeForHashing y)
  /\ IdempotencyHandler.generateEventHash x
     = Crypto.sha256_hex (JSON_stringify (IdempotencyHandler.normalizeForHashing x))
  /\ IdempotencyHandler.generateEventHash y
     = Crypto.sha256_hex (JSON_stringify (IdempotencyHandler.normalizeForHashing y)).
Proof.
  intros x y. apply (alias_choice_changes_hashed_content x y).
  apply (Content.swap_in_object [("source", VStr "client_A")] "payload" _ _ []).
  - apply (Content.swap_here [("metric", VStr "revenue")] "amount" "value"
             (VStr "1200") [("timestamp", VStr "2024/01/01")]).
    + split; [discriminate |]. exists "amount". eexists. split; [reflexivity |].
      split; simpl; auto.
    + simpl. intros [H | [H | []]]; discriminate.
    + simpl. intros [H | [H | []]]; discriminate.
  - reflexivity.
  - discriminate.
  - simpl. intros [H | []]. discriminate.
Defined.
